(** * RL Analyzer: the metrics pipeline of [app.py]

    A shallow embedding of the four pure transforms of [src/app.py]

    - [parse_match_data]                  (the spec's Metrics Extractor),
    - [aggregate_user_metrics] / [get_streamer_average]   (Aggregator),
    - [compute_strengths_and_weaknesses]  (Comparator),
    - [generate_tips]                     (Tip Generator),

    and the properties of them that the specification states.

    Data is modelled as Python has it.  A Python [float] is an IEEE 754
    binary64 number, that is Rocq's primitive [float]; a Python [int] is a
    [Z]; a value decoded by [json.load] is a [json] tree; a [dict] is an
    association list in insertion order (Python dicts iterate in insertion
    order and hold each key once); an exception is a [Raise] result. *)

From Stdlib Require Import ZArith List String Ascii Bool Lia Floats Uint63.
Import ListNotations.

Set Warnings "-inexact-float,-register-all".

Local Open Scope string_scope.
Local Open Scope Z_scope.

(** ** Exceptions and results *)

Inductive exn : Type :=
| AttributeError
| TypeError
| ValueError
| KeyError
| ZeroDivisionError
| OverflowError.

Inductive result (A : Type) : Type :=
| Ok (a : A)
| Raise (e : exn).

Arguments Ok {A} a.
Arguments Raise {A} e.

Definition bind {A B : Type} (r : result A) (k : A -> result B) : result B :=
  match r with
  | Ok a => k a
  | Raise e => Raise e
  end.

Notation "x <- r ;; k" := (bind r (fun x => k))
  (at level 61, r at next level, right associativity).
Notation "' p <- r ;; k" := (bind r (fun x => let p := x in k))
  (at level 61, p pattern, r at next level, right associativity).

(** ** Python floats *)

Module PyFloat.

(** [float(n)] for an [int] [n]: the correctly rounded binary64 value, or
    [OverflowError] (here [None]) when [n] is too large.  Below [2^63] this
    is the kernel's [of_uint63]; beyond, the same rounding is computed by
    the IEEE specification's [binary_normalize]. *)
Definition of_int (z : Z) : option float :=
  if Z.abs z <? 2 ^ 63 then
    Some (if z <? 0 then (- of_uint63 (of_Z (- z)))%float
          else of_uint63 (of_Z z))
  else
    match binary_normalize prec emax z 0 false with
    | S754_infinity _ => None
    | sf => Some (SF2Prim sf)
    end.

(** [float(n)] for a length or a counter [n], which in CPython is below
    [sys.maxsize = 2^63 - 1]: the conversion cannot overflow. *)
Definition of_len (n : nat) : float := of_uint63 (of_Z (Z.of_nat n)).

(** The integer nearest to [num / den] ([den > 0]), ties to even. *)
Definition round_half_even (num den : Z) : Z :=
  let q := num / den in
  let r := num mod den in
  match 2 * r ?= den with
  | Lt => q
  | Gt => q + 1
  | Eq => if Z.even q then q else q + 1
  end.

(** [round(x, 3)] for a float [x].  CPython rounds the exact binary value
    of [x] to three decimals (ties to even) and returns the double nearest
    to that decimal; infinities, NaN and zeros are returned unchanged.
    For [x = m * 2^e] with [e >= -9] the doubles around [x] are at least
    [2^-9 > 0.001] apart, so the result is [x] itself.  Otherwise
    [|x| < 2^43], the rounded decimal is [k / 1000] with [k < 2^53], and the
    nearest double is the correctly rounded quotient [float(k) / 1000.0]. *)
Definition round3 (x : float) : float :=
  match Prim2SF x with
  | S754_finite s m e =>
      if e <? -9 then
        let k := round_half_even (1000 * Zpos m) (2 ^ (- e)) in
        let r := (of_uint63 (of_Z k) / 1000)%float in
        if s then (- r)%float else r
      else x
  | _ => x
  end.

(** Truth value of a float: [x != 0.0] (NaN is true). *)
Definition truthy (x : float) : bool := negb (x =? 0)%float.

(** [a / b]: Python raises [ZeroDivisionError] on a zero divisor and
    otherwise returns the IEEE quotient. *)
Definition div (a b : float) : result float :=
  if (b =? 0)%float then Raise ZeroDivisionError else Ok (a / b)%float.

End PyFloat.

(** ** Strings *)

Definition lower_ascii (c : ascii) : ascii :=
  let n := nat_of_ascii c in
  if ((65 <=? n) && (n <=? 90))%nat then ascii_of_nat (n + 32) else c.

(** [s.lower()].  Only ASCII letters are folded: no other character
    lower-cases to a letter of the button names the program tests for. *)
Fixpoint lower (s : string) : string :=
  match s with
  | EmptyString => EmptyString
  | String c s' => String (lower_ascii c) (lower s')
  end.

(** [float(s)] for a [str]: Python's [floatvalue] grammar (optional sign,
    [inf], [infinity], [nan], or decimal digits with optional point and
    exponent, underscores between digits, surrounding whitespace stripped,
    case ignored), correctly rounded; [None] is [ValueError]. *)
Module FloatOfStr.

Definition is_space (c : ascii) : bool :=
  let n := nat_of_ascii c in ((n =? 32) || ((9 <=? n) && (n <=? 13)))%nat.

Definition digit_of (c : ascii) : option Z :=
  let n := nat_of_ascii c in
  if ((48 <=? n) && (n <=? 57))%nat then Some (Z.of_nat (n - 48)) else None.

Fixpoint lstrip (l : list ascii) : list ascii :=
  match l with
  | c :: l' => if is_space c then lstrip l' else l
  | [] => []
  end.

Definition strip (l : list ascii) : list ascii :=
  rev (lstrip (rev (lstrip l))).

(** [digitpart ::= digit (["_"] digit)*]: the digits read (value, count)
    and the rest of the input; [None] when no digit starts the input. *)
Fixpoint digits_from (acc : Z) (n : nat) (l : list ascii)
  : Z * nat * list ascii :=
  match l with
  | c :: l' =>
      match digit_of c with
      | Some d => digits_from (10 * acc + d) (S n) l'
      | None =>
          if Ascii.eqb c "_" then
            match l' with
            | c' :: l'' =>
                match digit_of c' with
                | Some d => digits_from (10 * acc + d) (S n) l''
                | None => (acc, n, l)
                end
            | [] => (acc, n, l)
            end
          else (acc, n, l)
      end
  | [] => (acc, n, l)
  end.

Definition digitpart (acc : Z) (l : list ascii)
  : option (Z * nat * list ascii) :=
  match l with
  | c :: _ =>
      match digit_of c with
      | Some _ => Some (digits_from acc 0 l)
      | None => None
      end
  | [] => None
  end.

Definition sign_of (l : list ascii) : bool * list ascii :=
  match l with
  | c :: l' =>
      if Ascii.eqb c "-" then (true, l')
      else if Ascii.eqb c "+" then (false, l')
      else (false, l)
  | [] => (false, l)
  end.

(** [exponent ::= ("e" | "E") [sign] digitpart], or nothing. *)
Definition exponent (l : list ascii) : option Z :=
  match l with
  | [] => Some 0
  | c :: l' =>
      if Ascii.eqb c "e" then
        let '(neg, l'') := sign_of l' in
        match digitpart 0 l'' with
        | Some (v, _, []) => Some (if neg then - v else v)
        | _ => None
        end
      else None
  end.

(** [number ::= [digitpart] "." digitpart | digitpart ["."]]: the digits
    as one integer, the number of digits after the point, the rest. *)
Definition number (l : list ascii) : option (Z * nat * list ascii) :=
  match digitpart 0 l with
  | Some (v, _, rest) =>
      match rest with
      | c :: rest' =>
          if Ascii.eqb c "." then
            match digitpart v rest' with
            | Some r => Some r
            | None => Some (v, 0%nat, rest')
            end
          else Some (v, 0%nat, rest)
      | [] => Some (v, 0%nat, rest)
      end
  | None =>
      match l with
      | c :: rest' => if Ascii.eqb c "." then digitpart 0 rest' else None
      | [] => None
      end
  end.

(** The double nearest to [(-1)^neg * m * 10^e]. *)
Definition decimal (neg : bool) (m e : Z) : float :=
  match m, e with
  | Zpos p, Zneg q =>
      SF2Prim (SFdiv prec emax (S754_finite neg p 0)
                 (S754_finite false (Pos.pow 10 q) 0))
  | Zpos p, _ =>
      SF2Prim (binary_normalize prec emax
                 (if neg then - (m * 10 ^ e) else m * 10 ^ e) 0 false)
  | _, _ => if neg then neg_zero else zero
  end.

Definition parse (s : string) : option float :=
  let l := strip (list_ascii_of_string (lower s)) in
  let '(neg, l) := sign_of l in
  let word := string_of_list_ascii l in
  if String.eqb word "inf" || String.eqb word "infinity" then
    Some (if neg then neg_infinity else infinity)
  else if String.eqb word "nan" then Some nan
  else
    match number l with
    | Some (m, frac, rest) =>
        match exponent rest with
        | Some e => Some (decimal neg m (e - Z.of_nat frac))
        | None => None
        end
    | None => None
    end.

End FloatOfStr.

(** ** Values decoded by [json.load] *)

Inductive json : Type :=
| JNull                                   (* None *)
| JBool (b : bool)
| JInt (z : Z)
| JFloat (x : float)                      (* includes Infinity and NaN *)
| JStr (s : string)                       (* one [ascii] per character *)
| JList (l : list json)
| JDict (items : list (string * json)).   (* each key once, insertion order *)

(** ** Dicts: association lists in insertion order *)

Definition dict (V : Type) : Type := list (string * V).

Fixpoint dict_get {V : Type} (d : dict V) (k : string) : option V :=
  match d with
  | [] => None
  | (k', v) :: d' => if String.eqb k' k then Some v else dict_get d' k
  end.

(** [d.get(k, default)] *)
Definition dict_get_default {V : Type} (d : dict V) (k : string) (default : V) : V :=
  match dict_get d k with
  | Some v => v
  | None => default
  end.

(** [d[k] = v]: an existing key keeps its place, a new key goes last. *)
Fixpoint dict_set {V : Type} (d : dict V) (k : string) (v : V) : dict V :=
  match d with
  | [] => [(k, v)]
  | (k', v') :: d' =>
      if String.eqb k' k then (k', v) :: d' else (k', v') :: dict_set d' k v
  end.

Definition keys {V : Type} (d : dict V) : list string := map fst d.

(** ** Python built-ins on decoded values *)

(** Truth value: [bool(v)]. *)
Definition py_bool (v : json) : bool :=
  match v with
  | JNull => false
  | JBool b => b
  | JInt z => negb (z =? 0)
  | JFloat x => PyFloat.truthy x
  | JStr s => negb (String.eqb s "")
  | JList l => match l with [] => false | _ => true end
  | JDict d => match d with [] => false | _ => true end
  end.

(** The items a [for] loop over [v] visits: the elements of a list, the keys
    of a dict, the characters of a str; other values are not iterable. *)
Definition py_iter (v : json) : result (list json) :=
  match v with
  | JList l => Ok l
  | JDict d => Ok (map JStr (keys d))
  | JStr s => Ok (map (fun c => JStr (String c "")) (list_ascii_of_string s))
  | _ => Raise TypeError
  end.

(** [len(v)] *)
Definition py_len (v : json) : result nat :=
  match v with
  | JList l => Ok (List.length l)
  | JDict d => Ok (List.length d)
  | JStr s => Ok (String.length s)
  | _ => Raise TypeError
  end.

(** [float(v)] *)
Definition py_float (v : json) : result float :=
  match v with
  | JFloat x => Ok x
  | JInt z =>
      match PyFloat.of_int z with
      | Some x => Ok x
      | None => Raise OverflowError
      end
  | JBool b => Ok (if b then 1 else 0)%float
  | JStr s =>
      match FloatOfStr.parse s with
      | Some x => Ok x
      | None => Raise ValueError
      end
  | _ => Raise TypeError
  end.

(** [isinstance(v, (int, float))]; [bool] is a subclass of [int]. *)
Definition is_number (v : json) : bool :=
  match v with
  | JInt _ | JFloat _ | JBool _ => true
  | _ => false
  end.

(** [str(v).lower()] as far as the program looks at it.  For a [str] it is
    the lower-cased string.  For any other decoded value [str(v)] is its
    repr ([None], [True], [12], [1.5], [[...]], [{...}]), which lower-cased
    is none of the names compared against; [None] stands for such a text. *)
Definition str_lower (v : json) : option string :=
  match v with
  | JStr s => Some (lower s)
  | _ => None
  end.

Definition name_in (name : option string) (names : list string) : bool :=
  match name with
  | Some s => existsb (String.eqb s) names
  | None => false
  end.

Definition name_is (name : option string) (s : string) : bool :=
  name_in name [s].

(** ** The Metrics Extractor: [parse_match_data] *)

Definition zero_metrics : dict float :=
  [("boost_usage", 0); ("flip_count", 0); ("shots", 0); ("goals", 0)]%float.

(** One pass of the body of [for event in events] (lines 166-175).  The
    state is the pair of the local variables [flip_count] and
    [boost_frames]; [boost_frames] holds [None] ([JNull]) until it is set. *)
Definition event_step (st : nat * json) (event : json) : nat * json :=
  let '(flip_count, boost_frames) := st in
  match event with
  | JDict ev =>
      let btn := str_lower (dict_get_default ev "button" (JStr "")) in
      let action := str_lower (dict_get_default ev "action" (JStr "")) in
      let flip_count :=
        if name_in btn ["flip"; "double_jump"; "jump_flip"]
           || name_in action ["flip"; "double_jump"]
        then S flip_count else flip_count in
      let boost_frames :=
        match boost_frames with
        | JNull =>
            if name_is btn "boost" || name_is action "boost"
            then JInt (0 + 1)          (* (boost_frames or 0) + 1 *)
            else boost_frames
        | _ => boost_frames
        end in
      (flip_count, boost_frames)
  | _ => st
  end.

(** Lines 164-175: the loop runs when [events] is true, over what
    iterating it yields; [flip_count] starts at 0 and [boost_frames] at the
    value read from the record. *)
Definition scan_events (events boost_frames : json) : result (nat * json) :=
  if py_bool events then
    evs <- py_iter events ;;
    Ok (fold_left event_step evs (0%nat, boost_frames))
  else Ok (0%nat, boost_frames).

(** Lines 177-178: [total_frames] defaults to [max(len(events), 1)]. *)
Definition default_total_frames (events total_frames : json) : result json :=
  match total_frames with
  | JNull => n <- py_len events ;; Ok (JInt (Z.of_nat (Nat.max n 1)))
  | _ => Ok total_frames
  end.

(** Lines 179-180: [boost_frames] defaults to 0. *)
Definition default_boost_frames (boost_frames : json) : json :=
  match boost_frames with
  | JNull => JInt 0
  | _ => boost_frames
  end.

(** Lines 182-183: [x if isinstance(x, (int, float)) else 0]. *)
Definition number_or_zero (v : json) : json :=
  if is_number v then v else JInt 0.

(** Line 185:
    [float(boost_frames) / float(total_frames) if total_frames else 0.0]. *)
Definition boost_usage_ratio (boost_frames total_frames : json) : result float :=
  if py_bool total_frames then
    b <- py_float boost_frames ;;
    t <- py_float total_frames ;;
    PyFloat.div b t
  else Ok 0%float.

(** [parse_match_data(file_path)].  The argument is what [json.load] makes
    of the file: [None] when opening or decoding raised (the [except]
    branch), [Some data] otherwise. *)
Definition parse_match_data (file : option json) : result (dict float) :=
  match file with
  | None => Ok zero_metrics
  | Some (JDict data) =>
      let events := dict_get_default data "events" (JList []) in
      let boost_frames := dict_get_default data "boost_frames" JNull in
      let total_frames := dict_get_default data "total_frames" JNull in
      let shots := dict_get_default data "shots" JNull in
      let goals := dict_get_default data "goals" JNull in
      ' (flip_count, boost_frames) <- scan_events events boost_frames ;;
      total_frames <- default_total_frames events total_frames ;;
      let boost_frames := default_boost_frames boost_frames in
      let shots := number_or_zero shots in
      let goals := number_or_zero goals in
      boost_usage_ratio <- boost_usage_ratio boost_frames total_frames ;;
      let boost_usage := PyFloat.round3 boost_usage_ratio in
      let flip_count := PyFloat.of_len flip_count in
      shots <- py_float shots ;;
      goals <- py_float goals ;;
      Ok [("boost_usage", boost_usage); ("flip_count", flip_count);
          ("shots", shots); ("goals", goals)]
  | Some _ => Raise AttributeError           (* data.get on a non-dict *)
  end.

(** ** The Aggregator: [aggregate_user_metrics], [get_streamer_average] *)

(** [for k in totals: totals[k] += float(metrics.get(k, 0.0))] for one row
    whose text decoded to [metrics]. *)
Definition add_metrics (totals : dict float) (metrics : json)
  : result (dict float) :=
  fold_left
    (fun acc k =>
       totals <- acc ;;
       x <- match metrics with
            | JDict m => py_float (dict_get_default m k (JFloat 0))
            | _ => Raise AttributeError
            end ;;
       match dict_get totals k with
       | Some t => Ok (dict_set totals k (t + x)%float)
       | None => Raise KeyError
       end)
    (keys totals) (Ok totals).

(** The loop over the fetched rows.  A row is what [json.loads] makes of the
    stored text: [None] when it raised (the row is skipped by [continue]). *)
Definition add_rows (rows : list (option json)) (totals : dict float)
  : result (dict float) :=
  fold_left
    (fun acc row =>
       totals <- acc ;;
       match row with
       | None => Ok totals
       | Some metrics => add_metrics totals metrics
       end)
    rows (Ok totals).

(** The body shared by [aggregate_user_metrics] and [get_streamer_average],
    after the rows have been fetched; [count = len(rows)] is at least one
    where the quotient is taken. *)
Definition average_rows (rows : list (option json)) : result (dict float) :=
  match rows with
  | [] => Ok zero_metrics
  | _ =>
      totals <- add_rows rows zero_metrics ;;
      let count := List.length rows in
      Ok (map (fun kv =>
                 (fst kv, PyFloat.round3 (snd kv / PyFloat.of_len count)))
              totals)
  end.

(** [rows] are the [metrics] columns selected for the user. *)
Definition aggregate_user_metrics (rows : list (option json))
  : result (dict float) := average_rows rows.

(** [rows] are the [metrics] columns selected for the rank. *)
Definition get_streamer_average (rows : list (option json))
  : result (dict float) := average_rows rows.

(** ** The Comparator: [compute_strengths_and_weaknesses] *)

Record comparison : Type := {
  strengths : dict float;
  weaknesses : dict float;
  biggest_key : option string;
  biggest_delta : float
}.

(** One pass of [for key in user_metrics] (lines 252-263); [user_val] is
    [user_metrics[key]]. *)
Definition compare_step (streamer_avg : dict float) (st : comparison)
  (item : string * float) : comparison :=
  let '(key, user_val) := item in
  let avg_val := dict_get_default streamer_avg key 0%float in
  let delta := (user_val - avg_val)%float in
  let '(strengths', weaknesses') :=
    if (0 <? delta)%float then
      (dict_set (strengths st) key (PyFloat.round3 delta), weaknesses st)
    else if (delta <? 0)%float then
      (strengths st, dict_set (weaknesses st) key (PyFloat.round3 (- delta)))
    else (strengths st, weaknesses st) in
  if (biggest_delta st <? abs delta)%float
  then {| strengths := strengths'; weaknesses := weaknesses';
          biggest_key := Some key; biggest_delta := abs delta |}
  else {| strengths := strengths'; weaknesses := weaknesses';
          biggest_key := biggest_key st; biggest_delta := biggest_delta st |}.

Definition compare_loop (user_metrics streamer_avg : dict float) : comparison :=
  fold_left (compare_step streamer_avg) user_metrics
    {| strengths := []; weaknesses := [];
       biggest_key := None; biggest_delta := 0%float |}.

Definition compute_strengths_and_weaknesses
  (user_metrics streamer_avg : dict float)
  : dict float * dict float * option string :=
  let r := compare_loop user_metrics streamer_avg in
  (strengths r, weaknesses r, biggest_key r).

(** ** The Tip Generator: [generate_tips] *)

Definition short_boost_usage : string :=
  "Work on managing your boost more efficiently. Try to use small pads to stay stocked.".
Definition short_flip_count : string :=
  "Practice aerial control and flipping mechanics in free play to increase your flip count.".
Definition short_shots : string :=
  "Focus on taking more shots during matches. Position yourself to create shooting opportunities.".
Definition short_goals : string :=
  "Work on finishing plays and accuracy to convert shots into goals.".
Definition long_boost_usage : string :=
  "Continue to refine your boost management. Use efficient routes to maintain high boost levels.".
Definition long_flip_count : string :=
  "Keep practicing advanced movement like wave dashes and flip resets to stay ahead.".
Definition long_shots : string :=
  "Maintain your shooting pace; practice different angles and power shots.".
Definition long_goals : string :=
  "Keep improving goal conversion by working on placement and deception.".

(** The body of [for k in weaknesses] (lines 276-284). *)
Definition short_step (short_term : list string) (k : string) : list string :=
  if String.eqb k "boost_usage" then short_term ++ [short_boost_usage]
  else if String.eqb k "flip_count" then short_term ++ [short_flip_count]
  else if String.eqb k "shots" then short_term ++ [short_shots]
  else if String.eqb k "goals" then short_term ++ [short_goals]
  else short_term.

(** The body of [for k in strengths] (lines 285-293). *)
Definition long_step (long_term : list string) (k : string) : list string :=
  if String.eqb k "boost_usage" then long_term ++ [long_boost_usage]
  else if String.eqb k "flip_count" then long_term ++ [long_flip_count]
  else if String.eqb k "shots" then long_term ++ [long_shots]
  else if String.eqb k "goals" then long_term ++ [long_goals]
  else long_term.

Definition generate_tips (strengths weaknesses : dict float)
  : list string * list string :=
  let short_term := fold_left short_step (keys weaknesses) [] in
  let long_term := fold_left long_step (keys strengths) [] in
  (short_term, long_term).

(** ** Vocabulary of the specification *)

Definition canonical_keys : list string :=
  ["boost_usage"; "flip_count"; "shots"; "goals"].

(** A MetricsTuple: one float per canonical key. *)
Record metrics : Type := {
  boost_usage : float;
  flip_count : float;
  shots : float;
  goals : float
}.

(** The dict the program builds for a tuple, keys in canonical order. *)
Definition metrics_dict (t : metrics) : dict float :=
  [("boost_usage", boost_usage t); ("flip_count", flip_count t);
   ("shots", shots t); ("goals", goals t)].

(** What [json.loads] makes of a tuple stored by [json.dumps]. *)
Definition metrics_json (t : metrics) : json :=
  JDict (map (fun kv => (fst kv, JFloat (snd kv))) (metrics_dict t)).

(** The sum as the program accumulates it: from [0.0], left to right. *)
Definition fsum (xs : list float) : float := fold_left PrimFloat.add xs 0%float.

(** The rows of a user whose stored texts all decode, to the tuples [ts]. *)
Definition stored (ts : list metrics) : list (option json) :=
  map (fun t => Some (metrics_json t)) ts.

(** The rows of a user some of whose stored texts do not decode ([None]). *)
Definition stored_rows (rows : list (option metrics)) : list (option json) :=
  map (option_map metrics_json) rows.

(** The tuples of the rows that decode. *)
Fixpoint decoded (rows : list (option metrics)) : list metrics :=
  match rows with
  | [] => []
  | Some t :: rows' => t :: decoded rows'
  | None :: rows' => decoded rows'
  end.

(** Per-key sum of [ts] divided by [count], rounded to three decimals. *)
Definition averaged (ts : list metrics) (count : nat) : metrics :=
  let avg (field : metrics -> float) :=
    PyFloat.round3 (fsum (map field ts) / PyFloat.of_len count) in
  {| boost_usage := avg boost_usage; flip_count := avg flip_count;
     shots := avg shots; goals := avg goals |}.

(** Second definition, from the specification's words (section 4.2): the
    per-key arithmetic mean of the tuples, each value rounded to three
    decimals; the all-zero tuple for the empty collection. *)
Definition aggregate_spec (ts : list metrics) : metrics :=
  match ts with
  | [] => {| boost_usage := 0; flip_count := 0; shots := 0; goals := 0 |}
  | _ => averaged ts (List.length ts)
  end.

(** Second definition, from the specification's words (section 4.4): the
    one fixed advice string of each canonical key per list; no tip for any
    other key. *)
Definition short_tips : dict string :=
  [("boost_usage", short_boost_usage); ("flip_count", short_flip_count);
   ("shots", short_shots); ("goals", short_goals)].

Definition long_tips : dict string :=
  [("boost_usage", long_boost_usage); ("flip_count", long_flip_count);
   ("shots", long_shots); ("goals", long_goals)].

Definition short_tip (k : string) : option string := dict_get short_tips k.

Definition long_tip (k : string) : option string := dict_get long_tips k.

(** The tips of a sequence of keys, in the order of the keys. *)
Definition tips_of (tip : string -> option string) (ks : list string)
  : list string :=
  flat_map (fun k => match tip k with Some t => [t] | None => [] end) ks.

(** The example record of the specification (section 8):
    events [{"button":"flip"}, {"button":"boost"}, {"button":"boost"}]. *)
Definition spec_example_record : json :=
  JDict [("events", JList [JDict [("button", JStr "flip")];
                           JDict [("button", JStr "boost")];
                           JDict [("button", JStr "boost")]])].

(** The delta of one item of [user_metrics] (line 255):
    [user_metrics[key] - streamer_avg.get(key, 0.0)]. *)
Definition delta_of (avg : dict float) (item : string * float) : float :=
  (snd item - dict_get_default avg (fst item) 0)%float.

(** [abs(delta)] of an item (line 261). *)
Definition mag (avg : dict float) (item : string * float) : float :=
  abs (delta_of avg item).

(** What the loop stores under an item's key: in [strengths] when the delta
    is above zero, in [weaknesses] when it is below, else nothing. *)
Definition strength_of (avg : dict float) (item : string * float) : option float :=
  let delta := delta_of avg item in
  if (0 <? delta)%float then Some (PyFloat.round3 delta) else None.

Definition weakness_of (avg : dict float) (item : string * float) : option float :=
  let delta := delta_of avg item in
  if (0 <? delta)%float then None
  else if (delta <? 0)%float then Some (PyFloat.round3 (- delta)) else None.

(** [d[key] = x] when [c item] is [Some x], no change otherwise. *)
Definition set_if (c : string * float -> option float)
  (d : dict float) (item : string * float) : dict float :=
  match c item with
  | Some x => dict_set d (fst item) x
  | None => d
  end.

(** Equal as numbers: the same float, or two zeros (Python's [==] on floats
    that are not NaN). *)
Definition same_number (x y : float) : Prop :=
  x = y \/ ((x =? 0)%float = true /\ (y =? 0)%float = true).

(** The value the record supplies under [k]: [data.get(k)], [JNull] when
    the key is absent or the input is not a mapping. *)
Definition override (file : option json) (k : string) : json :=
  match file with
  | Some (JDict data) => dict_get_default data k JNull
  | _ => JNull
  end.

(** [len(events)] of the record (0 when there is none). *)
Definition event_count (file : option json) : nat :=
  match file with
  | Some (JDict data) =>
      match py_len (dict_get_default data "events" (JList [])) with
      | Ok n => n
      | Raise _ => 0
      end
  | _ => 0%nat
  end.

(** The values of [boost_frames] and [total_frames] with which line 185
    computes the ratio: the record's own, or the defaults derived from the
    events. *)
Definition effective_frames (file : option json) : option (json * json) :=
  match file with
  | Some (JDict data) =>
      let events := dict_get_default data "events" (JList []) in
      match scan_events events (dict_get_default data "boost_frames" JNull),
            default_total_frames events (dict_get_default data "total_frames" JNull)
      with
      | Ok (_, boost_frames), Ok total_frames =>
          Some (default_boost_frames boost_frames, total_frames)
      | _, _ => None
      end
  | _ => None
  end.

(** In the closed interval from 0 to 1. *)
Definition in_unit_interval (x : float) : Prop :=
  (0 <=? x)%float = true /\ (x <=? 1)%float = true.

(** A supplied [shots] or [goals] that cannot make the result negative:
    anything but a number below zero or NaN (what is not a number is
    replaced by 0). *)
Definition nonneg_number (v : json) : bool :=
  match v with
  | JInt z => 0 <=? z
  | JFloat x => (0 <=? x)%float
  | _ => true
  end.

(** A [boost_frames] or [total_frames] that is absent, or a finite number
    that is not below zero. *)
Definition nonneg_frames (v : json) : bool :=
  match v with
  | JNull | JBool _ => true
  | JInt z => (0 <=? z) && (z <? 2 ^ 63)
  | JFloat x => (0 <=? x)%float && is_finite x
  | _ => false
  end.

(** A record with explicit frame counts in order:
    [{"boost_frames": 3, "total_frames": 4}]. *)
Definition ordered_frames_record : json :=
  JDict [("boost_frames", JInt 3); ("total_frames", JInt 4)].

(** A record with overrides that are not below zero:
    [{"events": [{"action": "FLIP"}], "shots": 2, "goals": 1.5,
      "boost_frames": 30, "total_frames": 120.0}]. *)
Definition nonneg_overrides_record : json :=
  JDict [("events", JList [JDict [("action", JStr "FLIP")]]);
         ("shots", JInt 2); ("goals", JFloat 1.5);
         ("boost_frames", JInt 30); ("total_frames", JFloat 120)].

(** The example pair of the specification (section 8). *)
Definition example_subject : dict float :=
  [("boost_usage", 0.5); ("flip_count", 10); ("shots", 3); ("goals", 1)]%float.

Definition example_baseline : dict float :=
  [("boost_usage", 0.4); ("flip_count", 10); ("shots", 5); ("goals", 1)]%float.

(** * The rest of [app.py] and [scraper.py]

    Further vocabulary for the four transforms, and embeddings of the code
    around them: the SQLite tables and the statements run on them, the
    coach and profile pages, the upload handler, the static file handler
    and the streamer table update of [scraper.py]. *)

From Stdlib Require Import Permutation.
From Stdlib Require DecimalString.

(** ** Vocabulary for the events of a record *)

(** The test of line 170 on one event: a mapping whose lower-cased button
    is [flip], [double_jump] or [jump_flip], or whose lower-cased action is
    [flip] or [double_jump]. *)
Definition is_flip_event (event : json) : bool :=
  match event with
  | JDict ev =>
      name_in (str_lower (dict_get_default ev "button" (JStr "")))
        ["flip"; "double_jump"; "jump_flip"]
      || name_in (str_lower (dict_get_default ev "action" (JStr "")))
           ["flip"; "double_jump"]
  | _ => false
  end.

(** The test of line 174 on one event: a mapping whose lower-cased button
    or action is [boost]. *)
Definition is_boost_event (event : json) : bool :=
  match event with
  | JDict ev =>
      name_is (str_lower (dict_get_default ev "button" (JStr ""))) "boost"
      || name_is (str_lower (dict_get_default ev "action" (JStr ""))) "boost"
  | _ => false
  end.

(** The events the loop of lines 165-175 visits: none when [events] is
    false, else what iterating it yields. *)
Definition visited_events (events : json) : list json :=
  if py_bool events then
    match py_iter events with
    | Ok evs => evs
    | Raise _ => []
    end
  else [].

(** A value [len] accepts: a list, a mapping or a string. *)
Definition is_sized (v : json) : bool :=
  match v with
  | JList _ | JDict _ | JStr _ => true
  | _ => false
  end.

(** A value [float] converts without raising, as far as this is decided by
    its type: nothing, a bool, a float, or an int that fits a machine
    word. *)
Definition is_frames_value (v : json) : bool :=
  match v with
  | JNull | JBool _ | JFloat _ => true
  | JInt z => Z.abs z <? 2 ^ 63
  | _ => false
  end.

(** Any value but an int that does not fit a machine word. *)
Definition is_count_value (v : json) : bool :=
  match v with
  | JInt z => Z.abs z <? 2 ^ 63
  | _ => true
  end.

(** A record with the field types the docstring of [parse_match_data]
    names: [events] absent or sized, [boost_frames] and [total_frames]
    absent or numbers, [shots] and [goals] anything (ints within a word). *)
Definition well_typed_record (data : dict json) : bool :=
  is_sized (dict_get_default data "events" (JList []))
  && is_frames_value (dict_get_default data "boost_frames" JNull)
  && is_frames_value (dict_get_default data "total_frames" JNull)
  && is_count_value (dict_get_default data "shots" JNull)
  && is_count_value (dict_get_default data "goals" JNull).

(** [{"events": [{"button": "Flip"}, 7, {"action": "BOOST"}],
      "boost_frames": "abc", "total_frames": 0}]: a zero [total_frames]
    beside a [boost_frames] that [float] would reject. *)
Definition zero_total_record : json :=
  JDict [("events", JList [JDict [("button", JStr "Flip")]; JInt 7;
                           JDict [("action", JStr "BOOST")]]);
         ("boost_frames", JStr "abc"); ("total_frames", JInt 0)].

(** [{"events": [{"action": "boost"}, {"button": "jump_flip"},
                 {"button": "boost", "action": "flip"}, "x"],
      "shots": "3", "goals": true}] *)
Definition mixed_events_record : dict json :=
  [("events", JList [JDict [("action", JStr "boost")];
                     JDict [("button", JStr "jump_flip")];
                     JDict [("button", JStr "boost"); ("action", JStr "flip")];
                     JStr "x"]);
   ("shots", JStr "3"); ("goals", JBool true)].

(** ** Vocabulary for stored rows *)

(** What one decoded row adds to the four totals (line 213):
    [float(metrics.get(k, 0.0))] for each key in turn; [metrics.get] raises
    on a value that is not a mapping. *)
Definition row_metrics (row : json) : result metrics :=
  match row with
  | JDict d =>
      bu <- py_float (dict_get_default d "boost_usage" (JFloat 0)) ;;
      fc <- py_float (dict_get_default d "flip_count" (JFloat 0)) ;;
      sh <- py_float (dict_get_default d "shots" (JFloat 0)) ;;
      go <- py_float (dict_get_default d "goals" (JFloat 0)) ;;
      Ok {| boost_usage := bu; flip_count := fc; shots := sh; goals := go |}
  | _ => Raise AttributeError
  end.

(** The additions of all rows in turn; a row whose text does not decode
    adds nothing. *)
Fixpoint rows_metrics (rows : list (option json)) : result (list metrics) :=
  match rows with
  | [] => Ok []
  | None :: rows' => rows_metrics rows'
  | Some row :: rows' =>
      t <- row_metrics row ;;
      ts <- rows_metrics rows' ;;
      Ok (t :: ts)
  end.

Definition is_mapping (v : json) : bool :=
  match v with
  | JDict _ => true
  | _ => false
  end.

(** No field below zero (and none NaN). *)
Definition nonneg_metrics (t : metrics) : Prop :=
  (0 <=? boost_usage t)%float = true /\ (0 <=? flip_count t)%float = true
  /\ (0 <=? shots t)%float = true /\ (0 <=? goals t)%float = true.

(** Rows as stored texts can be: a tuple written by the program, a mapping
    with a key missing and an int, and a text that does not decode. *)
Definition sample_rows : list (option json) :=
  [Some (metrics_json {| boost_usage := 0.5; flip_count := 3;
                         shots := 2; goals := 1 |});
   Some (JDict [("shots", JInt 4); ("goals", JFloat 0.5)]);
   None].

(** ** Vocabulary for comparisons *)

(** The items [(key, c item)] of the subject for which [c] gives a value,
    in the subject's order. *)
Definition entries (c : string * float -> option float) (user : dict float)
  : dict float :=
  flat_map (fun item => match c item with
                        | Some x => [(fst item, x)]
                        | None => []
                        end) user.

(** ** The SQLite database

    A table is the list of its rows in rowid order.  A table that does not
    exist yet is the empty list: [init_db], which [run_server] calls first,
    creates it empty.  Nothing in the program deletes a row or chooses an
    id, so AUTOINCREMENT gives a new row the largest id of its table plus
    one.  A [metrics] column, which holds a JSON text, is modelled by what
    [json.loads] makes of that text: [None] when it raises. *)

Record user_row : Type := {
  user_id : Z;
  username : string;
  user_rank : string;
  followers : Z;
  friends : Z
}.

Record match_row : Type := {
  match_id : Z;
  match_user_id : Z;
  match_file_path : string;
  match_metrics : option json
}.

Record streamer_row : Type := {
  streamer_id : Z;
  streamer_name : string;
  streamer_rank : string;
  streamer_metrics : option json
}.

Record database : Type := {
  users : list user_row;
  matches : list match_row;
  streamers : list streamer_row
}.

(** A database file that has just been created. *)
Definition empty_db : database :=
  {| users := []; matches := []; streamers := [] |}.

(** The text [json.dumps(v)], as [json.loads] reads it back: [v] itself.
    ([json.dumps] writes a float with [repr], which [float] reads back
    exactly, and NaN and the infinities as [NaN] and [Infinity], which
    [json.loads] accepts.) *)
Definition json_dumps (v : json) : option json := Some v.

(** A Python dict of floats as a JSON value. *)
Definition float_dict (m : dict float) : json :=
  JDict (map (fun kv => (fst kv, JFloat (snd kv))) m).

Definition next_id (ids : list Z) : Z := fold_left Z.max ids 0 + 1.

(** [INSERT INTO users (username, rank, followers, friends) VALUES ...] *)
Definition insert_user (tbl : list user_row)
  (name rank : string) (followers friends : Z) : list user_row :=
  tbl ++ [{| user_id := next_id (map user_id tbl); username := name;
             user_rank := rank; followers := followers; friends := friends |}].

(** [INSERT INTO matches (user_id, file_path, metrics) VALUES ...] *)
Definition insert_match (tbl : list match_row)
  (user : Z) (path : string) (metrics : option json) : list match_row :=
  tbl ++ [{| match_id := next_id (map match_id tbl); match_user_id := user;
             match_file_path := path; match_metrics := metrics |}].

(** [INSERT INTO streamers (name, rank, metrics) VALUES ...] *)
Definition insert_streamer (tbl : list streamer_row)
  (name rank : string) (metrics : option json) : list streamer_row :=
  tbl ++ [{| streamer_id := next_id (map streamer_id tbl);
             streamer_name := name; streamer_rank := rank;
             streamer_metrics := metrics |}].

(** Lines 107-113. *)
Definition dummy_streamers : list (string * string * json) :=
  [("StreamerAlpha", "Bronze",
    JDict [("boost_usage", JFloat 0.30); ("flip_count", JInt 5);
           ("shots", JInt 1); ("goals", JInt 0)]);
   ("StreamerBeta", "Silver",
    JDict [("boost_usage", JFloat 0.35); ("flip_count", JInt 7);
           ("shots", JInt 2); ("goals", JFloat 0.2)]);
   ("StreamerGamma", "Gold",
    JDict [("boost_usage", JFloat 0.40); ("flip_count", JInt 9);
           ("shots", JInt 3); ("goals", JFloat 0.4)]);
   ("StreamerDelta", "Platinum",
    JDict [("boost_usage", JFloat 0.45); ("flip_count", JInt 11);
           ("shots", JFloat 3.5); ("goals", JFloat 0.6)]);
   ("StreamerEpsilon", "Diamond",
    JDict [("boost_usage", JFloat 0.50); ("flip_count", JInt 13);
           ("shots", JInt 4); ("goals", JFloat 0.8)])].

(** [init_db]: the tables are created if they do not exist; a default user
    is inserted if [users] has no row, and the dummy streamers are inserted
    if [streamers] has none. *)
Definition init_db (db : database) : database :=
  let users' :=
    match users db with
    | [] => insert_user (users db) "Player1" "Gold" 0 0
    | _ => users db
    end in
  let streamers' :=
    match streamers db with
    | [] =>
        fold_left
          (fun tbl entry =>
             let '(name, rank, metrics) := entry in
             insert_streamer tbl name rank (json_dumps metrics))
          dummy_streamers (streamers db)
    | _ => streamers db
    end in
  {| users := users'; matches := matches db; streamers := streamers' |}.

(** [get_default_user_id]: [SELECT id FROM users ORDER BY id LIMIT 1], and
    [row[0] if row else 1]. *)
Definition get_default_user_id (db : database) : Z :=
  match map user_id (users db) with
  | [] => 1
  | id :: ids => fold_left Z.min ids id
  end.

(** [SELECT rank FROM users WHERE id = ?], [fetchone]. *)
Definition select_user_rank (db : database) (id : Z) : option string :=
  option_map user_rank (find (fun u => user_id u =? id) (users db)).

(** [SELECT metrics FROM matches WHERE user_id = ?], [fetchall]. *)
Definition select_match_metrics (db : database) (user : Z)
  : list (option json) :=
  map match_metrics (filter (fun r => match_user_id r =? user) (matches db)).

(** [SELECT metrics FROM streamers WHERE rank = ?], [fetchall]. *)
Definition select_streamer_metrics (db : database) (rank : string)
  : list (option json) :=
  map streamer_metrics
    (filter (fun r => String.eqb (streamer_rank r) rank) (streamers db)).

(** ** The upload handler, from the saved file on (lines 485-495)

    [file] is what [json.load] makes of the file saved at [save_path]. *)
Definition store_upload (db : database) (save_path : string)
  (file : option json) : result database :=
  metrics <- parse_match_data file ;;
  let user := get_default_user_id db in
  Ok {| users := users db;
        matches := insert_match (matches db) user save_path
                     (json_dumps (float_dict metrics));
        streamers := streamers db |}.

(** ** The coach page: [render_coach] up to the template

    The context of the template, but for the two lists that are written
    with the [repr] of floats: of these the mappings themselves are kept. *)
Record coach_context : Type := {
  coach_title : string;
  coach_rank : string;
  coach_biggest_diff : string;
  coach_strengths : dict float;
  coach_weaknesses : dict float;
  coach_short_tips : string;
  coach_long_tips : string
}.

(** [sep.join(l)] *)
Definition join (sep : string) (l : list string) : string := String.concat sep l.

(** [s or default] for a str [s]. *)
Definition str_or (s default : string) : string :=
  if String.eqb s "" then default else s.

(** Lines 414-416: the rank of the default user, [Unranked] when there is
    no such user. *)
Definition default_user_rank (db : database) : string :=
  match select_user_rank db (get_default_user_id db) with
  | Some rank => rank
  | None => "Unranked"
  end.

Definition render_coach (db : database) : result coach_context :=
  let user := get_default_user_id db in
  let user_rank := default_user_rank db in
  user_metrics <- aggregate_user_metrics (select_match_metrics db user) ;;
  streamer_avg <- get_streamer_average (select_streamer_metrics db user_rank) ;;
  let '(strengths, weaknesses, biggest) :=
    compute_strengths_and_weaknesses user_metrics streamer_avg in
  let '(short_term, long_term) := generate_tips strengths weaknesses in
  Ok {| coach_title := "Personal Coach";
        coach_rank := user_rank;
        coach_biggest_diff :=
          match biggest with
          | Some key => str_or key "N/A"
          | None => "N/A"
          end;
        coach_strengths := strengths;
        coach_weaknesses := weaknesses;
        coach_short_tips :=
          str_or (join "<br/>" short_term) "No immediate suggestions.";
        coach_long_tips :=
          str_or (join "<br/>" long_term) "No long term suggestions." |}.

(** ** [scraper.py]: the streamer table update *)

Definition ranks : list string :=
  ["Bronze"; "Silver"; "Gold"; "Platinum"; "Diamond"; "Champ"; "GrandChamp"].

Definition streamer_names : list string :=
  ["YouTubePro"; "TwitchMaster"; "RL_Speedster"; "FlipWizard"; "GoalGuru";
   "BoostBandit"; "ShotSniper"; "AerialAce"].

(** The random draws made for one streamer: the position [random.choice]
    picks in [ranks] (below 7), the [random.uniform] values added to
    [boost_usage], [shots] and [goals], and the [random.randint(-1, 1)]
    added to [flip_count]. *)
Record draws : Type := {
  rank_choice : nat;
  boost_noise : float;
  flip_noise : Z;
  shots_noise : float;
  goals_noise : float
}.

(** One pass of the loop of lines 46-58.  The int [4 + idx * 2 + noise] is
    between 5 and 19, so [float] converts it as a machine word. *)
Definition scrape_one (name : string) (d : draws) : string * string * metrics :=
  let rank := nth (rank_choice d) ranks "" in
  let idx := Z.of_nat (rank_choice d) + 1 in     (* ranks.index(rank) + 1 *)
  let fidx := of_uint63 (of_Z idx) in
  (name, rank,
   {| boost_usage := PyFloat.round3 (0.25 + fidx * 0.05 + boost_noise d);
      flip_count := of_uint63 (of_Z (4 + idx * 2 + flip_noise d));
      shots := (1 + fidx * 0.8 + shots_noise d);
      goals := PyFloat.round3 (0.1 + fidx * 0.15 + goals_noise d) |}%float).

(** [scrape_streamer_metrics], given the draws of its eight passes. *)
Definition scrape_streamer_metrics (ds : list draws)
  : list (string * string * metrics) :=
  map (fun nd => scrape_one (fst nd) (snd nd)) (combine streamer_names ds).

(** Draws that [random] can make. *)
Definition possible_draws (d : draws) : Prop :=
  (rank_choice d < 7)%nat /\ -1 <= flip_noise d <= 1.

(** One pass of the loop of [update_streamer_table] (lines 71-86): the
    first row with the name is updated through its id, or a row is
    inserted. *)
Definition update_streamer (tbl : list streamer_row)
  (entry : string * string * metrics) : list streamer_row :=
  let '(name, rank, metrics) := entry in
  match find (fun r => String.eqb (streamer_name r) name) tbl with
  | Some row =>
      map (fun r =>
             if streamer_id r =? streamer_id row
             then {| streamer_id := streamer_id r;
                     streamer_name := streamer_name r;
                     streamer_rank := rank;
                     streamer_metrics := json_dumps (metrics_json metrics) |}
             else r)
          tbl
  | None => insert_streamer tbl name rank (json_dumps (metrics_json metrics))
  end.

(** [update_streamer_table(conn)], given what [scrape_streamer_metrics]
    returned. *)
Definition update_streamer_table (data : list (string * string * metrics))
  (db : database) : database :=
  {| users := users db; matches := matches db;
     streamers := fold_left update_streamer data (streamers db) |}.

(** A number as the program writes it into a [metrics] text: a float, or an
    int that fits a machine word. *)
Definition is_stored_number (v : json) : bool :=
  match v with
  | JFloat _ => true
  | JInt z => Z.abs z <? 2 ^ 63
  | _ => false
  end.

(** A [metrics] column that decodes to a mapping of such numbers. *)
Definition is_stored_metrics (text : option json) : bool :=
  match text with
  | Some (JDict d) => forallb (fun kv => is_stored_number (snd kv)) d
  | _ => false
  end.

(** The databases the program can bring about: from a new file by
    [init_db], uploads that are stored, and streamer table updates. *)
Inductive reachable : database -> Prop :=
| reachable_new : reachable (init_db empty_db)
| reachable_init db : reachable db -> reachable (init_db db)
| reachable_upload db save_path file db' :
    reachable db -> store_upload db save_path file = Ok db' -> reachable db'
| reachable_update db data :
    reachable db -> reachable (update_streamer_table data db).

(** [SELECT id FROM streamers WHERE name = ?], [fetchone]: the first row
    with the name. *)
Definition find_streamer (name : string) (tbl : list streamer_row)
  : option streamer_row :=
  find (fun r => String.eqb (streamer_name r) name) tbl.

(** Scraped entries for a table: one name that is there and one that is
    not. *)
Definition sample_scrape : list (string * string * metrics) :=
  [("StreamerGamma", "Champ",
    {| boost_usage := 0.5; flip_count := 12; shots := 4; goals := 1 |});
   ("FlipWizard", "Gold",
    {| boost_usage := 0.25; flip_count := 20; shots := 2; goals := 0.5 |})]%float.

(** A database with the default user, one stored upload (the example
    record of the specification) and no streamer at all. *)
Definition no_streamers_db : database :=
  {| users := users (init_db empty_db);
     matches := insert_match [] 1 "uploads/match.json"
                  (json_dumps (float_dict
                     [("boost_usage", 0.333); ("flip_count", 1);
                      ("shots", 0); ("goals", 0)]%float));
     streamers := [] |}.

(** ** Paths: [posixpath] *)

Module PosixPath.

(** [s.startswith(prefix)] *)
Fixpoint startswith (s prefix : string) {struct prefix} : bool :=
  match prefix, s with
  | EmptyString, _ => true
  | String c prefix', String d s' => (Ascii.eqb d c && startswith s' prefix')%bool
  | String _ _, EmptyString => false
  end.

(** [s.endswith(suffix)]: some tail of [s] is [suffix]. *)
Fixpoint endswith (s suffix : string) : bool :=
  (String.eqb s suffix
   || match s with
      | String _ s' => endswith s' suffix
      | EmptyString => false
      end)%bool.

(** [s[n:]] *)
Definition drop (n : nat) (s : string) : string :=
  String.substring n (String.length s - n) s.

(** [s.split("/")]: the pieces between the slashes, at least one. *)
Fixpoint split (s : string) : list string :=
  match s with
  | EmptyString => [EmptyString]
  | String c s' =>
      if Ascii.eqb c "/" then EmptyString :: split s'
      else match split s' with
           | piece :: pieces => String c piece :: pieces
           | [] => [String c EmptyString]
           end
  end.

(** [os.path.basename(p)]: what follows the last slash. *)
Definition basename (p : string) : string := last (split p) "".

(** [os.path.join(a, b)] *)
Definition join (a b : string) : string :=
  if startswith b "/" then b
  else if (String.eqb a "" || endswith a "/")%bool then a ++ b
  else a ++ "/" ++ b.

Definition is_nil {A : Type} (l : list A) : bool :=
  match l with
  | [] => true
  | _ => false
  end.

(** One pass of the loop of [normpath] over the components. *)
Definition norm_step (initial_slashes : nat) (new_comps : list string)
  (comp : string) : list string :=
  if (String.eqb comp "" || String.eqb comp ".")%bool then new_comps
  else if (negb (String.eqb comp "..")
           || ((initial_slashes =? 0)%nat && is_nil new_comps)
           || (negb (is_nil new_comps)
               && String.eqb (last new_comps "") ".."))%bool
       then new_comps ++ [comp]
       else removelast new_comps.     (* pop, when there is something *)

Fixpoint slashes (n : nat) : string :=
  match n with
  | O => ""
  | S n' => String "/" (slashes n')
  end.

(** [os.path.normpath(path)] *)
Definition normpath (path : string) : string :=
  if String.eqb path "" then "."
  else
    let initial_slashes :=
      if startswith path "/" then
        if (startswith path "//" && negb (startswith path "///"))%bool
        then 2%nat else 1%nat
      else 0%nat in
    let new_comps := fold_left (norm_step initial_slashes) (split path) [] in
    let path := slashes initial_slashes ++ String.concat "/" new_comps in
    if String.eqb path "" then "." else path.

(** [os.path.abspath(path)], with the working directory [cwd]. *)
Definition abspath (cwd path : string) : string :=
  normpath (if startswith path "/" then path else join cwd path).

End PosixPath.

(** ** The static file handler: [serve_static] *)

(** What the handler sends: the status of [send_response], the headers of
    its own [send_header] calls, and the body it writes. *)
Record response : Type := {
  status : Z;
  headers : list (string * string);
  body : string
}.

(** What a path names: a file that can be read, with its content, or
    something that exists but cannot be read as a file (a directory, a file
    without permission). *)
Inductive node : Type :=
| File (content : string)
| Unreadable.

(** The handler sends a response, or [open] or [read] raises. *)
Inductive served : Type :=
| Sent (r : response)
| ReadFailed.

(** [str(n)] for a length [n]. *)
Definition str_of_nat (n : nat) : string :=
  DecimalString.NilEmpty.string_of_uint (Nat.to_uint n).

(** Lines 515-533: what is sent for a path that passed the directory
    check.  [fs] tells what each path names ([None]: nothing exists
    there). *)
Definition send_file (fs : string -> option node) (file_path : string)
  : served :=
  match fs file_path with
  | None => Sent {| status := 404; headers := []; body := "Not Found" |}
  | Some what =>
      let mime :=
        if PosixPath.endswith file_path ".css" then "text/css"
        else if PosixPath.endswith file_path ".js" then "application/javascript"
        else "application/octet-stream" in
      match what with
      | File content =>
          Sent {| status := 200;
                  headers := [("Content-Type", mime);
                              ("Content-Length",
                               str_of_nat (String.length content))];
                  body := content |}
      | Unreadable => ReadFailed
      end
  end.

(** [serve_static(route)].  [base_dir] is [BASE_DIR] and [cwd] the working
    directory. *)
Definition serve_static (base_dir cwd : string) (fs : string -> option node)
  (route : string) : served :=
  let rel_path := PosixPath.drop 8 route in           (* len('/static/') *)
  let static_dir := PosixPath.join base_dir "static" in
  let file_path := PosixPath.join static_dir rel_path in
  if negb (PosixPath.startswith (PosixPath.abspath cwd file_path)
             (PosixPath.abspath cwd static_dir))
  then Sent {| status := 403; headers := []; body := "Forbidden" |}
  else send_file fs file_path.

(** ** The upload handler: where the file is saved (lines 480-481) *)

(** [filename] is [file_field.filename]: [None] or a str. *)
Definition upload_save_path (base_dir : string) (filename : option string)
  : string :=
  let upload_dir := PosixPath.join base_dir "uploads" in
  let name :=
    match filename with
    | Some f => if String.eqb f "" then "match.json" else f
    | None => "match.json"
    end in
  PosixPath.join upload_dir (PosixPath.basename name).

(** No slash in a text. *)
Definition no_slash (s : string) : bool :=
  forallb (fun c => negb (Ascii.eqb c "/")) (list_ascii_of_string s).

(** A path component that names an entry: not empty, not [.] or [..], and
    without a slash. *)
Definition is_entry_name (s : string) : bool :=
  (negb (String.eqb s "") && negb (String.eqb s ".")
   && negb (String.eqb s "..") && no_slash s)%bool.

(** An absolute normalised path of at least one component, as [BASE_DIR]
    is when the program is not in the root directory: [/c1/.../cn]. *)
Definition path_of (comps : list string) : string :=
  String "/" (String.concat "/" comps).

(** A file system with a style sheet in the static directory of
    [/srv/app] and a file in the directory [static_old] beside it. *)
Definition sample_fs (path : string) : option node :=
  if String.eqb path "/srv/app/static/css/site.css" then Some (File "body{}")
  else if String.eqb path "/srv/app/static/../static_old/secret.txt"
       then Some (File "s3cr3t")
  else if String.eqb path "/srv/app/static/../app.py" then Some (File "code")
  else None.

(** * Properties *)

(** ** Dicts *)

Section DictFacts.
Context {V : Type}.
Implicit Types (d : dict V) (k : string) (v : V).

Lemma dict_get_set_same d k v : dict_get (dict_set d k v) k = Some v.
Proof.
  induction d as [|[k' v'] d IH]; simpl.
  - now rewrite String.eqb_refl.
  - destruct (String.eqb k' k) eqn:E; simpl; rewrite E; auto.
Qed.

Lemma dict_get_set_other d k k' v :
  k' <> k -> dict_get (dict_set d k v) k' = dict_get d k'.
Proof.
  intros Hne. induction d as [|[k0 v0] d IH]; simpl.
  - destruct (String.eqb k k') eqn:E; auto.
    apply String.eqb_eq in E. congruence.
  - destruct (String.eqb k0 k) eqn:E; simpl.
    + apply String.eqb_eq in E. subst k0.
      destruct (String.eqb k k') eqn:E'; auto.
      apply String.eqb_eq in E'. congruence.
    + now rewrite IH.
Qed.

Lemma dict_get_None_notin d k : dict_get d k = None <-> ~ In k (keys d).
Proof.
  induction d as [|[k0 v0] d IH]; simpl.
  - tauto.
  - destruct (String.eqb k0 k) eqn:E.
    + apply String.eqb_eq in E. split; [discriminate | tauto].
    + apply String.eqb_neq in E. rewrite IH. tauto.
Qed.

Lemma dict_get_In d k v :
  NoDup (keys d) -> In (k, v) d -> dict_get d k = Some v.
Proof.
  induction d as [|[k0 v0] d IH]; simpl; [tauto|].
  intros Hnd [Heq | Hin].
  - inversion Heq; subst. now rewrite String.eqb_refl.
  - inversion Hnd as [|? ? Hnotin Hnd']; subst.
    destruct (String.eqb k0 k) eqn:E; auto.
    apply String.eqb_eq in E. subst k0.
    exfalso. apply Hnotin. unfold keys. now apply (in_map fst) in Hin.
Qed.
End DictFacts.

(** ** Floats: facts read off the IEEE specification *)

Module SpecFacts.

(** A property kept by [f] is kept by its iterates. *)
Lemma iter_pos_inv {A : Type} (f : A -> A) (P : A -> Prop) :
  (forall x, P x -> P (f x)) -> forall p x, P x -> P (iter_pos f p x).
Proof. intros Hf. induction p; simpl; auto. Qed.

Lemma shr_1_nonneg mrs : 0 <= shr_m mrs -> 0 <= shr_m (shr_1 mrs).
Proof. destruct mrs as [[|[p|p|]|p] r s]; simpl; lia. Qed.

Lemma shr_nonneg mrs e n : 0 <= shr_m mrs -> 0 <= shr_m (fst (shr mrs e n)).
Proof.
  intros H. destruct n; simpl; auto.
  apply (iter_pos_inv shr_1 (fun x => 0 <= shr_m x)); auto using shr_1_nonneg.
Qed.

Lemma shr_record_of_loc_m m l : shr_m (shr_record_of_loc m l) = m.
Proof. destruct l as [|[| |]]; reflexivity. Qed.

Lemma shr_fexp_nonneg m e l :
  0 <= m -> 0 <= shr_m (fst (shr_fexp prec emax m e l)).
Proof.
  intros H. unfold shr_fexp. apply shr_nonneg.
  now rewrite shr_record_of_loc_m.
Qed.

Lemma round_nearest_even_nonneg m l : 0 <= m -> 0 <= round_nearest_even m l.
Proof.
  intros H. destruct l as [|[| |]]; simpl; try lia.
  destruct (Z.even m); lia.
Qed.

(** The sign of a spec float that is not NaN. *)
Definition has_sign (s : bool) (x : spec_float) : Prop :=
  match x with
  | S754_zero s' | S754_infinity s' | S754_finite s' _ _ => s' = s
  | S754_nan => False
  end.

Lemma binary_round_aux_sign sx mx ex lx :
  0 <= mx -> has_sign sx (binary_round_aux prec emax sx mx ex lx).
Proof.
  intros H. unfold binary_round_aux.
  pose proof (shr_fexp_nonneg mx ex lx H) as H1.
  destruct (shr_fexp prec emax mx ex lx) as [mrs' e']. cbn [fst] in H1.
  pose proof (round_nearest_even_nonneg _ (loc_of_shr_record mrs') H1) as H2.
  pose proof (shr_fexp_nonneg _ e' loc_Exact H2) as H3.
  destruct (shr_fexp prec emax _ e' loc_Exact) as [mrs'' e'']. cbn [fst] in H3.
  destruct (shr_m mrs'') as [|m|m]; [reflexivity| |lia].
  destruct (e'' <=? emax - prec); reflexivity.
Qed.

Lemma binary_round_sign sx mx ex :
  has_sign sx (binary_round prec emax sx mx ex).
Proof.
  unfold binary_round. destruct (shl_align _ _ _) as [mz ez].
  now apply binary_round_aux_sign.
Qed.

Lemma binary_normalize_sign m e :
  has_sign (m <? 0) (binary_normalize prec emax m e false).
Proof.
  destruct m; cbn [binary_normalize]; [reflexivity| |]; apply binary_round_sign.
Qed.

Lemma binary_normalize_not_nan m e :
  binary_normalize prec emax m e false <> S754_nan.
Proof.
  intros H. pose proof (binary_normalize_sign m e) as Hs. now rewrite H in Hs.
Qed.

Lemma spec_float_eq_zero_true (x : spec_float) :
  x = S754_zero true \/ x <> S754_zero true.
Proof. destruct x as [[|]| | |]; (now left) || (right; discriminate). Qed.

(** Finite values ([S754_zero] or [S754_finite]). *)
Definition finite (x : spec_float) : bool :=
  match x with
  | S754_zero _ | S754_finite _ _ _ => true
  | _ => false
  end.

Lemma SFsub_finite_not_nan x y :
  finite x = true -> finite y = true -> SF64sub x y <> S754_nan.
Proof.
  unfold SF64sub.
  destruct x as [[|]| | |sx mx ex], y as [[|]| | |sy my ey];
    cbn [finite SFsub]; try discriminate; intros _ _.
  apply binary_normalize_not_nan.
Qed.

(** *** The order on non-negative values *)

Definition nonneg (x : spec_float) : Prop := has_sign false x.

Lemma SFabs_nonneg x : x <> S754_nan -> nonneg (SFabs x).
Proof. destruct x; cbn; congruence. Qed.

Ltac cmp :=
  unfold nonneg, has_sign, SFltb, SFleb, SFeqb, SFcompare in *;
  repeat match goal with
         | x : spec_float |- _ => destruct x as [[|]|[|]| |[|] ? ?]
         end;
  try discriminate; try contradiction; try reflexivity; try congruence;
  repeat match goal with
         | H : context [Z.compare ?a ?b] |- _ =>
             destruct (Z.compare_spec a b); try discriminate
         | |- context [Z.compare ?a ?b] =>
             destruct (Z.compare_spec a b); try discriminate
         end;
  repeat match goal with
         | H : context [Pos.compare_cont Eq ?a ?b] |- _ =>
             change (Pos.compare_cont Eq a b) with (Pos.compare a b) in H;
             destruct (Pos.compare_spec a b); try discriminate
         | |- context [Pos.compare_cont Eq ?a ?b] =>
             change (Pos.compare_cont Eq a b) with (Pos.compare a b);
             destruct (Pos.compare_spec a b); try discriminate
         end;
  try reflexivity; try congruence; try lia.

Lemma SFltb_trans x y z :
  nonneg x -> nonneg y -> nonneg z ->
  SFltb x y = true -> SFltb y z = true -> SFltb x z = true.
Proof. intros. cmp. Qed.

Lemma SFleb_ltb_trans x y z :
  nonneg x -> nonneg y -> nonneg z ->
  SFleb x y = true -> SFltb y z = true -> SFltb x z = true.
Proof. intros. cmp. Qed.

Lemma SFltb_false_leb x y :
  nonneg x -> nonneg y -> SFltb x y = false -> SFleb y x = true.
Proof. intros. cmp. Qed.

Lemma SFleb_refl x : nonneg x -> SFleb x x = true.
Proof. intros. cmp. Qed.

End SpecFacts.

(** *** Exact roundings *)

Module SpecRound.

Lemma fexp_eq z : fexp prec emax z = Z.max (z - 53) (-1074).
Proof. reflexivity. Qed.

Lemma bounded_spec m e :
  bounded prec emax m e = true ->
  Z.max (Zpos (digits2_pos m) + e - 53) (-1074) = e /\ e <= 971.
Proof.
  unfold bounded, canonical_mantissa. rewrite fexp_eq.
  intros H. apply andb_prop in H as [H1 H2].
  apply Z.eqb_eq in H1. apply Z.leb_le in H2. split; [exact H1 | exact H2].
Qed.

(** Rounding an exact, already canonical value changes nothing. *)
Lemma binary_round_aux_canonical s m e :
  bounded prec emax m e = true ->
  binary_round_aux prec emax s (Zpos m) e loc_Exact = S754_finite s m e.
Proof.
  intros Hb. destruct (bounded_spec m e Hb) as [Hc He].
  unfold binary_round_aux, shr_fexp. cbn [Zdigits2 shr_record_of_loc].
  rewrite fexp_eq.
  replace (Z.max (Zpos (digits2_pos m) + e - 53) (-1074) - e) with 0 by lia.
  cbn [shr shr_m loc_of_shr_record round_nearest_even Zdigits2 shr_record_of_loc].
  rewrite fexp_eq.
  replace (Z.max (Zpos (digits2_pos m) + e - 53) (-1074) - e) with 0 by lia.
  cbn [shr shr_m].
  apply Z.leb_le in He. change (emax - prec) with 971. now rewrite He.
Qed.

(** The same for the doubled mantissa one exponent lower. *)
Lemma binary_round_aux_doubled s m e :
  bounded prec emax m e = true ->
  binary_round_aux prec emax s (Zpos m~0) (e - 1) loc_Exact = S754_finite s m e.
Proof.
  intros Hb. destruct (bounded_spec m e Hb) as [Hc He].
  unfold binary_round_aux, shr_fexp. cbn [Zdigits2 digits2_pos shr_record_of_loc].
  rewrite fexp_eq, Pos2Z.inj_succ.
  replace (Z.max (Z.succ (Zpos (digits2_pos m)) + (e - 1) - 53) (-1074) - (e - 1))
    with 1 by lia.
  cbn [shr iter_pos shr_1 shr_m loc_of_shr_record orb round_nearest_even Zdigits2
         shr_record_of_loc].
  rewrite fexp_eq.
  replace (e - 1 + 1) with e by lia.
  replace (Z.max (Zpos (digits2_pos m) + e - 53) (-1074) - e) with 0 by lia.
  cbn [shr shr_m].
  apply Z.leb_le in He. change (emax - prec) with 971. now rewrite He.
Qed.

Lemma div_eucl_exact a b : 0 < b -> Z.div_eucl (a * b) b = (a, 0).
Proof.
  intros Hb.
  pose proof (Z.div_eucl_eq (a * b) b ltac:(lia)) as H.
  pose proof (Z.mod_pos_bound (a * b) b Hb) as Hm.
  unfold Z.modulo in Hm.
  destruct (Z.div_eucl (a * b) b) as [q r].
  assert (Hq : q = a) by nia.
  subst q. f_equal. lia.
Qed.

Lemma SFdiv_core_eq m1 e1 m2 e2 :
  SFdiv_core_binary prec emax m1 e1 m2 e2
  = let e' := Z.min (Z.max (Zdigits2 m1 + e1 - (Zdigits2 m2 + e2) - 53) (-1074))
                (e1 - e2) in
    let s := e1 - e2 - e' in
    let m' := match s with
              | Zpos _ => Z.shiftl m1 s
              | Z0 => m1
              | Zneg _ => 0
              end in
    let '(q, r) := Z.div_eucl m' m2 in
    (q, e', new_location m2 r).
Proof. reflexivity. Qed.

Lemma SFdiv_one_finite s m e :
  bounded prec emax m e = true ->
  SF64div (S754_finite s m e) (S754_finite false 4503599627370496 (-52))
  = S754_finite s m e.
Proof.
  intros Hb. destruct (bounded_spec m e Hb) as [Hc He].
  unfold SF64div, SFdiv. rewrite SFdiv_core_eq.
  change (Zdigits2 4503599627370496) with 53.
  cbn [Zdigits2]. rewrite xorb_false_r.
  destruct (Z_lt_le_dec (-1074) e) as [Hlt | Hle].
  - (* a normal number: the quotient is computed with one more bit *)
    replace (Z.min (Z.max (Zpos (digits2_pos m) + e - (53 + -52) - 53) (-1074))
               (e - -52)) with (e - 1) by lia.
    replace (e - -52 - (e - 1)) with 53 by lia.
    cbv zeta. rewrite Z.shiftl_mul_pow2 by lia.
    replace (Zpos m * 2 ^ 53) with (Zpos m~0 * 4503599627370496) by lia.
    rewrite div_eucl_exact by lia.
    now apply binary_round_aux_doubled.
  - assert (e = -1074) by lia. subst e.
    replace (Z.min (Z.max (Zpos (digits2_pos m) + -1074 - (53 + -52) - 53) (-1074))
               (-1074 - -52)) with (-1074) by lia.
    change (-1074 - -52 - -1074) with 52.
    cbv zeta. rewrite Z.shiftl_mul_pow2 by lia.
    replace (Zpos m * 2 ^ 52) with (Zpos m * 4503599627370496) by lia.
    rewrite div_eucl_exact by lia.
    now apply binary_round_aux_canonical.
Qed.

Lemma div_one (x : float) : (x / 1)%float = x.
Proof.
  apply Prim2SF_inj. rewrite FloatAxioms.div_spec.
  change (Prim2SF 1) with (S754_finite false 4503599627370496 (-52)).
  pose proof (Prim2SF_valid x) as Hv.
  destruct (Prim2SF x) as [s|s| |s m e].
  - cbn. now rewrite xorb_false_r.
  - cbn. now rewrite xorb_false_r.
  - reflexivity.
  - now apply SFdiv_one_finite.
Qed.

Lemma add_zero_l (x : float) :
  Prim2SF x <> S754_zero true -> (0 + x)%float = x.
Proof.
  intros H. apply Prim2SF_inj. rewrite FloatAxioms.add_spec.
  change (Prim2SF 0) with (S754_zero false).
  destruct (Prim2SF x) as [[|]|s| |s m e]; cbn; congruence.
Qed.

End SpecRound.

Module SpecBounds.
Import SpecFacts SpecRound.
(** *** Number of bits *)

Lemma digits2_pos_bounds p :
  2 ^ (Zpos (digits2_pos p) - 1) <= Zpos p < 2 ^ Zpos (digits2_pos p).
Proof.
  induction p as [p IH | p IH |]; cbn [digits2_pos]; [| |cbn; lia];
    rewrite Pos2Z.inj_succ;
    replace (Z.succ (Zpos (digits2_pos p)) - 1)
      with (Z.succ (Zpos (digits2_pos p) - 1)) by lia;
    rewrite !Z.pow_succ_r by lia; lia.
Qed.

Lemma digits2_pos_le p n : 0 <= n -> Zpos p < 2 ^ n -> Zpos (digits2_pos p) <= n.
Proof.
  intros Hn Hp. destruct (digits2_pos_bounds p) as [Hlo _].
  destruct (Z_le_gt_dec (Zpos (digits2_pos p)) n) as [|Hgt]; [assumption|].
  pose proof (Z.pow_le_mono_r 2 n (Zpos (digits2_pos p) - 1)). lia.
Qed.

Lemma digits2_pos_gt p n : 0 <= n -> 2 ^ n <= Zpos p -> n < Zpos (digits2_pos p).
Proof.
  intros Hn Hp. destruct (digits2_pos_bounds p) as [_ Hhi].
  destruct (Z_lt_le_dec n (Zpos (digits2_pos p))) as [|Hle]; [assumption|].
  pose proof (Z.pow_le_mono_r 2 (Zpos (digits2_pos p)) n). lia.
Qed.

Lemma digits2_pos_53 p :
  2 ^ 52 <= Zpos p < 2 ^ 53 <-> Zpos (digits2_pos p) = 53.
Proof.
  split.
  - intros [Hlo Hhi].
    pose proof (digits2_pos_le p 53). pose proof (digits2_pos_gt p 52). lia.
  - intros H. pose proof (digits2_pos_bounds p) as Hb. rewrite H in Hb.
    exact Hb.
Qed.

(** *** Shifts *)

Lemma shr_1_le mrs : 0 <= shr_m mrs -> shr_m (shr_1 mrs) <= shr_m mrs.
Proof. destruct mrs as [[|[p|p|]|p] r s]; simpl; lia. Qed.

Lemma shr_bounds mrs e n :
  0 <= shr_m mrs ->
  0 <= shr_m (fst (shr mrs e n)) <= shr_m mrs
  /\ snd (shr mrs e n) = Z.max e (e + n).
Proof.
  intros H. destruct n as [|p|p]; cbn [shr fst snd]; try (split; lia).
  split; [|lia].
  apply (iter_pos_inv shr_1 (fun x => 0 <= shr_m x <= shr_m mrs)); [|lia].
  intros x Hx. pose proof (shr_1_nonneg x). pose proof (shr_1_le x). lia.
Qed.

Lemma round_nearest_even_bounds m l :
  m <= round_nearest_even m l <= m + 1.
Proof.
  destruct l as [|[| |]]; simpl; try lia. destruct (Z.even m); lia.
Qed.

Lemma Zdigits2_le m n : 0 <= n -> 0 <= m < 2 ^ n -> Zdigits2 m <= n.
Proof.
  intros Hn Hm. destruct m as [|p|p]; cbn [Zdigits2]; [lia| |lia].
  apply digits2_pos_le; lia.
Qed.

(** [shr_fexp] keeps the mantissa below its argument and raises the
    exponent to what the format asks for the number of bits. *)
Lemma shr_fexp_bounds m e l :
  0 <= m ->
  0 <= shr_m (fst (shr_fexp prec emax m e l)) <= m
  /\ snd (shr_fexp prec emax m e l)
     = Z.max e (Z.max (Zdigits2 m + e - 53) (-1074)).
Proof.
  intros Hm. unfold shr_fexp. rewrite fexp_eq.
  pose proof (shr_bounds (shr_record_of_loc m l) e
                (Z.max (Zdigits2 m + e - 53) (-1074) - e)) as H.
  rewrite shr_record_of_loc_m in H. specialize (H Hm).
  destruct H as [H1 H2]. split; [exact H1|]. rewrite H2. lia.
Qed.

(** Rounding a 63-bit integer at an exponent in [-52, 0] gives zero or a
    finite number whose exponent is at most 21 and at least what the number
    of bits asks for: it cannot overflow. *)
Lemma binary_round_aux_small s m e :
  0 <= m < 2 ^ 63 -> -52 <= e <= 0 ->
  binary_round_aux prec emax s m e loc_Exact = S754_zero s
  \/ exists m' e',
      binary_round_aux prec emax s m e loc_Exact = S754_finite s m' e'
      /\ Z.max e (Zdigits2 m + e - 53) <= e' <= 21.
Proof.
  intros Hm He. unfold binary_round_aux.
  pose proof (shr_fexp_bounds m e loc_Exact ltac:(lia)) as [H1 H1e].
  pose proof (Zdigits2_le m 63 ltac:(lia) Hm) as Hd.
  destruct (shr_fexp prec emax m e loc_Exact) as [mrs1 e1].
  cbn [fst snd] in H1, H1e.
  pose proof (round_nearest_even_bounds (shr_m mrs1) (loc_of_shr_record mrs1)) as Hr.
  set (m1 := round_nearest_even (shr_m mrs1) (loc_of_shr_record mrs1)) in *.
  pose proof (shr_fexp_bounds m1 e1 loc_Exact ltac:(lia)) as [H2 H2e].
  pose proof (Zdigits2_le m1 64 ltac:(lia) ltac:(lia)) as Hd1.
  destruct (shr_fexp prec emax m1 e1 loc_Exact) as [mrs2 e2].
  cbn [fst snd] in H2, H2e.
  destruct (shr_m mrs2) as [|m2|m2]; [now left | right | lia].
  assert (Hb : Z.max e (Zdigits2 m + e - 53) <= e2 <= 21) by lia.
  change (emax - prec) with 971.
  replace (e2 <=? 971) with true by (symmetry; apply Z.leb_le; lia).
  exists m2, e2. auto.
Qed.

(** Aligning an integer below [2^63] for rounding: up to 53 bits it is
    shifted left to exactly 53 bits, beyond it is left as it is. *)
Lemma shl_align_small p :
  Zpos p < 2 ^ 63 ->
  let '(mz, ez) := shl_align p 0 (fexp prec emax (Zpos (digits2_pos p) + 0)) in
  Zpos mz < 2 ^ 63 /\ -52 <= ez <= 0
  /\ Zpos mz = Zpos p * 2 ^ (- ez)
  /\ Zpos (digits2_pos mz) + ez = Zpos (digits2_pos p)
  /\ ez = Z.min 0 (Zpos (digits2_pos p) - 53).
Proof.
  intros Hp. unfold shl_align. rewrite fexp_eq.
  pose proof (digits2_pos_le p 63 ltac:(lia) Hp) as Hd.
  pose proof (digits2_pos_bounds p) as Hb.
  assert (Hd1 : 1 <= Zpos (digits2_pos p)) by lia.
  replace (Z.max (Zpos (digits2_pos p) + 0 - 53) (-1074) - 0)
    with (Zpos (digits2_pos p) - 53) by lia.
  destruct (Zpos (digits2_pos p) - 53) as [|k|k] eqn:E;
    [repeat split; lia | repeat split; lia |].
  replace (Z.max (Zpos (digits2_pos p) + 0 - 53) (-1074)) with (Zneg k) by lia.
  fold (shift_pos k p).
  assert (Hk : Zpos k = 53 - Zpos (digits2_pos p)) by lia.
  assert (Hmz : Zpos (shift_pos k p) = Zpos p * 2 ^ Zpos k).
  { rewrite shift_pos_correct, Z.pow_pos_fold. lia. }
  assert (Hpow : 2 ^ Zpos k * 2 ^ Zpos (digits2_pos p) = 2 ^ 53).
  { rewrite <- Z.pow_add_r by lia. f_equal. lia. }
  assert (Hpow' : 2 ^ Zpos k * 2 ^ (Zpos (digits2_pos p) - 1) = 2 ^ 52).
  { rewrite <- Z.pow_add_r by lia. f_equal. lia. }
  assert (0 < 2 ^ Zpos k) by (apply Z.pow_pos_nonneg; lia).
  assert (Hr : 2 ^ 52 <= Zpos (shift_pos k p) < 2 ^ 53) by nia.
  apply digits2_pos_53 in Hr as Hdz.
  repeat split; try lia. rewrite Hmz. reflexivity.
Qed.

(** Zero, or a positive finite number with exponent in [-52, 21]: what the
    conversion of a 63-bit unsigned integer gives. *)
Definition small_nonneg (x : spec_float) : Prop :=
  x = S754_zero false
  \/ exists m e, x = S754_finite false m e /\ -52 <= e <= 21.

(** The conversion of a positive integer below [2^63]: zero is listed
    because the rounding step could return it as far as this lemma looks. *)
Lemma binary_normalize_pos p :
  Zpos p < 2 ^ 63 ->
  binary_normalize prec emax (Zpos p) 0 false = S754_zero false
  \/ exists m e,
      binary_normalize prec emax (Zpos p) 0 false = S754_finite false m e
      /\ -52 <= e <= 21 /\ Zpos (digits2_pos p) - 53 <= e.
Proof.
  intros Hp. cbn [binary_normalize]. unfold binary_round.
  pose proof (shl_align_small p Hp) as H.
  destruct (shl_align p 0 _) as [mz ez]. destruct H as (Hm & He & _ & Hd & _).
  destruct (binary_round_aux_small false (Zpos mz) ez ltac:(lia) He)
    as [-> | (m & e & -> & Hb)]; [now left | right].
  exists m, e. cbn [Zdigits2] in Hb. split; [reflexivity | lia].
Qed.

Lemma binary_normalize_uint63 z :
  0 <= z < 2 ^ 63 -> small_nonneg (binary_normalize prec emax z 0 false).
Proof.
  intros Hz. destruct z as [|p|p]; [now left | | lia].
  destruct (binary_normalize_pos p ltac:(lia)) as [-> | (m & e & -> & He & _)];
    [now left | right; eauto].
Qed.

Lemma of_uint63_small n : small_nonneg (Prim2SF (of_uint63 n)).
Proof.
  rewrite FloatAxioms.of_uint63_spec. apply binary_normalize_uint63.
  apply Uint63.to_Z_bounded.
Qed.

(** Up to 53 bits the conversion is exact: the integer shifted left to a
    53-bit mantissa. *)
Lemma binary_normalize_exact p :
  Zpos p < 2 ^ 53 ->
  exists m e,
    binary_normalize prec emax (Zpos p) 0 false = S754_finite false m e
    /\ Zpos (digits2_pos m) = 53 /\ -52 <= e <= 0
    /\ Zpos m = Zpos p * 2 ^ (- e).
Proof.
  intros Hp. cbn [binary_normalize]. unfold binary_round.
  pose proof (shl_align_small p ltac:(lia)) as H.
  pose proof (digits2_pos_le p 53 ltac:(lia) Hp) as Hd.
  destruct (shl_align p 0 _) as [mz ez]. destruct H as (_ & He & Hm & Hdz & Hez).
  assert (Hd53 : Zpos (digits2_pos mz) = 53) by lia.
  exists mz, ez. split; [|auto].
  apply binary_round_aux_canonical.
  unfold bounded, canonical_mantissa. rewrite fexp_eq, Hd53.
  apply andb_true_intro. split; [apply Z.eqb_eq | apply Z.leb_le].
  - lia.
  - change (emax - prec) with 971. lia.
Qed.

(** The order of two such conversions follows the order of the integers. *)
Lemma exact_order pb pt mb eb mt et :
  Zpos pb <= Zpos pt ->
  2 ^ 52 <= Zpos mb < 2 ^ 53 -> 2 ^ 52 <= Zpos mt < 2 ^ 53 ->
  -52 <= eb <= 0 -> -52 <= et <= 0 ->
  Zpos mb = Zpos pb * 2 ^ (- eb) -> Zpos mt = Zpos pt * 2 ^ (- et) ->
  eb < et \/ (eb = et /\ Zpos mb <= Zpos mt).
Proof.
  intros Hle Hmb Hmt Heb Het Eb Et.
  destruct (Z.lt_trichotomy eb et) as [Hlt | [-> | Hgt]]; [now left | |].
  - right. split; [reflexivity|].
    assert (0 < 2 ^ (- et)) by (apply Z.pow_pos_nonneg; lia). nia.
  - exfalso.
    assert (Hsplit : 2 ^ (- et) = 2 ^ (eb - et) * 2 ^ (- eb)).
    { rewrite <- Z.pow_add_r by lia. f_equal. lia. }
    assert (H2 : 2 ^ 1 <= 2 ^ (eb - et)) by (apply Z.pow_le_mono_r; lia).
    assert (0 < 2 ^ (- eb)) by (apply Z.pow_pos_nonneg; lia).
    change (2 ^ 1) with 2 in H2. nia.
Qed.

(** *** Quotients *)

Lemma div_eucl_div_mod a b : Z.div_eucl a b = (a / b, a mod b).
Proof. unfold Z.div, Z.modulo. now destruct (Z.div_eucl a b). Qed.

(** Not NaN and not below zero: [0 <= x]. *)
Definition ge0 (x : spec_float) : Prop :=
  match x with
  | S754_zero _ | S754_finite false _ _ | S754_infinity false => True
  | _ => False
  end.

Lemma ge0_leb x : ge0 x <-> SFleb (S754_zero false) x = true.
Proof. destruct x as [[|]|[|]| |[|] m e]; cbn; intuition congruence. Qed.

Lemma has_sign_ge0 x : has_sign false x -> ge0 x.
Proof. destruct x as [[|]|[|]| |[|] m e]; cbn; intuition congruence. Qed.

(** The quotient of a finite number by a number, neither below zero and
    the divisor not zero, is not below zero. *)
Lemma SFdiv_ge0 x y :
  ge0 x -> finite x = true ->
  ge0 y -> SFeqb y (S754_zero false) = false ->
  ge0 (SF64div x y).
Proof.
  unfold SF64div.
  destruct x as [sx|[|]| |[|] mx ex], y as [sy|[|]| |[|] my ey];
    cbn [ge0 finite SFdiv SFeqb SFcompare]; try tauto; try discriminate;
    intros _ _ _ _.
  rewrite SFdiv_core_eq. cbv zeta.
  set (m' := match _ with Zpos _ => _ | Z0 => _ | Zneg _ => 0 end).
  assert (Hm' : 0 <= m').
  { subst m'. destruct (_ - _ - _); [lia | | lia].
    apply Z.shiftl_nonneg. lia. }
  rewrite div_eucl_div_mod.
  apply has_sign_ge0, binary_round_aux_sign.
  apply Z.div_pos; lia.
Qed.

Lemma small_nonneg_ge0 x : small_nonneg x -> ge0 x /\ finite x = true.
Proof. intros [-> | (m & e & -> & _)]; split; reflexivity. Qed.

(** The last step of [binary_round_aux] on a rounded mantissa between
    [2^52] and [2^53]: it is kept, or, at [2^53], renormalized to [2^52] one
    exponent higher. *)
Lemma renormalize_53 s m1 e :
  2 ^ 52 <= m1 <= 2 ^ 53 -> -1074 <= e <= 970 ->
  exists mq eq,
    (let '(mrs, e') := shr_fexp prec emax m1 e loc_Exact in
     match shr_m mrs with
     | Z0 => S754_zero s
     | Zpos m => if e' <=? emax - prec then S754_finite s m e'
                 else S754_infinity s
     | Zneg _ => S754_nan
     end) = S754_finite s mq eq
    /\ ((eq = e /\ Zpos mq < 2 ^ 53) \/ (eq = e + 1 /\ Zpos mq = 2 ^ 52)).
Proof.
  intros Hm He. unfold shr_fexp.
  destruct (Z_lt_le_dec m1 (2 ^ 53)) as [Hlt | Hge].
  - destruct m1 as [|q1|q1] eqn:E; [lia | | lia].
    assert (Hd1 : Zpos (digits2_pos q1) = 53) by (apply digits2_pos_53; lia).
    cbn [Zdigits2 shr_record_of_loc]. rewrite fexp_eq, Hd1.
    replace (Z.max (53 + e - 53) (-1074) - e) with 0 by lia.
    cbn [shr shr_m]. change (emax - prec) with 971.
    replace (e <=? 971) with true by (symmetry; apply Z.leb_le; lia).
    exists q1, e. split; [reflexivity | left; lia].
  - assert (E : m1 = 9007199254740992) by lia. rewrite E.
    cbn [Zdigits2 shr_record_of_loc]. rewrite fexp_eq.
    change (Zpos (digits2_pos 9007199254740992)) with 54.
    replace (Z.max (54 + e - 53) (-1074) - e) with 1 by lia.
    cbn [shr iter_pos shr_1 shr_m]. change (emax - prec) with 971.
    replace (e + 1 <=? 971) with true by (symmetry; apply Z.leb_le; lia).
    exists 4503599627370496%positive, (e + 1). split; [reflexivity | right].
    split; reflexivity.
Qed.

(** Rounding a 53-bit mantissa. *)
Lemma binary_round_aux_53 s q e l :
  Zpos (digits2_pos q) = 53 -> -1074 <= e <= 970 ->
  exists mq eq,
    binary_round_aux prec emax s (Zpos q) e l = S754_finite s mq eq
    /\ ((eq = e /\ Zpos mq < 2 ^ 53) \/ (eq = e + 1 /\ Zpos mq = 2 ^ 52)).
Proof.
  intros Hd He. apply digits2_pos_53 in Hd as Hq.
  unfold binary_round_aux. unfold shr_fexp at 1. cbn [Zdigits2].
  rewrite fexp_eq, Hd.
  replace (Z.max (53 + e - 53) (-1074) - e) with 0 by lia.
  cbn [shr]. rewrite shr_record_of_loc_m.
  pose proof (round_nearest_even_bounds (Zpos q)
                (loc_of_shr_record (shr_record_of_loc (Zpos q) l))) as Hr.
  apply renormalize_53; lia.
Qed.

(** Rounding a 54-bit mantissa: one bit is shifted out first. *)
Lemma binary_round_aux_54 s q e l :
  Zpos (digits2_pos q) = 54 -> -1074 <= e <= 969 ->
  exists mq eq,
    binary_round_aux prec emax s (Zpos q) e l = S754_finite s mq eq
    /\ ((eq = e + 1 /\ Zpos mq < 2 ^ 53) \/ (eq = e + 2 /\ Zpos mq = 2 ^ 52)).
Proof.
  intros Hd He.
  unfold binary_round_aux. unfold shr_fexp at 1. cbn [Zdigits2].
  rewrite fexp_eq, Hd.
  replace (Z.max (54 + e - 53) (-1074) - e) with 1 by lia.
  cbn [shr iter_pos].
  assert (Hp : exists p r t, shr_1 (shr_record_of_loc (Zpos q) l)
                             = Build_shr_record (Zpos p) r t
                             /\ Zpos (digits2_pos p) = 53).
  { destruct q as [p|p|]; cbn [digits2_pos] in Hd;
      [| |discriminate]; rewrite Pos2Z.inj_succ in Hd;
      destruct l as [|[| |]]; cbn [shr_record_of_loc shr_1];
      eexists _, _, _; (split; [reflexivity | lia]). }
  destruct Hp as (p & r & t & -> & Hdp). cbn [shr_m].
  apply digits2_pos_53 in Hdp as Hpb.
  pose proof (round_nearest_even_bounds (Zpos p)
                (loc_of_shr_record (Build_shr_record (Zpos p) r t))) as Hr.
  destruct (renormalize_53 s
              (round_nearest_even (Zpos p)
                 (loc_of_shr_record (Build_shr_record (Zpos p) r t)))
              (e + 1) ltac:(lia) ltac:(lia)) as (mq & eq & -> & Hc).
  exists mq, eq. split; [reflexivity|].
  destruct Hc as [[-> H] | [-> H]]; [left | right]; split; auto; lia.
Qed.

(** The quotient of two positive normal numbers [x <= y] with exponents in
    [-52, 21] is at most 1: its exponent is at most -52, and its mantissa
    at most [2^52] when the exponent is -52. *)
Lemma SFdiv_le_one mx ex my ey :
  Zpos (digits2_pos mx) = 53 -> Zpos (digits2_pos my) = 53 ->
  -52 <= ex <= 21 -> -52 <= ey <= 21 ->
  ex < ey \/ (ex = ey /\ Zpos mx <= Zpos my) ->
  exists mq eq,
    SF64div (S754_finite false mx ex) (S754_finite false my ey)
    = S754_finite false mq eq
    /\ eq <= -52 /\ Zpos mq <= 2 ^ (- eq).
Proof.
  intros Hdx Hdy Hex Hey Hle.
  apply digits2_pos_53 in Hdx as Hmx. apply digits2_pos_53 in Hdy as Hmy.
  unfold SF64div, SFdiv. rewrite SFdiv_core_eq.
  cbn [Zdigits2]. rewrite Hdx, Hdy.
  replace (Z.min (Z.max (53 + ex - (53 + ey) - 53) (-1074)) (ex - ey))
    with (ex - ey - 53) by lia.
  replace (ex - ey - (ex - ey - 53)) with 53 by lia.
  cbv zeta. rewrite Z.shiftl_mul_pow2 by lia.
  rewrite div_eucl_div_mod. cbn [xorb].
  pose proof (Z.div_mod (Zpos mx * 2 ^ 53) (Zpos my) ltac:(lia)) as Hdm.
  pose proof (Z.mod_pos_bound (Zpos mx * 2 ^ 53) (Zpos my) ltac:(lia)) as Hmod.
  set (Q := Zpos mx * 2 ^ 53 / Zpos my) in *.
  set (R := (Zpos mx * 2 ^ 53) mod Zpos my) in *.
  assert (HQ : 2 ^ 52 <= Q < 2 ^ 54) by nia.
  assert (Hpow : forall eq, eq <= -53 -> 2 ^ 53 <= 2 ^ (- eq)).
  { intros eq Heq. apply Z.pow_le_mono_r; lia. }
  assert (Hpow' : forall eq, eq <= -52 -> 2 ^ 52 <= 2 ^ (- eq)).
  { intros eq Heq. apply Z.pow_le_mono_r; lia. }
  destruct Q as [|q|q] eqn:EQ; [lia | | lia].
  destruct (Z_lt_le_dec (Zpos q) (2 ^ 53)) as [Hlt | Hge].
  - assert (Hdq : Zpos (digits2_pos q) = 53) by (apply digits2_pos_53; lia).
    destruct (binary_round_aux_53 false q (ex - ey - 53)
                (new_location (Zpos my) R) Hdq ltac:(lia))
      as (mq & eq & -> & Hcase).
    exists mq, eq. split; [reflexivity|].
    destruct Hcase as [[-> Hmq] | [-> Hmq]].
    + split; [lia|]. specialize (Hpow (ex - ey - 53)). lia.
    + split; [lia|]. specialize (Hpow' (ex - ey - 53 + 1)). lia.
  - destruct Hle as [Hlt | [-> Hm]].
    + assert (Hdq : Zpos (digits2_pos q) = 54).
      { pose proof (digits2_pos_le q 54). pose proof (digits2_pos_gt q 53). lia. }
      destruct (binary_round_aux_54 false q (ex - ey - 53)
                  (new_location (Zpos my) R) Hdq ltac:(lia))
        as (mq & eq & -> & Hcase).
      exists mq, eq. split; [reflexivity|].
      destruct Hcase as [[-> Hmq] | [-> Hmq]].
      * split; [lia|]. specialize (Hpow (ex - ey - 53 + 1)). lia.
      * split; [lia|]. specialize (Hpow' (ex - ey - 53 + 2)). lia.
    + (* equal operands: the quotient is exactly one *)
      assert (Em : Zpos mx = Zpos my) by nia.
      assert (Eq' : Zpos q = 2 ^ 53) by nia.
      assert (ER : R = 0) by nia.
      rewrite ER.
      assert (El : new_location (Zpos my) 0 = loc_Exact).
      { unfold new_location, new_location_even, new_location_odd.
        now destruct (Z.even (Zpos my)). }
      rewrite El, Eq'.
      change (2 ^ 53) with (Zpos (4503599627370496~0)).
      replace (ey - ey - 53) with (-52 - 1) by lia.
      rewrite binary_round_aux_doubled by reflexivity.
      exists 4503599627370496%positive, (-52). split; [reflexivity|].
      split; [lia | reflexivity].
Qed.

End SpecBounds.

Module RoundFacts.
Import SpecFacts SpecRound SpecBounds.

Lemma round_half_even_bounds num den :
  0 < den -> 0 <= num <= 1000 * den ->
  0 <= PyFloat.round_half_even num den <= 1000.
Proof.
  intros Hden Hnum. unfold PyFloat.round_half_even.
  pose proof (Z.div_mod num den ltac:(lia)) as Hdm.
  pose proof (Z.mod_pos_bound num den Hden) as Hmod.
  set (q := num / den) in *. set (r := num mod den) in *.
  assert (Hq : 0 <= q <= 1000) by nia.
  destruct (Z.compare_spec (2 * r) den) as [E | E | E]; [| lia |].
  - destruct (Z.even q); [lia|]. assert (q <> 1000) by nia. lia.
  - assert (q <> 1000) by nia. lia.
Qed.

(** [k / 1000] for [k] from 0 to 1000, as [round3] computes it. *)
Definition thousandth (k : Z) : float := (of_uint63 (of_Z k) / 1000)%float.

Definition thousandth_in_unit (n : nat) : bool :=
  let r := thousandth (Z.of_nat n) in
  ((0 <=? r) && (r <=? 1))%float.

Lemma thousandths_in_unit : forallb thousandth_in_unit (seq 0 1001) = true.
Proof. vm_compute. reflexivity. Qed.

Lemma thousandth_unit k :
  0 <= k <= 1000 -> in_unit_interval (thousandth k).
Proof.
  intros Hk. pose proof thousandths_in_unit as H.
  rewrite forallb_forall in H. specialize (H (Z.to_nat k)).
  unfold thousandth_in_unit in H. rewrite Z2Nat.id in H by lia.
  apply andb_prop, H, in_seq. lia.
Qed.

(** Rounding a number of [[0, 1]] to three decimals stays in [[0, 1]]. *)
Lemma round3_unit x m e :
  Prim2SF x = S754_finite false m e -> e <= -52 -> Zpos m <= 2 ^ (- e) ->
  in_unit_interval (PyFloat.round3 x).
Proof.
  intros Hx He Hm. unfold PyFloat.round3. rewrite Hx.
  replace (e <? -9) with true by (symmetry; apply Z.ltb_lt; lia).
  cbv zeta. apply thousandth_unit, round_half_even_bounds.
  - apply Z.pow_pos_nonneg; lia.
  - lia.
Qed.

Lemma leb_zero_ge0 x : (0 <=? x)%float = true <-> ge0 (Prim2SF x).
Proof.
  rewrite FloatAxioms.leb_spec. change (Prim2SF 0) with (S754_zero false).
  symmetry. apply ge0_leb.
Qed.

Lemma div_ge0 b t :
  ge0 (Prim2SF b) -> finite (Prim2SF b) = true ->
  ge0 (Prim2SF t) -> (t =? 0)%float = false ->
  ge0 (Prim2SF (b / t)).
Proof.
  intros Hb Hf Ht Hz. rewrite FloatAxioms.div_spec.
  apply SFdiv_ge0; auto. now rewrite FloatAxioms.eqb_spec in Hz.
Qed.

(** Rounding to three decimals keeps a number that is not below zero so. *)
Lemma round3_ge0 x : ge0 (Prim2SF x) -> ge0 (Prim2SF (PyFloat.round3 x)).
Proof.
  intros Hx. unfold PyFloat.round3.
  destruct (Prim2SF x) as [s|s| |s m e] eqn:E; try (now rewrite E).
  destruct (e <? -9); [|now rewrite E].
  destruct s; [contradiction|]. cbv zeta.
  apply div_ge0.
  - apply small_nonneg_ge0, of_uint63_small.
  - apply small_nonneg_ge0, of_uint63_small.
  - reflexivity.
  - reflexivity.
Qed.

(** The conversion of an integer that is not below zero is not below
    zero. *)
Lemma of_int_ge0 z x :
  0 <= z -> PyFloat.of_int z = Some x -> ge0 (Prim2SF x).
Proof.
  intros Hz. unfold PyFloat.of_int.
  replace (z <? 0) with false by (symmetry; apply Z.ltb_ge; lia).
  destruct (Z.abs z <? 2 ^ 63).
  - intros [= <-]. apply small_nonneg_ge0, of_uint63_small.
  - pose proof (binary_normalize_sign z 0) as Hs.
    replace (z <? 0) with false in Hs by (symmetry; apply Z.ltb_ge; lia).
    destruct (binary_normalize prec emax z 0 false) as [s|s| |s m e];
      cbn [has_sign] in Hs; subst; try discriminate; try contradiction;
      intros [= <-].
    + reflexivity.
    + cbn [SF2Prim]. rewrite Z_ldexp_spec.
      match goal with
      | |- context [Prim2SF (of_uint63 ?n)] =>
          destruct (of_uint63_small n) as [-> | (M & E & -> & _)]
      end.
      * reflexivity.
      * cbn [SFldexp]. apply has_sign_ge0, binary_round_sign.
Qed.

Lemma of_len_ge0 n : ge0 (Prim2SF (PyFloat.of_len n)).
Proof. apply small_nonneg_ge0, of_uint63_small. Qed.

End RoundFacts.

Module FloatFacts.

Lemma Prim2SF_zero : Prim2SF 0 = S754_zero false.
Proof. reflexivity. Qed.

(** [x - x] is a zero or NaN. *)
Lemma sub_diag_spec (x : float) :
  Prim2SF (x - x) = S754_zero false \/ Prim2SF (x - x) = S754_nan.
Proof.
  rewrite FloatAxioms.sub_spec. unfold SF64sub.
  destruct (Prim2SF x) as [[|]|[|]| |s m e]; cbn; auto.
  rewrite Z.sub_diag. auto.
Qed.

Lemma sub_diag_cmp (x : float) :
  (0 <? x - x)%float = false /\ (x - x <? 0)%float = false
  /\ (0 <? abs (x - x))%float = false.
Proof.
  rewrite !FloatAxioms.ltb_spec, FloatAxioms.abs_spec, Prim2SF_zero.
  destruct (sub_diag_spec x) as [-> | ->]; auto.
Qed.

(** Comparisons with zero exclude one another. *)
Lemma ltb_zero_asym (x : float) :
  (x <? 0)%float = true -> (0 <? x)%float = false.
Proof.
  rewrite !FloatAxioms.ltb_spec, Prim2SF_zero.
  destruct (Prim2SF x) as [[|]|[|]| |[|] m e]; cbn; congruence.
Qed.

Lemma eqb_zero_not_ltb (x : float) :
  (x =? 0)%float = true -> (0 <? x)%float = false /\ (x <? 0)%float = false.
Proof.
  rewrite FloatAxioms.eqb_spec, !FloatAxioms.ltb_spec, Prim2SF_zero.
  destruct (Prim2SF x) as [[|]|[|]| |[|] m e]; cbn; intuition congruence.
Qed.

End FloatFacts.

Module FloatOrder.
Import SpecFacts.

Lemma is_finite_spec x : is_finite x = true -> finite (Prim2SF x) = true.
Proof.
  unfold is_finite, is_nan, is_infinity.
  rewrite !FloatAxioms.eqb_spec, FloatAxioms.abs_spec.
  change (Prim2SF infinity) with (S754_infinity false).
  destruct (Prim2SF x) as [[|]|[|]| |[|] m e]; cbn; try congruence; auto.
Qed.

Lemma sub_finite_not_nan x y :
  is_finite x = true -> is_finite y = true -> Prim2SF (x - y) <> S754_nan.
Proof.
  intros Hx Hy. rewrite FloatAxioms.sub_spec.
  apply SFsub_finite_not_nan; now apply is_finite_spec.
Qed.

(** A float that is the absolute value of a number. *)
Definition magnitude (a : float) : Prop := nonneg (Prim2SF a).

Lemma abs_magnitude x : Prim2SF x <> S754_nan -> magnitude (abs x).
Proof. intros H. unfold magnitude. rewrite FloatAxioms.abs_spec. now apply SFabs_nonneg. Qed.

Lemma zero_magnitude : magnitude 0.
Proof. reflexivity. Qed.

Lemma ltb_trans a b c :
  magnitude a -> magnitude b -> magnitude c ->
  (a <? b)%float = true -> (b <? c)%float = true -> (a <? c)%float = true.
Proof. rewrite !FloatAxioms.ltb_spec. apply SFltb_trans. Qed.

Lemma leb_ltb_trans a b c :
  magnitude a -> magnitude b -> magnitude c ->
  (a <=? b)%float = true -> (b <? c)%float = true -> (a <? c)%float = true.
Proof. rewrite !FloatAxioms.ltb_spec, FloatAxioms.leb_spec. apply SFleb_ltb_trans. Qed.

Lemma ltb_false_leb a b :
  magnitude a -> magnitude b -> (a <? b)%float = false -> (b <=? a)%float = true.
Proof. rewrite FloatAxioms.ltb_spec, FloatAxioms.leb_spec. apply SFltb_false_leb. Qed.

(** A number that is not NaN is zero exactly when its absolute value is
    not above zero. *)
Lemma abs_pos_or_zero x :
  Prim2SF x <> S754_nan ->
  (0 <? abs x)%float = negb (x =? 0)%float.
Proof.
  rewrite FloatAxioms.ltb_spec, FloatAxioms.eqb_spec, FloatAxioms.abs_spec.
  change (Prim2SF 0) with (S754_zero false).
  destruct (Prim2SF x) as [[|]|[|]| |[|] m e]; cbn; congruence.
Qed.

Lemma eqb_zero_abs_ltb x a :
  (x =? 0)%float = true -> (0 <? a)%float = true -> (abs x <? a)%float = true.
Proof.
  rewrite !FloatAxioms.ltb_spec, FloatAxioms.eqb_spec, FloatAxioms.abs_spec.
  change (Prim2SF 0) with (S754_zero false).
  destruct (Prim2SF x) as [[|]|[|]| |[|] m e]; cbn; try congruence;
    destruct (Prim2SF a) as [[|]|[|]| |[|] m' e']; cbn; congruence.
Qed.
End FloatOrder.

(** ** Tip Generator *)

Lemma short_step_tip acc k :
  short_step acc k = (acc ++ tips_of short_tip [k])%list.
Proof.
  unfold short_step, tips_of, short_tip, short_tips. cbn -[String.eqb].
  rewrite !(String.eqb_sym k).
  repeat match goal with
         | |- context [String.eqb ?a k] => destruct (String.eqb a k)
         end; cbn; auto using app_nil_r.
Qed.

Lemma long_step_tip acc k :
  long_step acc k = (acc ++ tips_of long_tip [k])%list.
Proof.
  unfold long_step, tips_of, long_tip, long_tips. cbn -[String.eqb].
  rewrite !(String.eqb_sym k).
  repeat match goal with
         | |- context [String.eqb ?a k] => destruct (String.eqb a k)
         end; cbn; auto using app_nil_r.
Qed.

Lemma tips_of_cons tip k ks : tips_of tip (k :: ks) = (tips_of tip [k] ++ tips_of tip ks)%list.
Proof. unfold tips_of; simpl. now rewrite app_nil_r. Qed.

Lemma fold_short_step ks : forall acc,
  fold_left short_step ks acc = (acc ++ tips_of short_tip ks)%list.
Proof.
  induction ks as [|k ks IH]; intros acc; cbn [fold_left].
  - unfold tips_of; simpl. now rewrite app_nil_r.
  - rewrite IH, short_step_tip, (tips_of_cons _ k ks). now rewrite app_assoc.
Qed.

Lemma fold_long_step ks : forall acc,
  fold_left long_step ks acc = (acc ++ tips_of long_tip ks)%list.
Proof.
  induction ks as [|k ks IH]; intros acc; cbn [fold_left].
  - unfold tips_of; simpl. now rewrite app_nil_r.
  - rewrite IH, long_step_tip, (tips_of_cons _ k ks). now rewrite app_assoc.
Qed.

Lemma unknown_key_no_tip k :
  In k canonical_keys \/ (short_tip k = None /\ long_tip k = None).
Proof.
  unfold short_tip, long_tip, short_tips, long_tips, canonical_keys.
  cbn -[String.eqb].
  repeat match goal with
         | |- context [String.eqb ?a k] =>
             let E := fresh "E" in
             destruct (String.eqb a k) eqn:E;
             [apply String.eqb_eq in E; subst k; tauto|]
         end.
  tauto.
Qed.

(** C8.  [generate_tips] turns the keys of [weaknesses] into the short-term
    tips and the keys of [strengths] into the long-term tips, in the
    iteration order of each mapping: every canonical key contributes its one
    fixed advice string of that list, every other key contributes nothing.
    In particular weaknesses holding only ["shots"] give exactly the shots
    advice as short-term tips. *)
Theorem generate_tips_fixed_advice_in_order :
  forall strengths weaknesses : dict float,
    generate_tips strengths weaknesses
    = (tips_of short_tip (keys weaknesses), tips_of long_tip (keys strengths))
    /\ (map short_tip canonical_keys
        = [Some short_boost_usage; Some short_flip_count;
           Some short_shots; Some short_goals]
        /\ map long_tip canonical_keys
           = [Some long_boost_usage; Some long_flip_count;
              Some long_shots; Some long_goals])
    /\ (forall k, In k canonical_keys
                  \/ (short_tip k = None /\ long_tip k = None))
    /\ (forall v, fst (generate_tips strengths [("shots", v)]) = [short_shots]).
Proof.
  intros strengths weaknesses. split; [|split; [|split]].
  - unfold generate_tips. now rewrite fold_short_step, fold_long_step.
  - split; reflexivity.
  - apply unknown_key_no_tip.
  - reflexivity.
Qed.

(** ** Extractor: how a run proceeds *)

Lemma bind_Ok {A B : Type} (r : result A) (k : A -> result B) (b : B) :
  bind r k = Ok b -> exists a, r = Ok a /\ k a = Ok b.
Proof. destruct r as [a|e]; cbn; [eauto | discriminate]. Qed.

Lemma div_Ok b t ratio :
  PyFloat.div b t = Ok ratio -> (t =? 0)%float = false /\ ratio = (b / t)%float.
Proof.
  unfold PyFloat.div. destruct (t =? 0)%float; [discriminate|].
  intros [= <-]. auto.
Qed.

(** What a successful run on a mapping went through. *)
Lemma parse_match_data_dict data m :
  parse_match_data (Some (JDict data)) = Ok m ->
  exists flips boost total ratio shots goals,
    scan_events (dict_get_default data "events" (JList []))
      (dict_get_default data "boost_frames" JNull) = Ok (flips, boost)
    /\ default_total_frames (dict_get_default data "events" (JList []))
         (dict_get_default data "total_frames" JNull) = Ok total
    /\ boost_usage_ratio (default_boost_frames boost) total = Ok ratio
    /\ py_float (number_or_zero (dict_get_default data "shots" JNull)) = Ok shots
    /\ py_float (number_or_zero (dict_get_default data "goals" JNull)) = Ok goals
    /\ m = [("boost_usage", PyFloat.round3 ratio);
            ("flip_count", PyFloat.of_len flips);
            ("shots", shots); ("goals", goals)].
Proof.
  unfold parse_match_data. intros H.
  apply bind_Ok in H as ([flips boost] & H1 & H).
  apply bind_Ok in H as (total & H2 & H).
  apply bind_Ok in H as (ratio & H3 & H).
  apply bind_Ok in H as (shots & H4 & H).
  apply bind_Ok in H as (goals & H5 & H).
  injection H as <-.
  exists flips, boost, total, ratio, shots, goals. auto 10.
Qed.

(** One event leaves [boost_frames] as it was, or sets it from [None]
    to 1. *)
Lemma event_step_boost st event :
  snd (event_step st event) = snd st
  \/ (snd st = JNull /\ snd (event_step st event) = JInt 1).
Proof.
  destruct st as [fc bf]. unfold event_step.
  destruct event; cbn [snd]; auto.
  destruct bf; cbn [snd]; auto.
  destruct (name_is _ _ || name_is _ _); auto.
Qed.

(** So does the whole loop: a count that has left [None] is never raised
    again. *)
Lemma event_loop_boost evs : forall st,
  snd (fold_left event_step evs st) = snd st
  \/ (snd st = JNull /\ snd (fold_left event_step evs st) = JInt 1).
Proof.
  induction evs as [|ev evs IH]; intros st; cbn [fold_left]; [now left|].
  destruct (IH (event_step st ev)) as [E | [H1 E]]; rewrite E;
    destruct (event_step_boost st ev) as [H2 | [H2 H3]].
  - now left.
  - now right.
  - right. now rewrite <- H2.
  - rewrite H3 in H1. discriminate.
Qed.

Lemma scan_events_boost events boost_frames flips boost :
  scan_events events boost_frames = Ok (flips, boost) ->
  boost = boost_frames \/ (boost_frames = JNull /\ boost = JInt 1).
Proof.
  unfold scan_events. destruct (py_bool events).
  - intros H. apply bind_Ok in H as (evs & _ & H). injection H as H.
    pose proof (event_loop_boost evs (0%nat, boost_frames)) as Hl.
    rewrite H in Hl. exact Hl.
  - intros [= _ <-]. now left.
Qed.

Lemma default_total_frames_absent events total :
  default_total_frames events JNull = Ok total ->
  exists n, py_len events = Ok n /\ total = JInt (Z.of_nat (Nat.max n 1)).
Proof.
  unfold default_total_frames. intros H.
  apply bind_Ok in H as (n & Hn & [= <-]). eauto.
Qed.

(** The ratio of a successful run is the one of its effective frame
    counts: nothing clamps it. *)
Lemma effective_frames_run data m :
  parse_match_data (Some (JDict data)) = Ok m ->
  exists boost total ratio,
    effective_frames (Some (JDict data)) = Some (boost, total)
    /\ boost_usage_ratio boost total = Ok ratio
    /\ dict_get m "boost_usage" = Some (PyFloat.round3 ratio).
Proof.
  intros H. apply parse_match_data_dict in H
    as (flips & boost & total & ratio & shots & goals & H1 & H2 & H3 & _ & _ & ->).
  exists (default_boost_frames boost), total, ratio.
  cbn [effective_frames]. rewrite H1, H2. auto.
Qed.

(** Without overrides the effective counts are 0 or 1 boost frames out of
    [max(len(events), 1)]. *)
Lemma effective_frames_without_overrides data boost total :
  dict_get_default data "boost_frames" JNull = JNull ->
  dict_get_default data "total_frames" JNull = JNull ->
  effective_frames (Some (JDict data)) = Some (boost, total) ->
  exists b,
    boost = JInt b /\ 0 <= b <= 1
    /\ total = JInt (Z.of_nat (Nat.max (event_count (Some (JDict data))) 1)).
Proof.
  intros Hbf Htf. cbn [effective_frames event_count]. rewrite Hbf, Htf.
  destruct (scan_events _ JNull) as [[flips boost']|] eqn:H1; [|discriminate].
  destruct (default_total_frames _ JNull) as [total'|] eqn:H2; [|discriminate].
  intros [= <- <-].
  apply scan_events_boost in H1.
  apply default_total_frames_absent in H2 as (n & -> & ->).
  destruct H1 as [-> | [_ ->]]; [exists 0 | exists 1]; repeat split; lia.
Qed.

(** ** Extractor: evaluations *)

(** C1.  On the example record of the specification the program returns
    [boost_usage = 0.333], not [0.667]: the guard [boost_frames is None]
    (line 172) is tested again for every event, so once the first boost
    event has set [boost_frames] to 1 no later boost event is counted.
    Whatever the events, the derived count ends as [None] or 1. *)
Theorem extract_spec_example_counts_one_boost :
  parse_match_data (Some spec_example_record)
  = Ok [("boost_usage", 0.333); ("flip_count", 1);
        ("shots", 0); ("goals", 0)]%float
  /\ (forall events flips boost,
        scan_events events JNull = Ok (flips, boost) ->
        boost = JNull \/ boost = JInt 1).
Proof.
  split; [reflexivity|].
  intros events flips boost H.
  destruct (scan_events_boost _ _ _ _ H) as [-> | [_ ->]]; auto.
Qed.

(** C2.  Undecodable input gives the all-zero tuple, but decoded data that
    is not a mapping makes [data.get] raise [AttributeError] outside the
    [try]; a mapping can raise too ([len(None)], [float("0")] as divisor,
    an [int] too large for a float). *)
Theorem extract_raises_on_decoded_non_mapping :
  parse_match_data None = Ok zero_metrics
  /\ (forall data,
        match data with
        | JDict _ => True
        | _ => parse_match_data (Some data) = Raise AttributeError
        end)
  /\ parse_match_data (Some (JList [JInt 1; JInt 2])) = Raise AttributeError
  /\ parse_match_data (Some (JDict [("events", JNull)])) = Raise TypeError
  /\ parse_match_data (Some (JDict [("total_frames", JStr "0")]))
     = Raise ZeroDivisionError
  /\ parse_match_data (Some (JDict [("shots", JInt (10 ^ 400))]))
     = Raise OverflowError.
Proof.
  repeat split; try reflexivity.
  intros data. destruct data; try exact I; reflexivity.
Qed.

(** Against C3 as stated: the record
    [{"boost_frames": 5, "total_frames": 2}] succeeds with
    [boost_usage = 2.5]. *)
Lemma boost_usage_override_above_one :
  exists m v,
    parse_match_data
      (Some (JDict [("boost_frames", JInt 5); ("total_frames", JInt 2)]))
    = Ok m
    /\ dict_get m "boost_usage" = Some v
    /\ v = 2.5%float
    /\ (v <=? 1)%float = false.
Proof.
  eexists. eexists. split; [reflexivity|]. repeat split; reflexivity.
Qed.

(** Against C4 as stated: the record [{"shots": -3}] succeeds with
    [shots = -3.0]. *)
Lemma negative_shots_override_passed_through :
  exists m v,
    parse_match_data (Some (JDict [("shots", JInt (-3))])) = Ok m
    /\ dict_get m "shots" = Some v
    /\ v = (-3)%float
    /\ (0 <=? v)%float = false.
Proof.
  eexists. eexists. split; [reflexivity|]. repeat split; reflexivity.
Qed.

(** ** Extractor: the range of the ratio *)

Module ExtractFacts.
Import SpecFacts SpecRound SpecBounds RoundFacts.

Lemma of_int_small z x :
  0 <= z < 2 ^ 63 -> PyFloat.of_int z = Some x -> small_nonneg (Prim2SF x).
Proof.
  intros Hz. unfold PyFloat.of_int.
  replace (Z.abs z <? 2 ^ 63) with true by (symmetry; apply Z.ltb_lt; lia).
  replace (z <? 0) with false by (symmetry; apply Z.ltb_ge; lia).
  intros [= <-]. apply of_uint63_small.
Qed.

Lemma of_int_spec z x :
  0 <= z < 2 ^ 63 -> PyFloat.of_int z = Some x ->
  Prim2SF x = binary_normalize prec emax z 0 false.
Proof.
  intros Hz. unfold PyFloat.of_int.
  replace (Z.abs z <? 2 ^ 63) with true by (symmetry; apply Z.ltb_lt; lia).
  replace (z <? 0) with false by (symmetry; apply Z.ltb_ge; lia).
  intros [= <-]. rewrite FloatAxioms.of_uint63_spec, Uint63.of_Z_spec.
  now rewrite Z.mod_small by (change wB with (2 ^ 63); lia).
Qed.

(** The rounded quotient of two integer frame counts [b <= t] is in
    [[0, 1]]. *)
Lemma int_ratio_unit b t xb xt :
  0 <= b <= t -> b < 2 ^ 53 -> t < 2 ^ 63 ->
  PyFloat.of_int b = Some xb -> PyFloat.of_int t = Some xt ->
  (xt =? 0)%float = false ->
  in_unit_interval (PyFloat.round3 (xb / xt)).
Proof.
  intros Hbt Hb Ht Eb Et Hz.
  apply of_int_spec in Eb; [|lia]. apply of_int_spec in Et; [|lia].
  pose proof (Prim2SF_valid xt) as Hv.
  rewrite FloatAxioms.eqb_spec, Et in Hz. rewrite Et in Hv.
  destruct t as [|pt|pt]; [discriminate | | lia].
  destruct (binary_normalize_pos pt Ht) as [E | (mt & et & E & Het & Hdt)];
    rewrite E in Hz, Hv, Et; [discriminate|].
  destruct (bounded_spec mt et Hv) as [Hc _].
  assert (Hdmt : Zpos (digits2_pos mt) = 53) by lia.
  destruct b as [|pb|pb]; [| | lia].
  - assert (E0 : (xb / xt)%float = 0%float).
    { apply Prim2SF_inj. rewrite FloatAxioms.div_spec, Eb, Et. reflexivity. }
    rewrite E0. split; reflexivity.
  - destruct (binary_normalize_exact pb Hb) as (mb & eb & E' & Hdmb & Heb & Hmb).
    rewrite E' in Eb.
    assert (Hord : eb < et \/ (eb = et /\ Zpos mb <= Zpos mt)).
    { destruct (Z_lt_le_dec (Zpos pt) (2 ^ 53)) as [Hsmall | Hbig].
      - destruct (binary_normalize_exact pt Hsmall)
          as (mt' & et' & E'' & Hdmt' & Het' & Hmt').
        rewrite E in E''. injection E'' as <- <-.
        apply (exact_order pb pt); auto; try lia;
          now apply digits2_pos_53.
      - left. pose proof (digits2_pos_gt pt 53 ltac:(lia) Hbig). lia. }
    destruct (SFdiv_le_one mb eb mt et Hdmb Hdmt) as (mq & eq & Hq & Heq & Hmq);
      [lia | lia | exact Hord |].
    apply (round3_unit _ mq eq); auto.
    rewrite FloatAxioms.div_spec, Eb, Et. exact Hq.
Qed.

(** The same for the ratio as line 185 computes it. *)
Lemma boost_usage_ratio_unit b t ratio :
  0 <= b <= t -> b < 2 ^ 53 -> t < 2 ^ 63 ->
  boost_usage_ratio (JInt b) (JInt t) = Ok ratio ->
  in_unit_interval (PyFloat.round3 ratio).
Proof.
  intros Hbt Hb Ht Hr.
  unfold boost_usage_ratio in Hr. cbn [py_bool] in Hr.
  destruct (t =? 0) eqn:Et0.
  - injection Hr as <-. split; reflexivity.
  - cbn [negb] in Hr.
    apply bind_Ok in Hr as (xb & Hxb & Hr).
    apply bind_Ok in Hr as (xt & Hxt & Hr).
    apply div_Ok in Hr as [Hz ->].
    cbn [py_float] in Hxb, Hxt.
    destruct (PyFloat.of_int b) as [xb'|] eqn:Eb; [|discriminate].
    destruct (PyFloat.of_int t) as [xt'|] eqn:Et; [|discriminate].
    injection Hxb as <-. injection Hxt as <-.
    apply (int_ratio_unit b t); auto.
Qed.

End ExtractFacts.

(** C3, as amended.  [boost_usage] is the rounded ratio of the effective
    frame counts, with no clamping.  It lies in [[0, 1]] whenever those
    counts are integers with [0 <= boost_frames <= total_frames] (below the
    sizes where a float stops being exact), and so whenever the record
    supplies neither count: then they are derived from the events. *)
Theorem boost_usage_in_unit_interval_for_ordered_frames :
  forall (file : option json) (m : dict float),
    parse_match_data file = Ok m ->
    ((file = None /\ m = zero_metrics)
     \/ exists boost total ratio,
         effective_frames file = Some (boost, total)
         /\ boost_usage_ratio boost total = Ok ratio
         /\ dict_get m "boost_usage" = Some (PyFloat.round3 ratio))
    /\ (forall b t,
           effective_frames file = Some (JInt b, JInt t) ->
           0 <= b <= t -> b < 2 ^ 53 -> t < 2 ^ 63 ->
           exists v, dict_get m "boost_usage" = Some v /\ in_unit_interval v)
    /\ (override file "boost_frames" = JNull ->
        override file "total_frames" = JNull ->
        Z.of_nat (event_count file) < 2 ^ 63 ->
        exists v, dict_get m "boost_usage" = Some v /\ in_unit_interval v).
Proof.
  intros file m H.
  assert (Hordered :
            forall b t,
              effective_frames file = Some (JInt b, JInt t) ->
              0 <= b <= t -> b < 2 ^ 53 -> t < 2 ^ 63 ->
              exists v, dict_get m "boost_usage" = Some v /\ in_unit_interval v).
  { intros b t He Hbt Hb Ht.
    destruct file as [[| | | | | |data]|]; try discriminate.
    destruct (effective_frames_run data m H)
      as (boost & total & ratio & He' & Hr & Hm).
    rewrite He in He'. injection He' as <- <-.
    exists (PyFloat.round3 ratio). split; [exact Hm|].
    now apply (ExtractFacts.boost_usage_ratio_unit b t). }
  split; [|split; [exact Hordered|]].
  - destruct file as [[| | | | | |data]|]; try discriminate.
    + right. now apply effective_frames_run.
    + left. now injection H as <-.
  - intros Hbf Htf Hn.
    destruct file as [[| | | | | |data]|]; try discriminate.
    2:{ injection H as <-. exists 0%float. repeat split; reflexivity. }
    destruct (effective_frames_run data m H) as (boost & total & ratio & He & _ & _).
    destruct (effective_frames_without_overrides data boost total Hbf Htf He)
      as (b & -> & Hb & ->).
    apply (Hordered _ _ He); lia.
Qed.

(** The theorem at a record with explicit counts in order and at the
    example record of the specification, which has none. *)
Lemma boost_usage_in_unit_interval_for_ordered_frames_witness :
  parse_match_data (Some ordered_frames_record)
  = Ok [("boost_usage", 0.75); ("flip_count", 0);
        ("shots", 0); ("goals", 0)]%float
  /\ (exists v,
        dict_get [("boost_usage", 0.75); ("flip_count", 0);
                  ("shots", 0); ("goals", 0)]%float "boost_usage" = Some v
        /\ in_unit_interval v)
  /\ parse_match_data (Some spec_example_record)
     = Ok [("boost_usage", 0.333); ("flip_count", 1);
           ("shots", 0); ("goals", 0)]%float
  /\ (exists v,
        dict_get [("boost_usage", 0.333); ("flip_count", 1);
                  ("shots", 0); ("goals", 0)]%float "boost_usage" = Some v
        /\ in_unit_interval v).
Proof.
  split; [reflexivity|]. split.
  - apply (proj1 (proj2 (boost_usage_in_unit_interval_for_ordered_frames
                           (Some ordered_frames_record) _ eq_refl)) 3 4).
    + reflexivity.
    + lia.
    + lia.
    + lia.
  - split; [reflexivity|].
    apply (proj2 (proj2 (boost_usage_in_unit_interval_for_ordered_frames
                           (Some spec_example_record) _ eq_refl))).
    + reflexivity.
    + reflexivity.
    + cbn. lia.
Defined.

(** ** Extractor: signs *)

Module SignFacts.
Import SpecFacts SpecBounds RoundFacts.

Lemma py_float_nonneg_frames v x :
  nonneg_frames v = true -> py_float v = Ok x ->
  ge0 (Prim2SF x) /\ finite (Prim2SF x) = true.
Proof.
  destruct v as [| [|] | z | y | | |]; cbn [nonneg_frames py_float];
    try discriminate; intros Hv.
  - intros [= <-]. split; reflexivity.
  - intros [= <-]. split; reflexivity.
  - apply andb_prop in Hv as [H0 H1].
    apply Z.leb_le in H0. apply Z.ltb_lt in H1.
    destruct (PyFloat.of_int z) as [x'|] eqn:E; [|discriminate].
    intros [= <-].
    apply small_nonneg_ge0, (ExtractFacts.of_int_small z); auto.
  - apply andb_prop in Hv as [H0 H1]. intros [= <-]. split.
    + now apply leb_zero_ge0.
    + now apply FloatOrder.is_finite_spec.
Qed.

Lemma py_float_nonneg_number v x :
  nonneg_number v = true -> py_float (number_or_zero v) = Ok x ->
  ge0 (Prim2SF x).
Proof.
  unfold number_or_zero.
  destruct v as [| [|] | z | y | | |]; cbn [nonneg_number is_number py_float];
    intros Hv; try (intros [= <-]; reflexivity).
  - apply Z.leb_le in Hv.
    destruct (PyFloat.of_int z) as [x'|] eqn:E; [|discriminate].
    intros [= <-]. now apply (of_int_ge0 z).
  - intros [= <-]. now apply leb_zero_ge0.
Qed.

Lemma effective_boost_nonneg boost_frames boost :
  nonneg_frames boost_frames = true ->
  boost = boost_frames \/ (boost_frames = JNull /\ boost = JInt 1) ->
  nonneg_frames (default_boost_frames boost) = true.
Proof.
  intros Hv [-> | [_ ->]]; [|reflexivity].
  destruct boost_frames; cbn in *; auto.
Qed.

Lemma effective_total_ge0 events total_frames total x :
  nonneg_frames total_frames = true ->
  default_total_frames events total_frames = Ok total ->
  py_float total = Ok x -> ge0 (Prim2SF x).
Proof.
  intros Hv Ht Hx.
  destruct total_frames as [| b | z | y | | |];
    try discriminate;
    try (injection Ht as <-; now apply (py_float_nonneg_frames _ x Hv)).
  apply default_total_frames_absent in Ht as (n & _ & ->).
  cbn [py_float] in Hx.
  destruct (PyFloat.of_int _) as [x'|] eqn:E; [|discriminate].
  injection Hx as <-. apply (of_int_ge0 _ _ (Zle_0_nat _) E).
Qed.

Lemma ratio_ge0 boost total ratio :
  (forall x, py_float boost = Ok x ->
             ge0 (Prim2SF x) /\ finite (Prim2SF x) = true) ->
  (forall x, py_float total = Ok x -> ge0 (Prim2SF x)) ->
  boost_usage_ratio boost total = Ok ratio ->
  ge0 (Prim2SF ratio).
Proof.
  intros Hb Ht. unfold boost_usage_ratio.
  destruct (py_bool total); [|intros [= <-]; reflexivity].
  intros H.
  apply bind_Ok in H as (b & Eb & H).
  apply bind_Ok in H as (t & Et & H).
  apply div_Ok in H as [Hz ->].
  destruct (Hb b Eb) as [Hb0 Hbf].
  apply div_ge0; auto.
Qed.

End SignFacts.

(** C4, as amended.  A result always holds exactly the four canonical
    keys, with a [flip_count] that is not below zero and with [shots] and
    [goals] the record's own numbers as floats (0 for what is not a
    number).  So [shots] and [goals] are not below zero unless the record
    supplies a number below zero (or NaN) for them; and [boost_usage] is not
    below zero when each of [boost_frames] and [total_frames] is absent or a
    finite number that is not below zero. *)
Theorem extract_keys_and_nonnegative_values :
  forall (file : option json) (m : dict float),
    parse_match_data file = Ok m ->
    exists boost_usage flip_count shots goals,
      m = [("boost_usage", boost_usage); ("flip_count", flip_count);
           ("shots", shots); ("goals", goals)]
      /\ keys m = canonical_keys
      /\ (0 <=? flip_count)%float = true
      /\ py_float (number_or_zero (override file "shots")) = Ok shots
      /\ py_float (number_or_zero (override file "goals")) = Ok goals
      /\ (nonneg_number (override file "shots") = true ->
          (0 <=? shots)%float = true)
      /\ (nonneg_number (override file "goals") = true ->
          (0 <=? goals)%float = true)
      /\ (nonneg_frames (override file "boost_frames") = true ->
          nonneg_frames (override file "total_frames") = true ->
          (0 <=? boost_usage)%float = true).
Proof.
  intros [[| | | | | |data]|] m H; try discriminate.
  2:{ injection H as <-. exists 0%float, 0%float, 0%float, 0%float.
      repeat split; reflexivity. }
  cbn [override].
  apply parse_match_data_dict in H
    as (flips & boost & total & ratio & shots & goals
        & H1 & H2 & H3 & H4 & H5 & ->).
  exists (PyFloat.round3 ratio), (PyFloat.of_len flips), shots, goals.
  split; [reflexivity|]. split; [reflexivity|].
  split; [|split; [exact H4|split; [exact H5|]]].
  { apply RoundFacts.leb_zero_ge0, RoundFacts.of_len_ge0. }
  split; [|split].
  - intros Hv. apply RoundFacts.leb_zero_ge0.
    now apply (SignFacts.py_float_nonneg_number _ _ Hv).
  - intros Hv. apply RoundFacts.leb_zero_ge0.
    now apply (SignFacts.py_float_nonneg_number _ _ Hv).
  - intros Hb Ht.
    apply RoundFacts.leb_zero_ge0, RoundFacts.round3_ge0.
    apply (SignFacts.ratio_ge0 (default_boost_frames boost) total); auto.
    + intros x. apply SignFacts.py_float_nonneg_frames.
      apply (SignFacts.effective_boost_nonneg _ boost Hb).
      exact (scan_events_boost _ _ flips boost H1).
    + intros x. now apply (SignFacts.effective_total_ge0 _ _ _ x Ht H2).
Qed.

(** The theorem at a record whose overrides are not below zero. *)
Lemma extract_keys_and_nonnegative_values_witness :
  parse_match_data (Some nonneg_overrides_record)
  = Ok [("boost_usage", 0.25); ("flip_count", 1);
        ("shots", 2); ("goals", 1.5)]%float
  /\ exists boost_usage flip_count shots goals,
      [("boost_usage", 0.25); ("flip_count", 1);
       ("shots", 2); ("goals", 1.5)]%float
      = [("boost_usage", boost_usage); ("flip_count", flip_count);
         ("shots", shots); ("goals", goals)]
      /\ (0 <=? flip_count)%float = true
      /\ (0 <=? shots)%float = true
      /\ (0 <=? goals)%float = true
      /\ (0 <=? boost_usage)%float = true.
Proof.
  split; [reflexivity|].
  destruct (extract_keys_and_nonnegative_values
              (Some nonneg_overrides_record) _ eq_refl)
    as (bu & fc & sh & go & Hm & _ & Hfc & _ & _ & Hsh & Hgo & Hbu).
  exists bu, fc, sh, go. split; [exact Hm|]. split; [exact Hfc|].
  split; [apply Hsh; reflexivity|]. split; [apply Hgo; reflexivity|].
  apply Hbu; reflexivity.
Defined.

(** ** Aggregator *)

Lemma add_metrics_tuple (a t : metrics) :
  add_metrics (metrics_dict a) (metrics_json t)
  = Ok (metrics_dict
          {| boost_usage := boost_usage a + boost_usage t;
             flip_count := flip_count a + flip_count t;
             shots := shots a + shots t;
             goals := goals a + goals t |}%float).
Proof. reflexivity. Qed.

Lemma add_rows_tuples (rows : list (option metrics)) : forall a : metrics,
  add_rows (stored_rows rows) (metrics_dict a)
  = Ok (metrics_dict
          {| boost_usage :=
               fold_left PrimFloat.add (map boost_usage (decoded rows)) (boost_usage a);
             flip_count :=
               fold_left PrimFloat.add (map flip_count (decoded rows)) (flip_count a);
             shots :=
               fold_left PrimFloat.add (map shots (decoded rows)) (shots a);
             goals :=
               fold_left PrimFloat.add (map goals (decoded rows)) (goals a) |}).
Proof.
  unfold add_rows.
  induction rows as [|[t|] rows IH]; intros a.
  - now destruct a.
  - cbn [stored_rows map option_map fold_left bind decoded].
    rewrite add_metrics_tuple. apply IH.
  - cbn [stored_rows map option_map fold_left bind decoded]. apply IH.
Qed.

Lemma average_rows_tuples (rows : list (option metrics)) :
  average_rows (stored_rows rows)
  = Ok (metrics_dict
          match rows with
          | [] => {| boost_usage := 0; flip_count := 0; shots := 0; goals := 0 |}
          | _ => averaged (decoded rows) (List.length rows)
          end).
Proof.
  destruct rows as [|r rows]; [reflexivity|].
  unfold average_rows.
  change (stored_rows (r :: rows))
    with (option_map metrics_json r :: stored_rows rows) at 1.
  cbv beta iota.
  change zero_metrics
    with (metrics_dict
            {| boost_usage := 0; flip_count := 0; shots := 0; goals := 0 |}).
  rewrite (add_rows_tuples (r :: rows)).
  unfold stored_rows. rewrite length_map. reflexivity.
Qed.

Lemma stored_stored_rows ts : stored ts = stored_rows (map Some ts).
Proof. unfold stored, stored_rows. now rewrite map_map. Qed.

Lemma decoded_map_Some ts : decoded (map Some ts) = ts.
Proof. induction ts; simpl; congruence. Qed.

(** The cohort baseline is averaged by the same code. *)
Lemma get_streamer_average_same rows :
  get_streamer_average rows = aggregate_user_metrics rows.
Proof. reflexivity. Qed.

(** C10.  A stored row whose text does not decode adds nothing to the
    per-key totals but is counted in the divisor: the result is the sum over
    the rows that decode, divided by the number of all rows (and rounded).
    So one tuple stored beside one undecodable row is halved. *)
Theorem undecodable_rows_count_in_divisor :
  (forall rows : list (option metrics),
     aggregate_user_metrics (stored_rows rows)
     = Ok (metrics_dict
             match rows with
             | [] => {| boost_usage := 0; flip_count := 0;
                        shots := 0; goals := 0 |}
             | _ => averaged (decoded rows) (List.length rows)
             end))
  /\ aggregate_user_metrics
       (stored_rows
          [Some {| boost_usage := 1; flip_count := 2; shots := 4; goals := 6 |};
           None])
     = Ok (metrics_dict
             {| boost_usage := 0.5; flip_count := 1; shots := 2; goals := 3 |}).
Proof.
  split; [exact average_rows_tuples | reflexivity].
Qed.

Lemma round3_add_zero (x : float) :
  same_number (PyFloat.round3 (0 + x)) (PyFloat.round3 x).
Proof.
  destruct (SpecFacts.spec_float_eq_zero_true (Prim2SF x)) as [E | E].
  - assert (x = neg_zero) as -> by now apply Prim2SF_inj.
    right. split; reflexivity.
  - left. now rewrite SpecRound.add_zero_l.
Qed.

(** C7.  For tuples that were stored and decode again, the aggregate is the
    per-key arithmetic mean rounded to three decimals; the empty collection
    gives the all-zero tuple; a single tuple gives that tuple rounded, key
    by key. *)
Theorem aggregate_is_rounded_mean :
  (forall ts : list metrics,
     aggregate_user_metrics (stored ts) = Ok (metrics_dict (aggregate_spec ts)))
  /\ aggregate_user_metrics (stored []) = Ok zero_metrics
  /\ (forall t : metrics,
        exists m,
          aggregate_user_metrics (stored [t]) = Ok (metrics_dict m)
          /\ same_number (boost_usage m) (PyFloat.round3 (boost_usage t))
          /\ same_number (flip_count m) (PyFloat.round3 (flip_count t))
          /\ same_number (shots m) (PyFloat.round3 (shots t))
          /\ same_number (goals m) (PyFloat.round3 (goals t))).
Proof.
  assert (H : forall ts : list metrics,
             aggregate_user_metrics (stored ts)
             = Ok (metrics_dict (aggregate_spec ts))).
  { intros ts. unfold aggregate_user_metrics.
    rewrite stored_stored_rows, average_rows_tuples.
    destruct ts as [|t ts]; [reflexivity|].
    cbn [map]. rewrite <- (map_cons Some t ts), decoded_map_Some, length_map.
    reflexivity. }
  split; [exact H|]. split; [reflexivity|].
  intros t. exists (aggregate_spec [t]). split; [apply H|].
  unfold aggregate_spec, averaged, fsum. cbn [map fold_left List.length boost_usage
    flip_count shots goals].
  change (PyFloat.of_len 1) with 1%float.
  rewrite !SpecRound.div_one.
  repeat split; apply round3_add_zero.
Qed.

(** ** Comparator *)


Section CompareFacts.
Variable avg : dict float.

Lemma compare_step_strengths st item :
  strengths (compare_step avg st item) = set_if (strength_of avg) (strengths st) item.
Proof.
  unfold compare_step, set_if, strength_of, delta_of. destruct item as [k v]. cbn [fst snd].
  destruct (0 <? _)%float; [|destruct (_ <? 0)%float];
    destruct (biggest_delta st <? _)%float; reflexivity.
Qed.

Lemma compare_step_weaknesses st item :
  weaknesses (compare_step avg st item) = set_if (weakness_of avg) (weaknesses st) item.
Proof.
  unfold compare_step, set_if, weakness_of, delta_of. destruct item as [k v]. cbn [fst snd].
  destruct (0 <? _)%float; [|destruct (_ <? 0)%float];
    destruct (biggest_delta st <? _)%float; reflexivity.
Qed.

Lemma compare_fold_strengths l : forall st,
  strengths (fold_left (compare_step avg) l st)
  = fold_left (set_if (strength_of avg)) l (strengths st).
Proof.
  induction l as [|item l IH]; intros st; cbn [fold_left]; [reflexivity|].
  now rewrite IH, compare_step_strengths.
Qed.

Lemma compare_fold_weaknesses l : forall st,
  weaknesses (fold_left (compare_step avg) l st)
  = fold_left (set_if (weakness_of avg)) l (weaknesses st).
Proof.
  induction l as [|item l IH]; intros st; cbn [fold_left]; [reflexivity|].
  now rewrite IH, compare_step_weaknesses.
Qed.
End CompareFacts.

Lemma fold_set_if_get c (l : dict float) :
  NoDup (keys l) ->
  forall init k,
    dict_get (fold_left (set_if c) l init) k
    = match dict_get l k with
      | Some v =>
          match c (k, v) with
          | Some x => Some x
          | None => dict_get init k
          end
      | None => dict_get init k
      end.
Proof.
  induction l as [|[k0 v0] l IH]; intros Hnd init k; cbn [fold_left dict_get].
  - reflexivity.
  - inversion Hnd as [|? ? Hnotin Hnd']; subst.
    rewrite (IH Hnd').
    destruct (String.eqb k0 k) eqn:E.
    + apply String.eqb_eq in E. subst k0.
      apply dict_get_None_notin in Hnotin. rewrite Hnotin.
      unfold set_if. cbn [fst]. destruct (c (k, v0)); [|reflexivity].
      apply dict_get_set_same.
    + apply String.eqb_neq in E.
      assert (Hi : dict_get (set_if c init (k0, v0)) k = dict_get init k).
      { unfold set_if. cbn [fst]. destruct (c (k0, v0)); [|reflexivity].
        apply dict_get_set_other. congruence. }
      rewrite Hi. reflexivity.
Qed.

(** C6.  For every key of the subject, with
    [delta = subject[key] - baseline.get(key, 0.0)]: when [delta > 0] the
    key is in strengths with magnitude [round(delta, 3)] and not in
    weaknesses; when [delta < 0] it is in weaknesses with magnitude
    [round(-delta, 3)] and not in strengths; when [delta == 0] it is in
    neither.  No key at all is in both. *)
Theorem compare_classifies_each_key :
  forall user_metrics streamer_avg : dict float,
    NoDup (keys user_metrics) ->
    let r := compute_strengths_and_weaknesses user_metrics streamer_avg in
    let strengths := fst (fst r) in
    let weaknesses := snd (fst r) in
    (forall key user_val,
        In (key, user_val) user_metrics ->
        let delta := (user_val - dict_get_default streamer_avg key 0)%float in
        ((0 <? delta)%float = true ->
         dict_get strengths key = Some (PyFloat.round3 delta)
         /\ dict_get weaknesses key = None)
        /\ ((delta <? 0)%float = true ->
            dict_get weaknesses key = Some (PyFloat.round3 (- delta))
            /\ dict_get strengths key = None)
        /\ ((delta =? 0)%float = true ->
            dict_get strengths key = None /\ dict_get weaknesses key = None))
    /\ (forall key,
           dict_get strengths key = None \/ dict_get weaknesses key = None).
Proof.
  intros user avg Hnd r st we. subst st we r.
  unfold compute_strengths_and_weaknesses, compare_loop. cbn [fst snd].
  rewrite compare_fold_strengths, compare_fold_weaknesses.
  cbn [strengths weaknesses].
  assert (HS : forall k, dict_get (fold_left (set_if (strength_of avg)) user []) k
                         = match dict_get user k with
                           | Some v => strength_of avg (k, v)
                           | None => None
                           end).
  { intros k. rewrite (fold_set_if_get _ _ Hnd). cbn [dict_get].
    destruct (dict_get user k); [destruct (strength_of avg _)|]; reflexivity. }
  assert (HW : forall k, dict_get (fold_left (set_if (weakness_of avg)) user []) k
                         = match dict_get user k with
                           | Some v => weakness_of avg (k, v)
                           | None => None
                           end).
  { intros k. rewrite (fold_set_if_get _ _ Hnd). cbn [dict_get].
    destruct (dict_get user k); [destruct (weakness_of avg _)|]; reflexivity. }
  split.
  - intros key v Hin. rewrite HS, HW, (dict_get_In _ _ _ Hnd Hin).
    unfold strength_of, weakness_of, delta_of. cbn [fst snd].
    set (delta := (v - dict_get_default avg key 0)%float).
    split; [|split]; intros H.
    + now rewrite H.
    + now rewrite (FloatFacts.ltb_zero_asym _ H), H.
    + now destruct (FloatFacts.eqb_zero_not_ltb _ H) as [-> ->].
  - intros key. rewrite HS, HW. destruct (dict_get user key) as [v|]; [|now left].
    unfold strength_of, weakness_of. destruct (0 <? _)%float; [now right | now left].
Qed.

Lemma compare_step_self (x : dict float) st k v :
  dict_get x k = Some v ->
  biggest_delta st = 0%float ->
  compare_step x st (k, v) = st.
Proof.
  intros Hget Hbd. unfold compare_step, dict_get_default. rewrite Hget, Hbd.
  destruct (FloatFacts.sub_diag_cmp v) as (-> & -> & ->).
  destruct st; cbn in *. now subst.
Qed.

(** C9.  Comparing a tuple with itself gives empty strengths, empty
    weaknesses and no largest-delta key. *)
Theorem compare_with_itself_is_empty :
  forall x : dict float,
    NoDup (keys x) ->
    compute_strengths_and_weaknesses x x = ([], [], None).
Proof.
  intros x Hnd. unfold compute_strengths_and_weaknesses, compare_loop.
  set (st0 := {| strengths := []; weaknesses := [];
                 biggest_key := None; biggest_delta := 0%float |}).
  assert (H : forall l, (forall k v, In (k, v) l -> dict_get x k = Some v) ->
                        fold_left (compare_step x) l st0 = st0).
  { induction l as [|[k v] l IH]; intros Hl; cbn [fold_left]; [reflexivity|].
    rewrite compare_step_self; [apply IH | apply Hl; now left | reflexivity].
    intros k' v' Hin. apply Hl. now right. }
  rewrite H; [reflexivity|].
  intros k v Hin. now apply dict_get_In.
Qed.


Section BiggestDelta.
Import FloatOrder.
Variable avg : dict float.

Definition not_nan (item : string * float) : Prop :=
  Prim2SF (delta_of avg item) <> S754_nan.

Definition biggest_inv (seen : dict float) (st : comparison) : Prop :=
  match biggest_key st with
  | None =>
      biggest_delta st = 0%float
      /\ Forall (fun item => (delta_of avg item =? 0)%float = true) seen
  | Some k =>
      exists before v after,
        seen = (before ++ (k, v) :: after)%list
        /\ biggest_delta st = mag avg (k, v)
        /\ (0 <? mag avg (k, v))%float = true
        /\ Forall (fun item => (mag avg item <? mag avg (k, v))%float = true) before
        /\ Forall (fun item => (mag avg item <=? mag avg (k, v))%float = true) after
  end.

Lemma compare_step_biggest st item :
  biggest_key (compare_step avg st item)
  = (if (biggest_delta st <? mag avg item)%float then Some (fst item)
     else biggest_key st)
  /\ biggest_delta (compare_step avg st item)
     = (if (biggest_delta st <? mag avg item)%float then mag avg item
        else biggest_delta st).
Proof.
  unfold compare_step, mag, delta_of. destruct item as [k v]. cbn [fst snd].
  destruct (0 <? _)%float; [|destruct (_ <? 0)%float];
    destruct (biggest_delta st <? _)%float; split; reflexivity.
Qed.

Lemma mag_magnitude item : not_nan item -> magnitude (mag avg item).
Proof. apply abs_magnitude. Qed.

Lemma biggest_inv_step seen st item :
  Forall not_nan seen -> not_nan item ->
  biggest_inv seen st -> biggest_inv (seen ++ [item])%list (compare_step avg st item).
Proof.
  intros Hseen Hitem Hinv. unfold biggest_inv in *.
  destruct (compare_step_biggest st item) as [-> ->].
  pose proof (mag_magnitude _ Hitem) as Hm.
  destruct (biggest_key st) as [k|].
  - destruct Hinv as (before & v & after & -> & Hbd & Hpos & Hb & Ha).
    rewrite Hbd.
    apply Forall_app in Hseen as [Hsb Hsa].
    inversion Hsa as [|? ? Hk Hsa']; subst.
    pose proof (mag_magnitude _ Hk) as Hmk.
    destruct (mag avg (k, v) <? mag avg item)%float eqn:E.
    + destruct item as [k' v']. cbn [fst].
      exists (before ++ (k, v) :: after)%list, v', []. repeat split.
      * apply (ltb_trans 0 (mag avg (k, v))); auto using zero_magnitude.
      * apply Forall_app. split; [|constructor].
        -- rewrite Forall_forall in *. intros it Hin.
           apply (ltb_trans _ (mag avg (k, v))); auto using mag_magnitude.
        -- exact E.
        -- rewrite Forall_forall in *. intros it Hin.
           apply (leb_ltb_trans _ (mag avg (k, v))); auto using mag_magnitude.
      * constructor.
    + exists before, v, (after ++ [item])%list. repeat split; auto.
      * now rewrite <- app_assoc.
      * apply Forall_app. split; [assumption|]. constructor; [|constructor].
        now apply ltb_false_leb.
  - destruct Hinv as [Hbd Hz]. rewrite Hbd.
    destruct (0 <? mag avg item)%float eqn:E.
    + destruct item as [k' v']. cbn [fst].
      exists seen, v', []. repeat split; auto.
      rewrite Forall_forall in *. intros it Hin.
      apply eqb_zero_abs_ltb; auto.
    + split; [reflexivity|]. apply Forall_app. split; [assumption|].
      constructor; [|constructor].
      unfold mag in E. rewrite (abs_pos_or_zero _ Hitem) in E.
      now destruct (delta_of avg item =? 0)%float.
Qed.

Lemma biggest_inv_fold l : forall seen st,
  Forall not_nan seen -> Forall not_nan l ->
  biggest_inv seen st ->
  biggest_inv (seen ++ l)%list (fold_left (compare_step avg) l st).
Proof.
  induction l as [|item l IH]; intros seen st Hseen Hl Hinv; cbn [fold_left].
  - now rewrite app_nil_r.
  - inversion Hl as [|? ? Hitem Hl']; subst.
    replace (seen ++ item :: l)%list with ((seen ++ [item]) ++ l)%list
      by now rewrite <- app_assoc.
    apply IH; auto.
    + apply Forall_app. split; auto.
    + now apply biggest_inv_step.
Qed.

Lemma finite_values_not_nan (user : dict float) :
  Forall (fun kv => is_finite (snd kv) = true) user ->
  Forall (fun kv => is_finite (snd kv) = true) avg ->
  Forall not_nan user.
Proof.
  intros Hu Ha. rewrite Forall_forall in *. intros [k v] Hin.
  unfold not_nan, delta_of. cbn [fst snd].
  apply sub_finite_not_nan; [apply (Hu _ Hin)|].
  unfold dict_get_default.
  destruct (dict_get avg k) as [a|] eqn:E; [|reflexivity].
  clear - Ha E. induction avg as [|[k0 v0] d IH]; [discriminate|].
  cbn [dict_get] in E. destruct (String.eqb k0 k).
  - injection E as <-. apply (Ha (k0, v0)). now left.
  - apply IH; auto. intros x Hx. apply Ha. now right.
Qed.
End BiggestDelta.

(** C5.  The largest-delta key is tracked with a strict comparison over the
    items in iteration order: when it is [Some k], the item of [k] has a
    positive absolute delta, every item before it has a strictly smaller
    one (so a tie never replaces an earlier key) and every item after it
    has one that is not larger.  It is [None] exactly when every delta is
    zero.  The values are finite, as those of a MetricsTuple are. *)
Theorem compare_tracks_first_largest_delta :
  forall user_metrics streamer_avg : dict float,
    Forall (fun kv => is_finite (snd kv) = true) user_metrics ->
    Forall (fun kv => is_finite (snd kv) = true) streamer_avg ->
    let biggest :=
      snd (compute_strengths_and_weaknesses user_metrics streamer_avg) in
    match biggest with
    | Some k =>
        exists before v after,
          user_metrics = (before ++ (k, v) :: after)%list
          /\ (0 <? mag streamer_avg (k, v))%float = true
          /\ Forall (fun item => (mag streamer_avg item
                                  <? mag streamer_avg (k, v))%float = true) before
          /\ Forall (fun item => (mag streamer_avg item
                                  <=? mag streamer_avg (k, v))%float = true) after
    | None => True
    end
    /\ (biggest = None
        <-> Forall (fun item => (delta_of streamer_avg item =? 0)%float = true)
              user_metrics).
Proof.
  intros user avg Hu Ha biggest.
  pose proof (finite_values_not_nan avg user Hu Ha) as Hnn.
  assert (Hinv : biggest_inv avg user (compare_loop user avg)).
  { apply (biggest_inv_fold avg user [] _ (Forall_nil _) Hnn).
    split; [reflexivity | constructor]. }
  unfold biggest, compute_strengths_and_weaknesses. cbn [snd].
  unfold biggest_inv in Hinv.
  destruct (biggest_key (compare_loop user avg)) as [k|].
  - destruct Hinv as (before & v & after & Heq & Hbd & Hpos & Hb & Hafter).
    split.
    + exists before, v, after. auto.
    + split; [discriminate|]. intros Hz. exfalso.
      rewrite Forall_forall in Hz.
      assert (Hin : In (k, v) user) by (rewrite Heq; apply in_elt).
      specialize (Hz _ Hin). rewrite Forall_forall in Hnn.
      unfold mag in Hpos. rewrite (FloatOrder.abs_pos_or_zero _ (Hnn _ Hin)) in Hpos.
      rewrite Hz in Hpos. discriminate.
  - destruct Hinv as [_ Hz]. split; [exact I|]. split; auto.
Qed.

(** Against C5 as stated for every pair: a delta that is NaN is never above
    the tracked maximum (line 261), so its key is skipped.  The subject
    [{"shots": nan}] against the baseline [{"shots": 1.0}], and the subject
    [{"goals": inf}] against the baseline [{"goals": inf}], give no
    largest-delta key although the one delta is not zero; and in
    [{"shots": nan, "goals": 1.0}] against an empty baseline the key
    [goals] is tracked although the delta before it is not smaller. *)
Lemma nan_delta_is_never_tracked :
  snd (compute_strengths_and_weaknesses [("shots", nan)] [("shots", 1%float)])
  = None
  /\ (delta_of [("shots", 1%float)] ("shots", nan) =? 0)%float = false
  /\ snd (compute_strengths_and_weaknesses
            [("goals", infinity)] [("goals", infinity)])
     = None
  /\ (delta_of [("goals", infinity)] ("goals", infinity) =? 0)%float = false
  /\ snd (compute_strengths_and_weaknesses
            [("shots", nan); ("goals", 1%float)] [])
     = Some "goals"
  /\ (mag [] ("shots", nan) <? mag [] ("goals", 1%float))%float = false.
Proof. repeat split; reflexivity. Qed.

(** The specification's example pair: strengths [{boost_usage: 0.1}],
    weaknesses [{shots: 2.0}], largest delta at [shots]. *)
Example compare_example :
  compute_strengths_and_weaknesses example_subject example_baseline
  = ([("boost_usage", 0.1%float)], [("shots", 2%float)], Some "shots").
Proof. reflexivity. Qed.

(** The classification at the example pair of the specification. *)
Lemma compare_classifies_each_key_witness :
  NoDup (keys example_subject)
  /\ (let r := compute_strengths_and_weaknesses example_subject example_baseline in
      let strengths := fst (fst r) in
      let weaknesses := snd (fst r) in
      (forall key user_val,
          In (key, user_val) example_subject ->
          let delta := (user_val - dict_get_default example_baseline key 0)%float in
          ((0 <? delta)%float = true ->
           dict_get strengths key = Some (PyFloat.round3 delta)
           /\ dict_get weaknesses key = None)
          /\ ((delta <? 0)%float = true ->
              dict_get weaknesses key = Some (PyFloat.round3 (- delta))
              /\ dict_get strengths key = None)
          /\ ((delta =? 0)%float = true ->
              dict_get strengths key = None /\ dict_get weaknesses key = None))
      /\ (forall key,
             dict_get strengths key = None \/ dict_get weaknesses key = None)).
Proof.
  assert (Hnd : NoDup (keys example_subject)).
  { repeat constructor; simpl; intuition discriminate. }
  split; [exact Hnd|].
  exact (compare_classifies_each_key example_subject example_baseline Hnd).
Defined.

(** The example subject compared with itself. *)
Lemma compare_with_itself_is_empty_witness :
  NoDup (keys example_subject)
  /\ compute_strengths_and_weaknesses example_subject example_subject
     = ([], [], None).
Proof.
  assert (Hnd : NoDup (keys example_subject)).
  { repeat constructor; simpl; intuition discriminate. }
  split; [exact Hnd|].
  exact (compare_with_itself_is_empty example_subject Hnd).
Defined.

(** The largest delta of the example pair of the specification. *)
Lemma compare_tracks_first_largest_delta_witness :
  Forall (fun kv => is_finite (snd kv) = true) example_subject
  /\ Forall (fun kv => is_finite (snd kv) = true) example_baseline
  /\ (let biggest :=
        snd (compute_strengths_and_weaknesses example_subject example_baseline) in
      match biggest with
      | Some k =>
          exists before v after,
            example_subject = (before ++ (k, v) :: after)%list
            /\ (0 <? mag example_baseline (k, v))%float = true
            /\ Forall (fun item => (mag example_baseline item
                                    <? mag example_baseline (k, v))%float = true)
                 before
            /\ Forall (fun item => (mag example_baseline item
                                    <=? mag example_baseline (k, v))%float = true)
                 after
      | None => True
      end
      /\ (biggest = None
          <-> Forall (fun item => (delta_of example_baseline item =? 0)%float = true)
                example_subject)).
Proof.
  assert (Hs : Forall (fun kv => is_finite (snd kv) = true) example_subject).
  { repeat constructor. }
  assert (Hb : Forall (fun kv => is_finite (snd kv) = true) example_baseline).
  { repeat constructor. }
  split; [exact Hs|]. split; [exact Hb|].
  exact (compare_tracks_first_largest_delta example_subject example_baseline Hs Hb).
Defined.

(** ** More on binary64 arithmetic *)

Module FloatMore.
Import SpecFacts SpecRound SpecBounds RoundFacts.

(** One shift to the right halves a mantissa that is not below zero. *)
Lemma shr_1_half mrs : 0 <= shr_m mrs -> shr_m (shr_1 mrs) = shr_m mrs / 2.
Proof.
  destruct mrs as [m r s]. cbn [shr_m]. intros Hm.
  destruct m as [|[p|p|]|p]; cbn [shr_1 shr_m]; try reflexivity; try lia.
  - apply (Z.div_unique _ 2 _ 1); lia.
  - apply (Z.div_unique _ 2 _ 0); lia.
Qed.

Lemma iter_shr_1_div p : forall mrs,
  0 <= shr_m mrs -> shr_m (iter_pos shr_1 p mrs) = shr_m mrs / 2 ^ Zpos p.
Proof.
  induction p as [p IH|p IH|]; intros mrs Hm; cbn [iter_pos].
  - assert (H1 : 0 <= shr_m (shr_1 mrs)) by now apply shr_1_nonneg.
    assert (H2 : 0 <= shr_m (iter_pos shr_1 p (shr_1 mrs))).
    { apply (iter_pos_inv shr_1 (fun x => 0 <= shr_m x)); auto.
      intros x. apply shr_1_nonneg. }
    rewrite IH, IH, shr_1_half by auto.
    assert (Hp : 0 < 2 ^ Zpos p) by (apply Z.pow_pos_nonneg; lia).
    rewrite !Z.div_div by lia. f_equal.
    replace (Zpos p~1) with (1 + (Zpos p + Zpos p)) by lia.
    rewrite !Z.pow_add_r by lia. change (2 ^ 1) with 2. lia.
  - assert (H2 : 0 <= shr_m (iter_pos shr_1 p mrs)).
    { apply (iter_pos_inv shr_1 (fun x => 0 <= shr_m x)); auto.
      intros x. apply shr_1_nonneg. }
    rewrite IH, IH by auto.
    assert (Hp : 0 < 2 ^ Zpos p) by (apply Z.pow_pos_nonneg; lia).
    rewrite Z.div_div by lia. f_equal.
    replace (Zpos p~0) with (Zpos p + Zpos p) by lia.
    rewrite Z.pow_add_r by lia. reflexivity.
  - now apply shr_1_half.
Qed.

(** Above zero: a finite number that is not zero, or infinity, of positive
    sign. *)
Definition gt0 (x : spec_float) : Prop :=
  match x with
  | S754_finite false _ _ | S754_infinity false => True
  | _ => False
  end.

Lemma gt0_ge0 x : gt0 x -> ge0 x.
Proof. destruct x as [| [|] | | [|] ? ?]; cbn; auto. Qed.

Lemma gt0_ltb x : gt0 x <-> SFltb (S754_zero false) x = true.
Proof. destruct x as [[|] | [|] | | [|] ? ?]; cbn; intuition discriminate. Qed.

Lemma Zdigits2_pos_bounds m :
  0 < m -> 2 ^ (Zdigits2 m - 1) <= m < 2 ^ Zdigits2 m.
Proof.
  destruct m as [|p|p]; try lia. intros _. cbn [Zdigits2].
  apply digits2_pos_bounds.
Qed.

(** Rounding to the format never takes an integer multiple of the least
    subnormal to zero. *)
Lemma shr_fexp_pos m e l :
  0 < m -> -1074 <= e ->
  0 < shr_m (fst (shr_fexp prec emax m e l))
  /\ -1074 <= snd (shr_fexp prec emax m e l).
Proof.
  intros Hm He. unfold shr_fexp. rewrite fexp_eq.
  pose proof (Zdigits2_pos_bounds m Hm) as Hd.
  destruct (Z.max (Zdigits2 m + e - 53) (-1074) - e) as [|n|n] eqn:En;
    cbn [shr fst snd]; rewrite ?shr_record_of_loc_m; try lia.
  assert (Hn : Zpos n = Zdigits2 m - 53) by lia.
  rewrite iter_shr_1_div by (rewrite shr_record_of_loc_m; lia).
  rewrite shr_record_of_loc_m. split; [|lia].
  apply Z.div_str_pos. split; [apply Z.pow_pos_nonneg; lia|].
  apply Z.le_trans with (2 ^ (Zdigits2 m - 1)); [|lia].
  apply Z.pow_le_mono_r; lia.
Qed.

Lemma binary_round_aux_gt0 s m e l :
  0 < m -> -1074 <= e ->
  match binary_round_aux prec emax s m e l with
  | S754_finite s' _ _ | S754_infinity s' => s' = s
  | _ => False
  end.
Proof.
  intros Hm He. unfold binary_round_aux.
  pose proof (shr_fexp_pos m e l Hm He) as [H1 H1e].
  destruct (shr_fexp prec emax m e l) as [mrs1 e1]. cbn [fst snd] in H1, H1e.
  pose proof (round_nearest_even_bounds (shr_m mrs1) (loc_of_shr_record mrs1)) as Hr.
  set (m1 := round_nearest_even (shr_m mrs1) (loc_of_shr_record mrs1)) in *.
  pose proof (shr_fexp_pos m1 e1 loc_Exact ltac:(lia) H1e) as [H2 _].
  destruct (shr_fexp prec emax m1 e1 loc_Exact) as [mrs2 e2]. cbn [fst] in H2.
  destruct (shr_m mrs2); try lia.
  destruct (e2 <=? emax - prec); reflexivity.
Qed.

Lemma shl_align_exp p e e' : Z.min e e' <= snd (shl_align p e e').
Proof.
  unfold shl_align. destruct (e' - e) eqn:E; cbn [snd]; lia.
Qed.

Lemma binary_round_gt0 s p e :
  -1074 <= e ->
  match binary_round prec emax s p e with
  | S754_finite s' _ _ | S754_infinity s' => s' = s
  | _ => False
  end.
Proof.
  intros He. unfold binary_round.
  pose proof (shl_align_exp p e (fexp prec emax (Zpos (digits2_pos p) + e))) as Hz.
  rewrite fexp_eq in *.
  destruct (shl_align p e _) as [mz ez]. cbn [snd] in Hz.
  apply binary_round_aux_gt0; lia.
Qed.

(** The conversion of an integer that is not zero is not zero. *)
Lemma of_uint63_gt0 n :
  (0 < to_Z n)%Z -> gt0 (Prim2SF (of_uint63 n)).
Proof.
  intros Hn. rewrite FloatAxioms.of_uint63_spec.
  destruct (to_Z n) as [|p|p]; try lia. cbn [binary_normalize].
  pose proof (binary_round_gt0 false p 0 ltac:(lia)) as H.
  destruct (binary_round prec emax false p 0) as [| [|] | | [|] ? ?];
    cbn; auto; try contradiction; discriminate.
Qed.

Lemma of_Z_to_Z z : 0 <= z < 2 ^ 63 -> to_Z (of_Z z) = z.
Proof.
  intros Hz. rewrite Uint63.of_Z_spec.
  apply Z.mod_small. change wB with (2 ^ 63). lia.
Qed.

Lemma of_len_gt0 n :
  (0 < n)%nat -> Z.of_nat n < 2 ^ 63 -> gt0 (Prim2SF (PyFloat.of_len n)).
Proof.
  intros Hn Hb. unfold PyFloat.of_len. apply of_uint63_gt0.
  rewrite of_Z_to_Z; lia.
Qed.

Lemma gt0_not_zero x : gt0 (Prim2SF x) -> (x =? 0)%float = false.
Proof.
  rewrite FloatAxioms.eqb_spec. change (Prim2SF 0) with (S754_zero false).
  destruct (Prim2SF x) as [[|] | [|] | | [|] ? ?]; cbn; intuition.
Qed.

Lemma gt0_finite_of_uint63 n :
  finite (Prim2SF (of_uint63 n)) = true.
Proof. exact (proj2 (small_nonneg_ge0 _ (of_uint63_small n))). Qed.

(** [float(z)] of an integer [z] that is not zero, and fits a word, is not
    zero. *)
Lemma of_int_not_zero z x :
  z <> 0 -> Z.abs z < 2 ^ 63 -> PyFloat.of_int z = Some x ->
  (x =? 0)%float = false.
Proof.
  intros Hz Hb. unfold PyFloat.of_int.
  replace (Z.abs z <? 2 ^ 63) with true by (symmetry; apply Z.ltb_lt; lia).
  destruct (z <? 0) eqn:Hs; intros [= <-].
  - apply Z.ltb_lt in Hs.
    pose proof (of_uint63_gt0 (of_Z (- z))) as H.
    rewrite of_Z_to_Z in H by lia. specialize (H ltac:(lia)).
    rewrite FloatAxioms.eqb_spec, FloatAxioms.opp_spec.
    change (Prim2SF 0) with (S754_zero false).
    destruct (Prim2SF (of_uint63 (of_Z (- z)))) as [[|] | [|] | | [|] ? ?];
      cbn in *; auto; contradiction.
  - apply Z.ltb_ge in Hs. apply gt0_not_zero, of_uint63_gt0.
    rewrite of_Z_to_Z; lia.
Qed.

Lemma of_int_small_Some z :
  Z.abs z < 2 ^ 63 -> exists x, PyFloat.of_int z = Some x.
Proof.
  intros Hb. unfold PyFloat.of_int.
  replace (Z.abs z <? 2 ^ 63) with true by (symmetry; apply Z.ltb_lt; lia).
  eauto.
Qed.

(** Zero divided by a number above zero is zero. *)
Lemma zero_div_gt0 t : gt0 (Prim2SF t) -> (0 / t)%float = 0%float.
Proof.
  intros Ht. apply Prim2SF_inj. rewrite FloatAxioms.div_spec.
  change (Prim2SF 0) with (S754_zero false).
  destruct (Prim2SF t) as [[|] | [|] | | [|] ? ?]; cbn in *;
    auto; contradiction.
Qed.

(** Subtracting zero changes nothing. *)
Lemma sub_zero_r x : (x - 0)%float = x.
Proof.
  apply Prim2SF_inj. rewrite FloatAxioms.sub_spec.
  change (Prim2SF 0) with (S754_zero false).
  destruct (Prim2SF x) as [[|] | [|] | | [|] ? ?]; reflexivity.
Qed.

(** The sum of two numbers that are not below zero is not below zero. *)
Lemma SFadd_ge0 x y : ge0 x -> ge0 y -> ge0 (SF64add x y).
Proof.
  unfold SF64add.
  destruct x as [[|] | [|] | | [|] mx ex], y as [[|] | [|] | | [|] my ey];
    cbn [ge0 SFadd]; try tauto.
  intros _ _. apply has_sign_ge0.
  pose proof (binary_normalize_sign
                (Zpos (fst (shl_align mx ex (Z.min ex ey)))
                 + Zpos (fst (shl_align my ey (Z.min ex ey))))
                (Z.min ex ey)) as H.
  replace (_ <? 0) with false in H by (symmetry; apply Z.ltb_ge; lia).
  exact H.
Qed.

Lemma add_ge0 x y :
  ge0 (Prim2SF x) -> ge0 (Prim2SF y) -> ge0 (Prim2SF (x + y)).
Proof. rewrite FloatAxioms.add_spec. apply SFadd_ge0. Qed.

(** A quotient of a number that is not below zero by a finite number above
    zero is not below zero. *)
Lemma div_ge0_gt0 x t :
  ge0 (Prim2SF x) -> gt0 (Prim2SF t) -> finite (Prim2SF t) = true ->
  ge0 (Prim2SF (x / t)).
Proof.
  rewrite FloatAxioms.div_spec. unfold SF64div.
  destruct (Prim2SF x) as [[|] | [|] | | [|] mx ex],
           (Prim2SF t) as [[|] | [|] | | [|] mt et];
    cbn [ge0 gt0 finite SFdiv xorb]; try tauto; try discriminate.
  intros _ _ _.
  destruct (SFdiv_core_binary prec emax (Zpos mx) ex (Zpos mt) et)
    as [[mz ez] lz] eqn:E.
  apply has_sign_ge0, binary_round_aux_sign.
  rewrite SFdiv_core_eq in E. cbv zeta in E.
  rewrite div_eucl_div_mod in E. injection E as <- _ _.
  apply Z.div_pos; [|lia].
  destruct (_ - _ - _); try lia. rewrite Z.shiftl_mul_pow2 by lia.
  apply Z.mul_nonneg_nonneg; [lia|]. apply Z.pow_nonneg. lia.
Qed.

(** Swapping a subtraction changes the sign of a result that is not zero. *)
Lemma binary_round_aux_opp s m e l :
  binary_round_aux prec emax (negb s) m e l
  = SFopp (binary_round_aux prec emax s m e l).
Proof.
  unfold binary_round_aux.
  destruct (shr_fexp prec emax m e l) as [mrs1 e1].
  destruct (shr_fexp prec emax _ e1 loc_Exact) as [mrs2 e2].
  destruct (shr_m mrs2); try reflexivity.
  destruct (e2 <=? emax - prec); reflexivity.
Qed.

Lemma binary_normalize_opp m e :
  m <> 0 ->
  binary_normalize prec emax (- m) e false
  = SFopp (binary_normalize prec emax m e false).
Proof.
  destruct m as [|p|p]; [congruence| |]; intros _; cbn [Z.opp binary_normalize];
    unfold binary_round;
    destruct (shl_align p e _) as [mz ez].
  - apply (binary_round_aux_opp false).
  - apply (binary_round_aux_opp true).
Qed.

Lemma SFsub_swap x y :
  SF64sub y x = SFopp (SF64sub x y)
  \/ (SF64sub x y = S754_zero false /\ SF64sub y x = S754_zero false).
Proof.
  unfold SF64sub.
  destruct x as [[|] | [|] | | sx mx ex], y as [[|] | [|] | | sy my ey];
    cbn [SFsub SFopp negb]; auto;
    try (destruct sx; cbn [negb]; now auto);
    try (destruct sy; cbn [negb]; now auto).
  rewrite (Z.min_comm ey ex).
  set (ez := Z.min ex ey).
  set (a := cond_Zopp sx (Zpos (fst (shl_align mx ex ez)))).
  set (b := cond_Zopp sy (Zpos (fst (shl_align my ey ez)))).
  destruct (Z.eq_dec (a - b) 0) as [E | E].
  - right. replace (b - a) with 0 by lia. rewrite E. auto.
  - left. replace (b - a) with (- (a - b)) by lia.
    now apply binary_normalize_opp.
Qed.

Lemma sub_swap_ltb x y : (y - x <? 0)%float = (0 <? x - y)%float.
Proof.
  rewrite !FloatAxioms.ltb_spec, !FloatAxioms.sub_spec.
  change (Prim2SF 0) with (S754_zero false).
  destruct (SFsub_swap (Prim2SF x) (Prim2SF y)) as [-> | [-> ->]];
    [|reflexivity].
  destruct (SF64sub (Prim2SF x) (Prim2SF y)) as [[|] | [|] | | [|] ? ?];
    reflexivity.
Qed.

Lemma sub_swap_opp x y :
  (y - x <? 0)%float = true -> (- (y - x))%float = (x - y)%float.
Proof.
  rewrite FloatAxioms.ltb_spec. intros H.
  apply Prim2SF_inj. rewrite FloatAxioms.opp_spec, !FloatAxioms.sub_spec in *.
  change (Prim2SF 0) with (S754_zero false) in H.
  destruct (SFsub_swap (Prim2SF x) (Prim2SF y)) as [E | [E1 E2]].
  - rewrite E.
    destruct (SF64sub (Prim2SF x) (Prim2SF y)) as [[|] | [|] | | [|] ? ?];
      reflexivity.
  - rewrite E2 in H. discriminate.
Qed.

End FloatMore.

(** ** Extractor: the loop over the events in closed form *)

Section EventLoop.

Definition derived_boost (boost_frames : json) (evs : list json) : json :=
  match boost_frames with
  | JNull => if existsb is_boost_event evs then JInt 1 else JNull
  | _ => boost_frames
  end.

Lemma event_step_closed n bf event :
  event_step (n, bf) event
  = ((if is_flip_event event then S n else n),
     derived_boost bf [event]).
Proof.
  unfold event_step, is_flip_event, derived_boost, existsb, is_boost_event.
  destruct event; try (destruct bf; reflexivity).
  destruct (name_in _ _ || name_in _ _), bf; try reflexivity;
    destruct (name_is _ _ || name_is _ _); reflexivity.
Qed.

Lemma derived_boost_cons bf event evs :
  derived_boost (derived_boost bf [event]) evs = derived_boost bf (event :: evs).
Proof.
  unfold derived_boost. cbn [existsb].
  destruct bf; try reflexivity.
  destruct (is_boost_event event); cbn [orb]; reflexivity.
Qed.

Lemma event_loop_closed evs : forall n bf,
  fold_left event_step evs (n, bf)
  = ((n + List.length (filter is_flip_event evs))%nat, derived_boost bf evs).
Proof.
  induction evs as [|event evs IH]; intros n bf; cbn [fold_left filter].
  - rewrite Nat.add_0_r. destruct bf; reflexivity.
  - rewrite event_step_closed, IH, derived_boost_cons.
    destruct (is_flip_event event); cbn [List.length]; f_equal; lia.
Qed.

Lemma scan_events_closed events bf :
  is_sized events = true \/ py_bool events = false ->
  scan_events events bf
  = Ok (List.length (filter is_flip_event (visited_events events)),
        derived_boost bf (visited_events events)).
Proof.
  unfold scan_events, visited_events. intros H.
  destruct (py_bool events) eqn:Eb.
  - destruct H as [H | H]; [|discriminate].
    destruct events; try discriminate; cbn [py_iter bind];
      now rewrite event_loop_closed.
  - destruct bf; reflexivity.
Qed.

Lemma scan_events_Ok events bf flips boost :
  scan_events events bf = Ok (flips, boost) ->
  flips = List.length (filter is_flip_event (visited_events events))
  /\ boost = derived_boost bf (visited_events events).
Proof.
  intros H.
  assert (Hs : is_sized events = true \/ py_bool events = false).
  { unfold scan_events in H. destruct (py_bool events); [|now right].
    left. destruct events; try discriminate; reflexivity. }
  rewrite (scan_events_closed _ _ Hs) in H. now injection H as <- <-.
Qed.

Lemma filter_length_le {A : Type} (f : A -> bool) (l : list A) :
  (List.length (filter f l) <= List.length l)%nat.
Proof.
  induction l as [|a l IH]; cbn; [lia|]. destruct (f a); cbn; lia.
Qed.

Lemma list_ascii_length s :
  List.length (list_ascii_of_string s) = String.length s.
Proof. induction s as [|c s IH]; cbn; congruence. Qed.

Lemma visited_events_length events n :
  py_len events = Ok n -> (List.length (visited_events events) <= n)%nat.
Proof.
  unfold visited_events.
  destruct events; try discriminate; cbn [py_len py_iter];
    intros [= <-]; destruct (py_bool _); cbn [List.length];
    rewrite ?length_map, ?list_ascii_length; unfold keys;
    rewrite ?length_map; lia.
Qed.

Lemma visited_events_boost_length events n :
  py_len events = Ok n ->
  existsb is_boost_event (visited_events events) = true ->
  n = List.length (visited_events events) /\ (0 < n)%nat.
Proof.
  unfold visited_events.
  destruct events; try discriminate; cbn [py_len py_iter py_bool];
    intros [= <-].
  - destruct (negb _); [|discriminate]. intros H. exfalso.
    induction (list_ascii_of_string s) as [|c l IH]; cbn in H;
      [discriminate | auto].
  - destruct l; [discriminate|]. cbn [List.length]. intros _. split; lia.
  - destruct items; [discriminate|]. intros H. exfalso. unfold keys in H.
    induction (p :: items) as [|c l IH]; cbn in H; [discriminate | auto].
Qed.

End EventLoop.

(** X1.  [flip_count] is the number of visited events that are mappings
    with a flip button or action (lower-cased), as a float, whatever else
    the record holds; it is never more than the number of events visited. *)
Theorem flip_count_counts_flip_events :
  forall (file : option json) (m : dict float),
    parse_match_data file = Ok m ->
    let evs := visited_events (override file "events") in
    dict_get m "flip_count"
    = Some (PyFloat.of_len (List.length (filter is_flip_event evs)))
    /\ (List.length (filter is_flip_event evs) <= List.length evs)%nat.
Proof.
  intros file m H evs. split; [|apply filter_length_le].
  destruct file as [[| | | | | |data]|]; try discriminate.
  - apply parse_match_data_dict in H
      as (flips & boost & total & ratio & shots & goals
          & H1 & _ & _ & _ & _ & ->).
    apply scan_events_Ok in H1 as [-> _]. subst evs. cbn [override].
    unfold dict_get_default at 2.
    destruct (dict_get data "events") as [events|] eqn:E.
    + unfold dict_get_default. rewrite E. reflexivity.
    + unfold dict_get_default. rewrite E. reflexivity.
  - injection H as <-. reflexivity.
Qed.

Lemma flip_count_counts_flip_events_witness :
  parse_match_data (Some (JDict mixed_events_record))
  = Ok [("boost_usage", 0.25); ("flip_count", 2);
        ("shots", 0); ("goals", 1)]%float
  /\ dict_get [("boost_usage", 0.25); ("flip_count", 2);
               ("shots", 0); ("goals", 1)]%float "flip_count"
     = Some (PyFloat.of_len 2).
Proof.
  split; [reflexivity|].
  exact (proj1 (flip_count_counts_flip_events
                  (Some (JDict mixed_events_record)) _ eq_refl)).
Defined.

(** ** Extractor: the ratio without overrides *)

Lemma of_int_of_nat n :
  Z.of_nat n < 2 ^ 63 -> PyFloat.of_int (Z.of_nat n) = Some (PyFloat.of_len n).
Proof.
  intros Hn. unfold PyFloat.of_int, PyFloat.of_len.
  replace (Z.abs (Z.of_nat n) <? 2 ^ 63) with true
    by (symmetry; apply Z.ltb_lt; lia).
  replace (Z.of_nat n <? 0) with false by (symmetry; apply Z.ltb_ge; lia).
  reflexivity.
Qed.

(** X2.  When the record supplies neither [boost_frames] nor
    [total_frames], [boost_usage] is [round(1 / len(events), 3)] if some
    visited event is a boost event and [0.0] otherwise: one boost frame is
    counted however many boost events there are. *)
Theorem boost_usage_without_overrides :
  forall (file : option json) (m : dict float),
    parse_match_data file = Ok m ->
    override file "boost_frames" = JNull ->
    override file "total_frames" = JNull ->
    Z.of_nat (event_count file) < 2 ^ 63 ->
    dict_get m "boost_usage"
    = Some (if existsb is_boost_event (visited_events (override file "events"))
            then PyFloat.round3 (1 / PyFloat.of_len (event_count file))
            else 0%float).
Proof.
  intros file m H Hbf Htf Hn.
  destruct file as [[| | | | | |data]|]; try discriminate.
  2:{ injection H as <-. reflexivity. }
  cbn [override event_count] in *.
  apply parse_match_data_dict in H
    as (flips & boost & total & ratio & shots & goals
        & H1 & H2 & H3 & _ & _ & ->).
  rewrite Hbf in H1. rewrite Htf in H2.
  apply scan_events_Ok in H1 as [_ ->].
  apply default_total_frames_absent in H2 as (n & Hlen & ->).
  assert (Hev : visited_events (dict_get_default data "events" JNull)
                = visited_events (dict_get_default data "events" (JList []))).
  { unfold dict_get_default. destruct (dict_get data "events"); reflexivity. }
  rewrite Hev. rewrite Hlen in Hn. cbn [dict_get String.eqb Ascii.eqb Bool.eqb].
  set (evs := visited_events (dict_get_default data "events" (JList []))) in *.
  unfold boost_usage_ratio in H3.
  assert (Hmax : (0 < Nat.max n 1)%nat) by lia.
  assert (Hb : Z.of_nat (Nat.max n 1) < 2 ^ 63) by lia.
  replace (py_bool (JInt (Z.of_nat (Nat.max n 1)))) with true in H3
    by (cbn [py_bool]; symmetry; apply negb_true_iff, Z.eqb_neq; lia).
  cbn [py_float] in H3. rewrite (of_int_of_nat _ Hb) in H3.
  pose proof (FloatMore.of_len_gt0 _ Hmax Hb) as Hgt.
  unfold derived_boost in H3.
  destruct (existsb is_boost_event evs) eqn:Ex; cbn [default_boost_frames py_float] in H3.
  - destruct (visited_events_boost_length _ _ Hlen Ex) as [_ Hpos].
    replace (Nat.max n 1) with n in * by lia.
    change (PyFloat.of_int 1) with (Some 1%float) in H3. cbn [bind] in H3.
    apply div_Ok in H3 as [_ ->]. now rewrite Hlen.
  - change (PyFloat.of_int 0) with (Some 0%float) in H3. cbn [bind] in H3.
    apply div_Ok in H3 as [_ ->].
    now rewrite (FloatMore.zero_div_gt0 _ Hgt).
Qed.

Lemma boost_usage_without_overrides_witness :
  parse_match_data (Some (JDict mixed_events_record))
  = Ok [("boost_usage", 0.25); ("flip_count", 2);
        ("shots", 0); ("goals", 1)]%float
  /\ dict_get [("boost_usage", 0.25); ("flip_count", 2);
               ("shots", 0); ("goals", 1)]%float "boost_usage"
     = Some (PyFloat.round3 (1 / PyFloat.of_len 4)).
Proof.
  split; [reflexivity|].
  apply (boost_usage_without_overrides (Some (JDict mixed_events_record)) _ eq_refl).
  - reflexivity.
  - reflexivity.
  - cbn. lia.
Defined.

(** ** Extractor: the order of the events *)

Lemma filter_length_perm {A : Type} (f : A -> bool) (l l' : list A) :
  Permutation l l' -> List.length (filter f l) = List.length (filter f l').
Proof.
  induction 1 as [|a l l' _ IH|a b l|l l' l'' _ IH1 _ IH2]; cbn.
  - reflexivity.
  - destruct (f a); cbn; congruence.
  - destruct (f a), (f b); reflexivity.
  - congruence.
Qed.

Lemma existsb_perm {A : Type} (f : A -> bool) (l l' : list A) :
  Permutation l l' -> existsb f l = existsb f l'.
Proof.
  induction 1 as [|a l l' _ IH|a b l|l l' l'' _ IH1 _ IH2]; cbn.
  - reflexivity.
  - now rewrite IH.
  - destruct (f a), (f b); reflexivity.
  - congruence.
Qed.

Lemma scan_events_perm evs evs' bf :
  Permutation evs evs' -> scan_events (JList evs) bf = scan_events (JList evs') bf.
Proof.
  intros Hp.
  rewrite !scan_events_closed by (now left).
  assert (Hv : Permutation (visited_events (JList evs)) (visited_events (JList evs'))).
  { unfold visited_events. cbn [py_iter].
    destruct evs as [|e evs].
    - apply Permutation_nil in Hp. subst. constructor.
    - destruct evs' as [|e' evs'].
      + apply Permutation_sym in Hp. apply Permutation_nil in Hp. discriminate.
      + exact Hp. }
  unfold derived_boost.
  now rewrite (filter_length_perm _ _ _ Hv), (existsb_perm _ _ _ Hv).
Qed.

(** X3.  The result does not depend on the order of the events: a record
    whose [events] list is rearranged gives the same metrics (or raises the
    same exception). *)
Theorem events_order_is_irrelevant :
  forall (data : dict json) (evs evs' : list json),
    dict_get data "events" = Some (JList evs) ->
    Permutation evs evs' ->
    parse_match_data (Some (JDict (dict_set data "events" (JList evs'))))
    = parse_match_data (Some (JDict data)).
Proof.
  intros data evs evs' He Hp. unfold parse_match_data.
  assert (Hother : forall k d, k <> "events" ->
            dict_get_default (dict_set data "events" (JList evs')) k d
            = dict_get_default data k d).
  { intros k d Hk. unfold dict_get_default.
    now rewrite dict_get_set_other by congruence. }
  rewrite (Hother "boost_frames"), (Hother "total_frames"),
    (Hother "shots"), (Hother "goals") by discriminate.
  assert (Hev : dict_get_default (dict_set data "events" (JList evs')) "events"
                  (JList []) = JList evs').
  { unfold dict_get_default. now rewrite dict_get_set_same. }
  assert (Hev' : dict_get_default data "events" (JList []) = JList evs).
  { unfold dict_get_default. now rewrite He. }
  rewrite Hev, Hev'.
  rewrite (scan_events_perm evs evs' _ Hp).
  unfold default_total_frames. cbn [py_len].
  now rewrite (Permutation_length Hp).
Qed.

Lemma events_order_is_irrelevant_witness :
  parse_match_data
    (Some (JDict (dict_set mixed_events_record "events"
                    (JList [JStr "x";
                            JDict [("button", JStr "boost"); ("action", JStr "flip")];
                            JDict [("action", JStr "boost")];
                            JDict [("button", JStr "jump_flip")]]))))
  = parse_match_data (Some (JDict mixed_events_record)).
Proof.
  apply (events_order_is_irrelevant mixed_events_record
           [JDict [("action", JStr "boost")];
            JDict [("button", JStr "jump_flip")];
            JDict [("button", JStr "boost"); ("action", JStr "flip")];
            JStr "x"]).
  - reflexivity.
  - apply (Permutation_cons_app [_; _] [_]). cbn [app].
    apply (Permutation_cons_app [_; _] []). cbn [app].
    apply perm_swap.
Defined.

(** ** Extractor: a zero [total_frames] *)

(** X4.  A [total_frames] that is supplied and false (0, 0.0, [False], an
    empty string or container) gives [boost_usage = 0.0]: line 185 neither
    divides nor converts [boost_frames] then. *)
Theorem false_total_frames_gives_zero_usage :
  forall (file : option json) (m : dict float),
    parse_match_data file = Ok m ->
    override file "total_frames" <> JNull ->
    py_bool (override file "total_frames") = false ->
    dict_get m "boost_usage" = Some 0%float.
Proof.
  intros file m H Hnull Hfalse.
  destruct file as [[| | | | | |data]|]; try discriminate.
  2:{ injection H as <-. reflexivity. }
  cbn [override] in *.
  apply parse_match_data_dict in H
    as (flips & boost & total & ratio & shots & goals
        & _ & H2 & H3 & _ & _ & ->).
  assert (Ht : total = dict_get_default data "total_frames" JNull).
  { unfold default_total_frames in H2.
    destruct (dict_get_default data "total_frames" JNull);
      try congruence; now injection H2. }
  unfold boost_usage_ratio in H3. rewrite Ht, Hfalse in H3.
  injection H3 as <-. reflexivity.
Qed.

Lemma false_total_frames_gives_zero_usage_witness :
  parse_match_data (Some zero_total_record)
  = Ok [("boost_usage", 0); ("flip_count", 1); ("shots", 0); ("goals", 0)]%float
  /\ dict_get [("boost_usage", 0); ("flip_count", 1);
               ("shots", 0); ("goals", 0)]%float "boost_usage"
     = Some 0%float.
Proof.
  split; [reflexivity|].
  apply (false_total_frames_gives_zero_usage (Some zero_total_record) _ eq_refl).
  - discriminate.
  - reflexivity.
Defined.

(** ** Extractor: records on which it returns *)

Lemma py_float_frames_value v :
  is_frames_value v = true -> v <> JNull -> exists x, py_float v = Ok x.
Proof.
  intros Hv Hn.
  destruct v as [| b | z | x | | |]; cbn [is_frames_value py_float] in *;
    try discriminate; try congruence; try (eexists; reflexivity).
  apply Z.ltb_lt in Hv.
  destruct (FloatMore.of_int_small_Some z Hv) as [x ->]. eauto.
Qed.

Lemma py_float_count_value v :
  is_count_value v = true -> exists x, py_float (number_or_zero v) = Ok x.
Proof.
  unfold number_or_zero.
  intros Hv.
  destruct v as [| b | z | x | | |];
    cbn [is_count_value is_number py_float] in *; try (eexists; reflexivity).
  apply Z.ltb_lt in Hv.
  destruct (FloatMore.of_int_small_Some z Hv) as [x ->]. eauto.
Qed.

Lemma py_float_true_not_zero v x :
  is_frames_value v = true -> py_bool v = true -> py_float v = Ok x ->
  (x =? 0)%float = false.
Proof.
  destruct v as [| b | z | y | | |]; cbn [is_frames_value py_bool py_float];
    try discriminate.
  - intros _ -> [= <-]. reflexivity.
  - intros Hz Hnz. apply Z.ltb_lt in Hz. apply negb_true_iff, Z.eqb_neq in Hnz.
    destruct (PyFloat.of_int z) as [x'|] eqn:E; [|discriminate].
    intros [= <-]. now apply (FloatMore.of_int_not_zero z).
  - intros _ Hy [= <-]. unfold PyFloat.truthy in Hy.
    now apply negb_true_iff in Hy.
Qed.

(** X5.  On a mapping whose fields have the documented types ([events]
    absent or a list, string or mapping; [boost_frames] and [total_frames]
    absent or numbers; ints within a machine word) the extractor returns a
    tuple: it raises nothing, whatever the events and [shots] and [goals]
    are, and also when [total_frames] is zero. *)
Theorem extract_returns_on_well_typed_record :
  forall data : dict json,
    well_typed_record data = true ->
    Z.of_nat (event_count (Some (JDict data))) < 2 ^ 63 ->
    exists m, parse_match_data (Some (JDict data)) = Ok m.
Proof.
  intros data Hwt Hn. unfold well_typed_record in Hwt.
  apply andb_prop in Hwt as [Hwt Hgo]. apply andb_prop in Hwt as [Hwt Hsh].
  apply andb_prop in Hwt as [Hwt Htf]. apply andb_prop in Hwt as [Hev Hbf].
  cbn [event_count] in Hn. unfold parse_match_data.
  set (events := dict_get_default data "events" (JList [])) in *.
  set (bf := dict_get_default data "boost_frames" JNull) in *.
  set (tf := dict_get_default data "total_frames" JNull) in *.
  rewrite (scan_events_closed events bf (or_introl Hev)). cbn [bind].
  set (boost := default_boost_frames (derived_boost bf (visited_events events))).
  assert (Hboost : is_frames_value boost = true /\ boost <> JNull).
  { subst boost. unfold derived_boost.
    destruct bf; try discriminate; cbn [default_boost_frames];
      try (split; [assumption | discriminate]).
    destruct (existsb _ _); split; try reflexivity; discriminate. }
  assert (Htotal : exists total,
             default_total_frames events tf = Ok total
             /\ is_frames_value total = true /\ total <> JNull).
  { unfold default_total_frames.
    destruct tf; try discriminate;
      try (eexists; split; [reflexivity | split; [assumption | discriminate]]).
    destruct (py_len events) as [n|] eqn:El;
      [|destruct events; discriminate].
    cbn [bind]. eexists. split; [reflexivity|]. split; [|discriminate].
    cbn [is_frames_value]. apply Z.ltb_lt. lia. }
  destruct Htotal as (total & -> & Ht & Htn). cbn [bind].
  assert (Hr : exists ratio, boost_usage_ratio boost total = Ok ratio).
  { unfold boost_usage_ratio. destruct (py_bool total) eqn:Eb; [|eauto].
    destruct (py_float_frames_value boost (proj1 Hboost) (proj2 Hboost))
      as [b ->].
    destruct (py_float_frames_value total Ht Htn) as [t Et].
    rewrite Et. cbn [bind]. unfold PyFloat.div.
    rewrite (py_float_true_not_zero total t Ht Eb Et). eauto. }
  destruct Hr as [ratio ->]. cbn [bind].
  destruct (py_float_count_value _ Hsh) as [shots ->].
  destruct (py_float_count_value _ Hgo) as [goals ->].
  cbn [bind]. eauto.
Qed.

Lemma extract_returns_on_well_typed_record_witness :
  exists m, parse_match_data (Some (JDict mixed_events_record)) = Ok m.
Proof.
  apply (extract_returns_on_well_typed_record mixed_events_record).
  - reflexivity.
  - cbn. lia.
Defined.

(** ** Aggregator: rows of any shape *)

Definition add_tuple (a t : metrics) : metrics :=
  {| boost_usage := boost_usage a + boost_usage t;
     flip_count := flip_count a + flip_count t;
     shots := shots a + shots t;
     goals := goals a + goals t |}%float.

Lemma add_metrics_row (a : metrics) (row : json) :
  add_metrics (metrics_dict a) row
  = (t <- row_metrics row ;; Ok (metrics_dict (add_tuple a t))).
Proof.
  unfold add_metrics, row_metrics.
  destruct row as [| | | | | |d]; try reflexivity.
  cbn [metrics_dict keys map fst fold_left bind].
  destruct (py_float (dict_get_default d "boost_usage" (JFloat 0))) as [bu|];
    [|reflexivity].
  cbn [bind dict_get dict_set String.eqb Ascii.eqb Bool.eqb].
  destruct (py_float (dict_get_default d "flip_count" (JFloat 0))) as [fc|];
    [|reflexivity].
  cbn [bind dict_get dict_set String.eqb Ascii.eqb Bool.eqb].
  destruct (py_float (dict_get_default d "shots" (JFloat 0))) as [sh|];
    [|reflexivity].
  cbn [bind dict_get dict_set String.eqb Ascii.eqb Bool.eqb].
  destruct (py_float (dict_get_default d "goals" (JFloat 0))) as [go|];
    reflexivity.
Qed.

Definition sum_from (a : metrics) (ts : list metrics) : metrics :=
  fold_left add_tuple ts a.

Lemma add_rows_raise rows e :
  fold_left
    (fun acc row =>
       totals <- acc ;;
       match row with
       | None => Ok totals
       | Some metrics => add_metrics totals metrics
       end)
    rows (Raise e) = Raise e.
Proof. induction rows as [|row rows IH]; cbn; auto. Qed.

Lemma add_rows_general rows : forall a : metrics,
  add_rows rows (metrics_dict a)
  = (ts <- rows_metrics rows ;; Ok (metrics_dict (sum_from a ts))).
Proof.
  unfold add_rows.
  induction rows as [|[row|] rows IH]; intros a; cbn [fold_left rows_metrics bind].
  - reflexivity.
  - rewrite add_metrics_row.
    destruct (row_metrics row) as [t|e]; cbn [bind].
    + rewrite IH. destruct (rows_metrics rows); reflexivity.
    + apply add_rows_raise.
  - apply IH.
Qed.

Lemma sum_from_fields ts : forall a,
  sum_from a ts
  = {| boost_usage := fold_left PrimFloat.add (map boost_usage ts) (boost_usage a);
       flip_count := fold_left PrimFloat.add (map flip_count ts) (flip_count a);
       shots := fold_left PrimFloat.add (map shots ts) (shots a);
       goals := fold_left PrimFloat.add (map goals ts) (goals a) |}.
Proof.
  unfold sum_from.
  induction ts as [|t ts IH]; intros a; cbn [fold_left map].
  - now destruct a.
  - rewrite IH. reflexivity.
Qed.

Lemma average_rows_general rows :
  average_rows rows
  = match rows with
    | [] => Ok zero_metrics
    | _ => ts <- rows_metrics rows ;;
           Ok (metrics_dict (averaged ts (List.length rows)))
    end.
Proof.
  destruct rows as [|r rows]; [reflexivity|].
  unfold average_rows.
  change zero_metrics
    with (metrics_dict
            {| boost_usage := 0; flip_count := 0; shots := 0; goals := 0 |}).
  rewrite add_rows_general.
  destruct (rows_metrics (r :: rows)) as [ts|e]; [|reflexivity].
  cbn [bind]. rewrite sum_from_fields. reflexivity.
Qed.

Lemma rows_metrics_stored_rows rows :
  rows_metrics (stored_rows rows) = Ok (decoded rows).
Proof.
  induction rows as [|[t|] rows IH]; cbn [stored_rows map option_map rows_metrics decoded].
  - reflexivity.
  - change (map (option_map metrics_json) rows) with (stored_rows rows).
    rewrite IH. destruct t. reflexivity.
  - exact IH.
Qed.

(** X6.  For rows of any shape, the two aggregates are the per-key sums of
    [float(row.get(key, 0.0))] over the rows that decode, taken in row
    order from 0.0, divided by the number of all rows and rounded to three
    decimals; a missing key counts as 0.0, and the first row (and in it the
    first key) that cannot be converted decides the exception raised.  No
    rows give the all-zero tuple. *)
Theorem aggregate_of_any_rows :
  forall rows : list (option json),
    aggregate_user_metrics rows
    = match rows with
      | [] => Ok zero_metrics
      | _ => ts <- rows_metrics rows ;;
             Ok (metrics_dict (averaged ts (List.length rows)))
      end
    /\ get_streamer_average rows = aggregate_user_metrics rows.
Proof.
  intros rows. split; [apply average_rows_general | reflexivity].
Qed.

(** ** Aggregator: a row that is not a mapping *)

Lemma rows_metrics_non_mapping rows v :
  In (Some v) rows -> is_mapping v = false ->
  exists e, rows_metrics rows = Raise e.
Proof.
  intros Hin Hv.
  induction rows as [|[row|] rows IH]; cbn [rows_metrics].
  - contradiction.
  - destruct Hin as [[= ->] | Hin].
    + destruct v; try discriminate; cbn; eauto.
    + destruct (row_metrics row); cbn [bind]; eauto.
      destruct (IH Hin) as [e ->]. cbn. eauto.
  - destruct Hin as [Hin | Hin]; [discriminate | auto].
Qed.

(** X7.  One stored row that decodes to something other than a mapping (a
    list, a number, a string, [null]) makes the aggregate raise: it returns
    for no collection of rows that holds such a row. *)
Theorem aggregate_raises_on_non_mapping_row :
  forall (rows : list (option json)) (v : json),
    In (Some v) rows ->
    is_mapping v = false ->
    exists e, aggregate_user_metrics rows = Raise e.
Proof.
  intros rows v Hin Hv.
  unfold aggregate_user_metrics. rewrite average_rows_general.
  destruct rows as [|r rows]; [contradiction|].
  destruct (rows_metrics_non_mapping _ _ Hin Hv) as [e ->].
  cbn. eauto.
Qed.

Lemma aggregate_raises_on_non_mapping_row_witness :
  exists e,
    aggregate_user_metrics (sample_rows ++ [Some (JList [])]) = Raise e.
Proof.
  apply (aggregate_raises_on_non_mapping_row _ (JList [])).
  - cbn. auto.
  - reflexivity.
Defined.

(** ** Aggregator: signs *)

Section AggregateSigns.
Import SpecBounds RoundFacts FloatMore.

Lemma fold_add_ge0 xs : forall a,
  ge0 (Prim2SF a) -> Forall (fun x => (0 <=? x)%float = true) xs ->
  ge0 (Prim2SF (fold_left PrimFloat.add xs a)).
Proof.
  induction xs as [|x xs IH]; intros a Ha Hxs; cbn [fold_left]; [exact Ha|].
  inversion Hxs as [|? ? Hx Hxs']; subst.
  apply IH; [|exact Hxs'].
  apply add_ge0; [exact Ha|]. now apply leb_zero_ge0.
Qed.

Lemma average_ge0 (field : metrics -> float) ts n :
  Forall (fun t => (0 <=? field t)%float = true) ts ->
  (0 < n)%nat -> Z.of_nat n < 2 ^ 63 ->
  (0 <=? PyFloat.round3 (fsum (map field ts) / PyFloat.of_len n))%float = true.
Proof.
  intros Hts Hn Hb.
  apply leb_zero_ge0, round3_ge0, div_ge0_gt0.
  - unfold fsum. apply fold_add_ge0; [reflexivity|].
    now rewrite Forall_map.
  - now apply of_len_gt0.
  - apply gt0_finite_of_uint63.
Qed.

Lemma averaged_nonneg ts n :
  Forall nonneg_metrics ts -> (0 < n)%nat -> Z.of_nat n < 2 ^ 63 ->
  nonneg_metrics (averaged ts n).
Proof.
  intros Hts Hn Hb.
  unfold nonneg_metrics, averaged. cbn [boost_usage flip_count shots goals].
  repeat split; apply average_ge0; auto;
    eapply Forall_impl; [|exact Hts| |exact Hts| |exact Hts| |exact Hts];
    intros t Ht; apply Ht.
Qed.

End AggregateSigns.

(** X8.  The averages of tuples none of whose values is below zero are not
    below zero, also when some stored rows do not decode. *)
Theorem aggregate_of_nonnegative_rows_is_nonnegative :
  forall rows : list (option metrics),
    Forall nonneg_metrics (decoded rows) ->
    Z.of_nat (List.length rows) < 2 ^ 63 ->
    exists m : metrics,
      aggregate_user_metrics (stored_rows rows) = Ok (metrics_dict m)
      /\ nonneg_metrics m.
Proof.
  intros rows Hrows Hn.
  unfold aggregate_user_metrics. rewrite average_rows_tuples.
  eexists. split; [reflexivity|].
  destruct rows as [|r rows]; [repeat split; reflexivity|].
  apply averaged_nonneg; [exact Hrows | cbn; lia | exact Hn].
Qed.

Lemma aggregate_of_nonnegative_rows_is_nonnegative_witness :
  exists m : metrics,
    aggregate_user_metrics
      (stored_rows
         [Some {| boost_usage := 0.5; flip_count := 3; shots := 2; goals := 1 |};
          None;
          Some {| boost_usage := 0.25; flip_count := 0; shots := 1; goals := 0 |}])
    = Ok (metrics_dict m)
    /\ nonneg_metrics m.
Proof.
  apply (aggregate_of_nonnegative_rows_is_nonnegative
           [Some {| boost_usage := 0.5; flip_count := 3; shots := 2; goals := 1 |};
            None;
            Some {| boost_usage := 0.25; flip_count := 0; shots := 1; goals := 0 |}]).
  - cbn [decoded]. repeat constructor.
  - cbn. lia.
Defined.

(** ** Comparator: the two mappings as lists *)

Section DictOrder.
Context {V : Type}.
Implicit Types (d : dict V) (k : string) (v : V).

Lemma dict_set_notin d k v :
  ~ In k (keys d) -> dict_set d k v = (d ++ [(k, v)])%list.
Proof.
  induction d as [|[k0 v0] d IH]; cbn [dict_set keys map fst In app];
    intros Hn; [reflexivity|].
  destruct (String.eqb k0 k) eqn:E.
  - apply String.eqb_eq in E. tauto.
  - rewrite <- ?app_comm_cons. f_equal. apply IH. tauto.
Qed.

Lemma keys_dict_set d k v k' :
  In k' (keys (dict_set d k v)) <-> In k' (keys d) \/ k' = k.
Proof.
  induction d as [|[k0 v0] d IH]; cbn [dict_set keys map fst In].
  - intuition.
  - destruct (String.eqb k0 k) eqn:E; cbn [keys map fst In].
    + apply String.eqb_eq in E. subst. intuition.
    + fold (keys (dict_set d k v)). fold (keys d). rewrite IH. intuition.
Qed.

Lemma dict_set_not_nil d k v : dict_set d k v <> [].
Proof.
  destruct d as [|[k0 v0] d]; cbn; [discriminate|].
  destruct (String.eqb k0 k); discriminate.
Qed.

End DictOrder.

Lemma keys_entries c l k : In k (keys (entries c l)) -> In k (keys l).
Proof.
  unfold entries, keys. induction l as [|item l IH]; cbn [flat_map map In];
    [tauto|].
  rewrite map_app, in_app_iff. intros [H | H]; [|auto].
  destruct (c item); cbn in H; [|contradiction].
  destruct H as [<- | []]. now left.
Qed.

Lemma fold_set_if_entries c (l : dict float) : forall init,
  NoDup (keys l) ->
  (forall k, In k (keys l) -> ~ In k (keys init)) ->
  fold_left (set_if c) l init = (init ++ entries c l)%list.
Proof.
  induction l as [|[k v] l IH]; intros init Hnd Hdis; cbn [fold_left entries flat_map].
  - now rewrite app_nil_r.
  - inversion Hnd as [|? ? Hnotin Hnd']; subst.
    fold (entries c l).
    assert (Hk : ~ In k (keys init)) by (apply Hdis; now left).
    unfold set_if at 2. cbn [fst].
    destruct (c (k, v)) as [x|].
    + rewrite IH; auto.
      * rewrite dict_set_notin by exact Hk. now rewrite <- app_assoc.
      * intros k' Hin Hin'. apply keys_dict_set in Hin' as [Hin' | ->].
        -- apply (Hdis k'); [now right | exact Hin'].
        -- now apply Hnotin.
    + rewrite IH; auto. intros k' Hin. apply Hdis. now right.
Qed.

Lemma compare_loop_entries (user avg : dict float) :
  NoDup (keys user) ->
  strengths (compare_loop user avg) = entries (strength_of avg) user
  /\ weaknesses (compare_loop user avg) = entries (weakness_of avg) user.
Proof.
  intros Hnd. unfold compare_loop.
  rewrite compare_fold_strengths, compare_fold_weaknesses.
  cbn [strengths weaknesses].
  split; apply (fold_set_if_entries _ user []); auto.
Qed.

(** X9.  Strengths and weaknesses list the subject's keys in the subject's
    own order, each at most once and never in both: strengths are the keys
    with [delta > 0] and weaknesses those with [delta < 0].  A key that only
    the baseline has appears in neither. *)
Theorem compare_lists_follow_subject_order :
  forall user_metrics streamer_avg : dict float,
    NoDup (keys user_metrics) ->
    let r := compute_strengths_and_weaknesses user_metrics streamer_avg in
    fst (fst r) = entries (strength_of streamer_avg) user_metrics
    /\ snd (fst r) = entries (weakness_of streamer_avg) user_metrics
    /\ (forall k, In k (keys (fst (fst r))) -> In k (keys user_metrics))
    /\ (forall k, In k (keys (snd (fst r))) -> In k (keys user_metrics)).
Proof.
  intros user avg Hnd r. subst r. unfold compute_strengths_and_weaknesses.
  cbn [fst snd].
  destruct (compare_loop_entries user avg Hnd) as [-> ->].
  repeat split; auto; intros k; apply keys_entries.
Qed.

Lemma compare_lists_follow_subject_order_witness :
  NoDup (keys example_subject)
  /\ fst (fst (compute_strengths_and_weaknesses example_subject example_baseline))
     = entries (strength_of example_baseline) example_subject
  /\ snd (fst (compute_strengths_and_weaknesses example_subject example_baseline))
     = entries (weakness_of example_baseline) example_subject.
Proof.
  assert (Hnd : NoDup (keys example_subject)).
  { repeat constructor; cbn; intuition discriminate. }
  split; [exact Hnd|].
  pose proof (compare_lists_follow_subject_order
                example_subject example_baseline Hnd) as H.
  cbv zeta in H. split; [exact (proj1 H) | exact (proj1 (proj2 H))].
Defined.

(** ** Comparator: magnitudes *)

Section Magnitudes.
Import SpecBounds RoundFacts FloatMore.

Lemma ltb_zero_ge0 x : (0 <? x)%float = true -> ge0 (Prim2SF x).
Proof.
  rewrite FloatAxioms.ltb_spec. change (Prim2SF 0) with (S754_zero false).
  destruct (Prim2SF x) as [[|] | [|] | | [|] ? ?]; cbn; auto; discriminate.
Qed.

Lemma ltb_zero_opp_ge0 x : (x <? 0)%float = true -> ge0 (Prim2SF (- x)).
Proof.
  rewrite FloatAxioms.ltb_spec, FloatAxioms.opp_spec.
  change (Prim2SF 0) with (S754_zero false).
  destruct (Prim2SF x) as [[|] | [|] | | [|] ? ?]; cbn; auto; discriminate.
Qed.

Lemma strength_of_ge0 avg item x :
  strength_of avg item = Some x -> (0 <=? x)%float = true.
Proof.
  unfold strength_of. destruct (0 <? delta_of avg item)%float eqn:E;
    [|discriminate].
  intros [= <-]. now apply leb_zero_ge0, round3_ge0, ltb_zero_ge0.
Qed.

Lemma weakness_of_ge0 avg item x :
  weakness_of avg item = Some x -> (0 <=? x)%float = true.
Proof.
  unfold weakness_of. destruct (0 <? delta_of avg item)%float; [discriminate|].
  destruct (delta_of avg item <? 0)%float eqn:E; [|discriminate].
  intros [= <-]. now apply leb_zero_ge0, round3_ge0, ltb_zero_opp_ge0.
Qed.

Lemma entries_In c l k x :
  In (k, x) (entries c l) -> exists item, In item l /\ c item = Some x.
Proof.
  unfold entries. rewrite in_flat_map. intros (item & Hin & H).
  exists item. split; [exact Hin|].
  destruct (c item); cbn in H; [|contradiction].
  destruct H as [[= _ ->] | []]. reflexivity.
Qed.

End Magnitudes.

(** X10.  Every magnitude recorded in strengths or in weaknesses is at
    least zero (it can round to 0.0), and never NaN. *)
Theorem compare_magnitudes_are_nonnegative :
  forall user_metrics streamer_avg : dict float,
    NoDup (keys user_metrics) ->
    let r := compute_strengths_and_weaknesses user_metrics streamer_avg in
    Forall (fun kv => (0 <=? snd kv)%float = true) (fst (fst r))
    /\ Forall (fun kv => (0 <=? snd kv)%float = true) (snd (fst r)).
Proof.
  intros user avg Hnd r. subst r. unfold compute_strengths_and_weaknesses.
  cbn [fst snd].
  destruct (compare_loop_entries user avg Hnd) as [-> ->].
  split; apply Forall_forall; intros [k x] Hin; cbn [snd];
    apply entries_In in Hin as (item & _ & Hc).
  - exact (strength_of_ge0 _ _ _ Hc).
  - exact (weakness_of_ge0 _ _ _ Hc).
Qed.

Lemma compare_magnitudes_are_nonnegative_witness :
  NoDup (keys example_subject)
  /\ Forall (fun kv => (0 <=? snd kv)%float = true)
       (fst (fst (compute_strengths_and_weaknesses example_subject example_baseline)))
  /\ Forall (fun kv => (0 <=? snd kv)%float = true)
       (snd (fst (compute_strengths_and_weaknesses example_subject example_baseline))).
Proof.
  assert (Hnd : NoDup (keys example_subject)).
  { repeat constructor; cbn; intuition discriminate. }
  split; [exact Hnd|].
  exact (compare_magnitudes_are_nonnegative example_subject example_baseline Hnd).
Defined.

(** ** Comparator: the largest delta and the two mappings *)

Section Classified.
Import SpecBounds RoundFacts FloatMore.
Variable avg : dict float.

Lemma ltb_abs_classified bd d :
  ge0 (Prim2SF bd) -> (bd <? abs d)%float = true ->
  ((0 <? d)%float = true \/ (d <? 0)%float = true)
  /\ ge0 (Prim2SF (abs d)).
Proof.
  rewrite !FloatAxioms.ltb_spec, FloatAxioms.abs_spec.
  change (Prim2SF 0) with (S754_zero false).
  destruct (Prim2SF bd) as [[|] | [|] | | [|] mb eb],
           (Prim2SF d) as [[|] | [|] | | [|] md ed];
    cbn; auto; try contradiction; try discriminate.
Qed.

Lemma abs_zero_unclassified d :
  (0 <? abs d)%float = false ->
  (0 <? d)%float = false /\ (d <? 0)%float = false.
Proof.
  rewrite !FloatAxioms.ltb_spec, FloatAxioms.abs_spec.
  change (Prim2SF 0) with (S754_zero false).
  destruct (Prim2SF d) as [[|] | [|] | | [|] md ed]; cbn; auto; discriminate.
Qed.

(** What the loop keeps true of its four variables. *)
Definition classified (st : comparison) : Prop :=
  ge0 (Prim2SF (biggest_delta st))
  /\ match biggest_key st with
     | None =>
         biggest_delta st = 0%float
         /\ strengths st = [] /\ weaknesses st = []
     | Some k => In k (keys (strengths st)) \/ In k (keys (weaknesses st))
     end.

Lemma set_if_keeps_key c (d : dict float) item k :
  In k (keys d) -> In k (keys (set_if c d item)).
Proof.
  unfold set_if. destruct (c item); [|auto].
  intros H. apply keys_dict_set. now left.
Qed.

Lemma compare_step_classified st item :
  classified st -> classified (compare_step avg st item).
Proof.
  unfold classified. intros [Hbd Hkey].
  destruct (compare_step_biggest avg st item) as [-> ->].
  rewrite compare_step_strengths, compare_step_weaknesses.
  unfold mag.
  destruct (biggest_delta st <? abs (delta_of avg item))%float eqn:E.
  - destruct (ltb_abs_classified _ _ Hbd E) as [Hd Habs].
    split; [exact Habs|].
    unfold set_if, strength_of, weakness_of.
    destruct Hd as [Hd | Hd].
    + left. rewrite Hd. apply keys_dict_set. now right.
    + right. rewrite (FloatFacts.ltb_zero_asym _ Hd), Hd.
      apply keys_dict_set. now right.
  - split; [exact Hbd|].
    destruct (biggest_key st) as [k|].
    + destruct Hkey as [H | H]; [left | right]; now apply set_if_keeps_key.
    + destruct Hkey as (Hz & Hs & Hw). rewrite Hz in E.
      destruct (abs_zero_unclassified _ E) as [E1 E2].
      unfold set_if, strength_of, weakness_of. rewrite E1, E2. auto.
Qed.

Lemma compare_fold_classified l : forall st,
  classified st -> classified (fold_left (compare_step avg) l st).
Proof.
  induction l as [|item l IH]; intros st H; cbn [fold_left]; [exact H|].
  now apply IH, compare_step_classified.
Qed.

End Classified.

(** X11.  The largest-delta key is always one of the keys put into
    strengths or weaknesses, and it is none exactly when both mappings are
    empty.  This holds for all values, infinities and NaN included. *)
Theorem largest_delta_key_is_classified :
  forall user_metrics streamer_avg : dict float,
    let r := compute_strengths_and_weaknesses user_metrics streamer_avg in
    (snd r = None <-> fst (fst r) = [] /\ snd (fst r) = [])
    /\ (forall k, snd r = Some k ->
                  In k (keys (fst (fst r))) \/ In k (keys (snd (fst r)))).
Proof.
  intros user avg r. subst r. unfold compute_strengths_and_weaknesses.
  cbn [fst snd].
  assert (H : classified (compare_loop user avg)).
  { apply compare_fold_classified. split; cbn; auto. }
  destruct H as [_ H].
  destruct (biggest_key (compare_loop user avg)) as [k|].
  - split.
    + split; [discriminate|]. intros [Hs Hw]. rewrite Hs, Hw in H.
      destruct H as [[] | []].
    + intros k' [= <-]. exact H.
  - split; [|discriminate]. tauto.
Qed.

(** ** Comparator: subject and baseline exchanged *)

Section Swap.
Import FloatMore.

Lemma entries_pointwise c c' :
  forall l l' : dict float,
    keys l = keys l' ->
    (forall k v v', In (k, v) l -> In (k, v') l' -> c (k, v) = c' (k, v')) ->
    entries c l = entries c' l'.
Proof.
  induction l as [|[k v] l IH]; intros [|[k' v'] l'] Hk Hc;
    try discriminate; [reflexivity|].
  cbn [keys map fst] in Hk. injection Hk as <- Hk.
  cbn [entries flat_map fst]. fold (entries c l). fold (entries c' l').
  rewrite (Hc k v v') by (now left).
  f_equal. apply IH; [exact Hk|].
  intros k0 v0 v0' H H'. apply Hc; now right.
Qed.

Lemma abs_sub_swap x y : abs (x - y) = abs (y - x).
Proof.
  apply Prim2SF_inj. rewrite !FloatAxioms.abs_spec, !FloatAxioms.sub_spec.
  destruct (SFsub_swap (Prim2SF x) (Prim2SF y)) as [-> | [-> ->]];
    [|reflexivity].
  destruct (SF64sub (Prim2SF x) (Prim2SF y)) as [[|] | [|] | | [|] ? ?];
    reflexivity.
Qed.

Lemma strength_weakness_swap x y :
  (if (0 <? x - y)%float then Some (PyFloat.round3 (x - y)) else None)
  = (if (0 <? y - x)%float then None
     else if (y - x <? 0)%float then Some (PyFloat.round3 (- (y - x)))
          else None).
Proof.
  rewrite <- (sub_swap_ltb x y).
  destruct (y - x <? 0)%float eqn:E.
  - rewrite (FloatFacts.ltb_zero_asym _ E). now rewrite (sub_swap_opp x y E).
  - destruct (0 <? y - x)%float; reflexivity.
Qed.

Lemma biggest_pointwise (avg avg' : dict float) :
  forall (l l' : dict float) (st st' : comparison),
    keys l = keys l' ->
    (forall k v v', In (k, v) l -> In (k, v') l' ->
                    mag avg (k, v) = mag avg' (k, v')) ->
    biggest_key st = biggest_key st' ->
    biggest_delta st = biggest_delta st' ->
    biggest_key (fold_left (compare_step avg) l st)
    = biggest_key (fold_left (compare_step avg') l' st').
Proof.
  induction l as [|[k v] l IH]; intros [|[k' v'] l'] st st' Hk Hm Hkey Hbd;
    try discriminate; [exact Hkey|].
  cbn [keys map fst] in Hk. injection Hk as <- Hk.
  cbn [fold_left]. apply IH; auto.
  - intros k0 v0 v0' H H'. apply Hm; now right.
  - rewrite (proj1 (compare_step_biggest avg st (k, v))),
      (proj1 (compare_step_biggest avg' st' (k, v'))).
    rewrite <- (Hm k v v') by (now left). rewrite Hbd, Hkey. reflexivity.
  - rewrite (proj2 (compare_step_biggest avg st (k, v))),
      (proj2 (compare_step_biggest avg' st' (k, v'))).
    rewrite <- (Hm k v v') by (now left). rewrite Hbd. reflexivity.
Qed.

End Swap.

(** X12.  Exchanging subject and baseline (two mappings with the same keys
    in the same order) exchanges strengths and weaknesses, magnitudes
    included, and leaves the largest-delta key as it is. *)
Theorem compare_swapped_exchanges_strengths_and_weaknesses :
  forall a b : dict float,
    NoDup (keys a) ->
    keys b = keys a ->
    let r := compute_strengths_and_weaknesses a b in
    let r' := compute_strengths_and_weaknesses b a in
    fst (fst r') = snd (fst r)
    /\ snd (fst r') = fst (fst r)
    /\ snd r' = snd r.
Proof.
  intros a b Hnd Hk r r'. subst r r'.
  unfold compute_strengths_and_weaknesses. cbn [fst snd].
  assert (Hnd' : NoDup (keys b)) by now rewrite Hk.
  destruct (compare_loop_entries a b Hnd) as [-> ->].
  destruct (compare_loop_entries b a Hnd') as [-> ->].
  assert (Hget : forall k v v', In (k, v) a -> In (k, v') b ->
            delta_of b (k, v) = (v - v')%float
            /\ delta_of a (k, v') = (v' - v)%float).
  { intros k v v' Ha Hb. unfold delta_of, dict_get_default. cbn [fst snd].
    now rewrite (dict_get_In _ _ _ Hnd' Hb), (dict_get_In _ _ _ Hnd Ha). }
  split; [|split].
  - symmetry. apply entries_pointwise; [now symmetry|].
    intros k v v' Ha Hb. destruct (Hget k v v' Ha Hb) as [E1 E2].
    unfold weakness_of, strength_of. rewrite E1, E2.
    cbv zeta. symmetry. apply strength_weakness_swap.
  - apply entries_pointwise; [exact Hk|].
    intros k v' v Hb Ha. destruct (Hget k v v' Ha Hb) as [E1 E2].
    unfold weakness_of, strength_of. rewrite E1, E2.
    cbv zeta. symmetry. apply strength_weakness_swap.
  - unfold compare_loop. apply biggest_pointwise; auto.
    intros k v' v Hb Ha. destruct (Hget k v v' Ha Hb) as [E1 E2].
    unfold mag. rewrite E1, E2. apply abs_sub_swap.
Qed.

Lemma compare_swapped_exchanges_strengths_and_weaknesses_witness :
  NoDup (keys example_subject)
  /\ compute_strengths_and_weaknesses example_baseline example_subject
     = ([("shots", 2%float)], [("boost_usage", 0.1%float)], Some "shots")
  /\ fst (fst (compute_strengths_and_weaknesses example_baseline example_subject))
     = snd (fst (compute_strengths_and_weaknesses example_subject example_baseline)).
Proof.
  assert (Hnd : NoDup (keys example_subject)).
  { repeat constructor; cbn; intuition discriminate. }
  split; [exact Hnd|]. split; [reflexivity|].
  exact (proj1 (compare_swapped_exchanges_strengths_and_weaknesses
                  example_subject example_baseline Hnd eq_refl)).
Defined.

(** ** Tip Generator: how many tips *)

Section TipCounts.

Lemma short_tip_cases k t :
  short_tip k = Some t ->
  (k = "boost_usage" /\ t = short_boost_usage)
  \/ (k = "flip_count" /\ t = short_flip_count)
  \/ (k = "shots" /\ t = short_shots)
  \/ (k = "goals" /\ t = short_goals).
Proof.
  unfold short_tip, short_tips. cbn [dict_get].
  destruct (String.eqb "boost_usage" k) eqn:E1;
    [apply String.eqb_eq in E1; intros [= <-]; auto|].
  destruct (String.eqb "flip_count" k) eqn:E2;
    [apply String.eqb_eq in E2; intros [= <-]; auto|].
  destruct (String.eqb "shots" k) eqn:E3;
    [apply String.eqb_eq in E3; intros [= <-]; auto|].
  destruct (String.eqb "goals" k) eqn:E4;
    [apply String.eqb_eq in E4; intros [= <-]; auto 6|].
  discriminate.
Qed.

Lemma long_tip_cases k t :
  long_tip k = Some t ->
  (k = "boost_usage" /\ t = long_boost_usage)
  \/ (k = "flip_count" /\ t = long_flip_count)
  \/ (k = "shots" /\ t = long_shots)
  \/ (k = "goals" /\ t = long_goals).
Proof.
  unfold long_tip, long_tips. cbn [dict_get].
  destruct (String.eqb "boost_usage" k) eqn:E1;
    [apply String.eqb_eq in E1; intros [= <-]; auto|].
  destruct (String.eqb "flip_count" k) eqn:E2;
    [apply String.eqb_eq in E2; intros [= <-]; auto|].
  destruct (String.eqb "shots" k) eqn:E3;
    [apply String.eqb_eq in E3; intros [= <-]; auto|].
  destruct (String.eqb "goals" k) eqn:E4;
    [apply String.eqb_eq in E4; intros [= <-]; auto 6|].
  discriminate.
Qed.

Lemma short_tip_injective k k' t :
  short_tip k = Some t -> short_tip k' = Some t -> k = k'.
Proof.
  intros H H'.
  apply short_tip_cases in H as [[-> ->] | [[-> ->] | [[-> ->] | [-> ->]]]];
    apply short_tip_cases in H' as [[-> E] | [[-> E] | [[-> E] | [-> E]]]];
    try reflexivity; discriminate E.
Qed.

Lemma long_tip_injective k k' t :
  long_tip k = Some t -> long_tip k' = Some t -> k = k'.
Proof.
  intros H H'.
  apply long_tip_cases in H as [[-> ->] | [[-> ->] | [[-> ->] | [-> ->]]]];
    apply long_tip_cases in H' as [[-> E] | [[-> E] | [[-> E] | [-> E]]]];
    try reflexivity; discriminate E.
Qed.

Lemma tips_of_In tip ks t :
  In t (tips_of tip ks) <-> exists k, In k ks /\ tip k = Some t.
Proof.
  unfold tips_of. rewrite in_flat_map. split; intros (k & Hk & H); exists k;
    (split; [exact Hk|]).
  - destruct (tip k); cbn in H; [|contradiction].
    destruct H as [-> | []]. reflexivity.
  - rewrite H. now left.
Qed.

Lemma tips_of_NoDup tip ks :
  (forall k k' t, tip k = Some t -> tip k' = Some t -> k = k') ->
  NoDup ks -> NoDup (tips_of tip ks).
Proof.
  intros Hinj. induction 1 as [|k ks Hnotin Hnd IH]; cbn [tips_of flat_map].
  - constructor.
  - fold (tips_of tip ks). destruct (tip k) as [t|] eqn:E; cbn [app]; [|exact IH].
    constructor; [|exact IH].
    intros Hin. apply tips_of_In in Hin as (k' & Hk' & E').
    now rewrite (Hinj k k' t E E') in Hnotin.
Qed.

Lemma tips_of_length tip ks :
  (List.length (tips_of tip ks) <= List.length ks)%nat.
Proof.
  unfold tips_of. induction ks as [|k ks IH]; cbn [flat_map List.length]; [lia|].
  rewrite length_app. destruct (tip k); cbn [List.length]; lia.
Qed.

Lemma generate_tips_closed (strengths weaknesses : dict float) :
  generate_tips strengths weaknesses
  = (tips_of short_tip (keys weaknesses), tips_of long_tip (keys strengths)).
Proof.
  unfold generate_tips. now rewrite fold_short_step, fold_long_step.
Qed.

End TipCounts.

(** X13.  For mappings (which hold each key once) no advice string is given
    twice: each list holds at most four tips, at most one per key of its
    mapping. *)
Theorem generate_tips_gives_each_tip_once :
  forall strengths weaknesses : dict float,
    NoDup (keys strengths) ->
    NoDup (keys weaknesses) ->
    let short_term := fst (generate_tips strengths weaknesses) in
    let long_term := snd (generate_tips strengths weaknesses) in
    NoDup short_term /\ NoDup long_term
    /\ (List.length short_term <= 4)%nat /\ (List.length long_term <= 4)%nat
    /\ (List.length short_term <= List.length weaknesses)%nat
    /\ (List.length long_term <= List.length strengths)%nat.
Proof.
  intros s w Hs Hw short_term long_term. subst short_term long_term.
  rewrite generate_tips_closed. cbn [fst snd].
  pose proof (tips_of_NoDup short_tip (keys w) short_tip_injective Hw) as Hns.
  pose proof (tips_of_NoDup long_tip (keys s) long_tip_injective Hs) as Hnl.
  repeat split; auto.
  - apply (NoDup_incl_length (l' := [short_boost_usage; short_flip_count;
                                     short_shots; short_goals]) Hns).
    intros t Hin. apply tips_of_In in Hin as (k & _ & E).
    apply short_tip_cases in E as [[_ ->] | [[_ ->] | [[_ ->] | [_ ->]]]];
      cbn; auto.
  - apply (NoDup_incl_length (l' := [long_boost_usage; long_flip_count;
                                     long_shots; long_goals]) Hnl).
    intros t Hin. apply tips_of_In in Hin as (k & _ & E).
    apply long_tip_cases in E as [[_ ->] | [[_ ->] | [[_ ->] | [_ ->]]]];
      cbn; auto.
  - rewrite <- (length_map fst w). apply tips_of_length.
  - rewrite <- (length_map fst s). apply tips_of_length.
Qed.

Lemma generate_tips_gives_each_tip_once_witness :
  NoDup (keys [("boost_usage", 0.1%float)])
  /\ NoDup (keys [("shots", 2%float); ("rank", 1%float)])
  /\ generate_tips [("boost_usage", 0.1%float)]
       [("shots", 2%float); ("rank", 1%float)]
     = ([short_shots], [long_boost_usage])
  /\ NoDup (fst (generate_tips [("boost_usage", 0.1%float)]
                   [("shots", 2%float); ("rank", 1%float)])).
Proof.
  assert (H1 : NoDup (keys [("boost_usage", 0.1%float)])).
  { repeat constructor; cbn; intuition discriminate. }
  assert (H2 : NoDup (keys [("shots", 2%float); ("rank", 1%float)])).
  { repeat constructor; cbn; intuition discriminate. }
  split; [exact H1|]. split; [exact H2|]. split; [reflexivity|].
  exact (proj1 (generate_tips_gives_each_tip_once _ _ H1 H2)).
Defined.

(** ** The database: ids *)

Section Ids.

Lemma fold_max_ge ids : forall a,
  a <= fold_left Z.max ids a
  /\ forall id, In id ids -> id <= fold_left Z.max ids a.
Proof.
  induction ids as [|i ids IH]; intros a; cbn [fold_left In].
  - split; [lia | tauto].
  - destruct (IH (Z.max a i)) as [H1 H2]. split; [lia|].
    intros id [<- | Hin]; [lia | auto].
Qed.

Lemma next_id_above ids id : In id ids -> id < next_id ids.
Proof.
  intros Hin. unfold next_id.
  pose proof (proj2 (fold_max_ge ids 0) id Hin). lia.
Qed.

Lemma next_id_fresh ids : ~ In (next_id ids) ids.
Proof. intros Hin. apply next_id_above in Hin. lia. Qed.

Lemma fold_min_least ids : forall a,
  (fold_left Z.min ids a = a \/ In (fold_left Z.min ids a) ids)
  /\ fold_left Z.min ids a <= a
  /\ forall id, In id ids -> fold_left Z.min ids a <= id.
Proof.
  induction ids as [|i ids IH]; intros a; cbn [fold_left In].
  - repeat split; [now left | lia | tauto].
  - destruct (IH (Z.min a i)) as (H1 & H2 & H3). repeat split.
    + destruct H1 as [H1 | H1]; [|now right; right].
      rewrite H1. destruct (Z.min_spec a i) as [[_ ->] | [_ ->]]; auto.
    + lia.
    + intros id [<- | Hin]; [lia | auto].
Qed.

End Ids.

(** ** The database: [init_db] *)

Lemma init_db_fresh :
  init_db empty_db
  = {| users := [{| user_id := 1; username := "Player1"; user_rank := "Gold";
                    followers := 0; friends := 0 |}];
       matches := [];
       streamers :=
         map (fun e => {| streamer_id := fst e;
                          streamer_name := fst (fst (snd e));
                          streamer_rank := snd (fst (snd e));
                          streamer_metrics := Some (snd (snd e)) |})
             (combine [1; 2; 3; 4; 5] dummy_streamers) |}.
Proof. reflexivity. Qed.

Lemma insert_streamer_not_nil tbl name rank metrics :
  insert_streamer tbl name rank metrics <> [].
Proof. unfold insert_streamer. destruct tbl; discriminate. Qed.

Lemma init_db_streamers_not_nil db : streamers (init_db db) <> [].
Proof.
  unfold init_db. cbn [streamers].
  destruct (streamers db) as [|r l] eqn:E; [|discriminate].
  cbn. discriminate.
Qed.

Lemma init_db_users_not_nil db : users (init_db db) <> [].
Proof.
  unfold init_db. cbn [users].
  destruct (users db) as [|r l] eqn:E; [|discriminate].
  cbn. discriminate.
Qed.

Lemma init_db_initialised_users db :
  users db <> [] -> users (init_db db) = users db.
Proof. unfold init_db. cbn [users]. now destruct (users db). Qed.

Lemma init_db_initialised db :
  users db <> [] -> streamers db <> [] -> init_db db = db.
Proof.
  unfold init_db. destruct db as [[|u us] ms [|s ss]]; cbn; congruence.
Qed.

(** X14.  [init_db] only adds: it leaves every row of every table where it
    is, adds the default user only to an empty [users] table and the five
    dummy streamers only to an empty [streamers] table, never touches
    [matches], and running it again changes nothing.  On a new file it
    gives the user [Player1] of rank [Gold] with id 1 and the streamers
    with ids 1 to 5. *)
Theorem init_db_only_fills_empty_tables :
  forall db : database,
    init_db (init_db db) = init_db db
    /\ matches (init_db db) = matches db
    /\ (users db <> [] -> users (init_db db) = users db)
    /\ (streamers db <> [] -> streamers (init_db db) = streamers db)
    /\ (users db = [] ->
        users (init_db db)
        = [{| user_id := 1; username := "Player1"; user_rank := "Gold";
              followers := 0; friends := 0 |}])
    /\ (streamers db = [] ->
        map streamer_id (streamers (init_db db)) = [1; 2; 3; 4; 5]
        /\ map streamer_rank (streamers (init_db db))
           = ["Bronze"; "Silver"; "Gold"; "Platinum"; "Diamond"]).
Proof.
  intros db. split; [|split; [|split; [|split; [|split]]]].
  - apply init_db_initialised;
      [apply init_db_users_not_nil | apply init_db_streamers_not_nil].
  - reflexivity.
  - unfold init_db. cbn [users]. now destruct (users db).
  - unfold init_db. cbn [streamers]. now destruct (streamers db).
  - unfold init_db. cbn [users]. now intros ->.
  - unfold init_db. cbn [streamers]. intros ->. split; reflexivity.
Qed.

(** ** The database: the default user *)

(** X15.  After [init_db] the default user id is the id of a user that
    exists, the least one; for a [users] table without rows
    [get_default_user_id] answers 1, the id of no user. *)
Theorem default_user_is_the_least_id :
  forall db : database,
    (users db <> [] ->
     In (get_default_user_id db) (map user_id (users db))
     /\ forall u, In u (users db) -> get_default_user_id db <= user_id u)
    /\ (users db = [] -> get_default_user_id db = 1)
    /\ In (get_default_user_id (init_db db)) (map user_id (users (init_db db))).
Proof.
  assert (H : forall db, users db <> [] ->
            In (get_default_user_id db) (map user_id (users db))
            /\ forall u, In u (users db) -> get_default_user_id db <= user_id u).
  { intros db Hne. unfold get_default_user_id.
    destruct (users db) as [|u us]; [congruence|]. cbn [map].
    destruct (fold_min_least (map user_id us) (user_id u)) as (H1 & H2 & H3).
    split.
    - destruct H1 as [-> | H1]; [now left | now right].
    - intros u' [<- | Hin]; [exact H2|].
      apply H3. now apply in_map. }
  intros db. split; [apply H|]. split.
  - unfold get_default_user_id. now intros ->.
  - apply H, init_db_users_not_nil.
Qed.

(** ** The database: a stored upload *)

Lemma filter_app_one {A : Type} (f : A -> bool) (l : list A) (a : A) :
  filter f (l ++ [a]) = (filter f l ++ if f a then [a] else [])%list.
Proof. rewrite filter_app. cbn. destruct (f a); reflexivity. Qed.

(** X16.  A stored upload adds one row to [matches] and changes nothing
    else: the row has a new id, belongs to the default user and holds the
    metrics [parse_match_data] returned.  The default user's selected
    metrics grow by that one entry, at the end; those of every other user
    stay as they are.  When [parse_match_data] raises nothing is stored. *)
Theorem upload_adds_one_match_of_the_default_user :
  forall (db db' : database) (save_path : string) (file : option json),
    store_upload db save_path file = Ok db' ->
    exists m row,
      parse_match_data file = Ok m
      /\ users db' = users db /\ streamers db' = streamers db
      /\ matches db' = (matches db ++ [row])%list
      /\ ~ In (match_id row) (map match_id (matches db))
      /\ match_user_id row = get_default_user_id db
      /\ match_file_path row = save_path
      /\ match_metrics row = Some (float_dict m)
      /\ select_match_metrics db' (get_default_user_id db)
         = (select_match_metrics db (get_default_user_id db)
            ++ [Some (float_dict m)])%list
      /\ (forall user, user <> get_default_user_id db ->
                       select_match_metrics db' user
                       = select_match_metrics db user).
Proof.
  intros db db' save_path file H. unfold store_upload in H.
  destruct (parse_match_data file) as [m|e]; [|discriminate].
  cbn [bind] in H. injection H as <-.
  exists m. eexists. split; [reflexivity|].
  cbn [users streamers matches]. unfold insert_match.
  repeat split; cbn [match_id match_user_id match_file_path match_metrics].
  - apply next_id_fresh.
  - unfold select_match_metrics. cbn [matches].
    rewrite filter_app_one. cbn [match_user_id].
    rewrite Z.eqb_refl, map_app. reflexivity.
  - intros user Hne. unfold select_match_metrics. cbn [matches].
    rewrite filter_app_one. cbn [match_user_id].
    replace (get_default_user_id db =? user) with false
      by (symmetry; apply Z.eqb_neq; congruence).
    now rewrite app_nil_r.
Qed.

Lemma upload_adds_one_match_of_the_default_user_witness :
  exists m row,
    parse_match_data (Some spec_example_record) = Ok m
    /\ users (init_db empty_db) = users (init_db empty_db)
    /\ matches
         {| users := users (init_db empty_db);
            matches := insert_match [] 1 "uploads/match.json"
                         (json_dumps (float_dict
                            [("boost_usage", 0.333); ("flip_count", 1);
                             ("shots", 0); ("goals", 0)]%float));
            streamers := streamers (init_db empty_db) |}
       = ([] ++ [row])%list
    /\ match_user_id row = 1
    /\ match_metrics row = Some (float_dict m).
Proof.
  destruct (upload_adds_one_match_of_the_default_user
              (init_db empty_db) _ "uploads/match.json"
              (Some spec_example_record) eq_refl)
    as (m & row & Hm & Hu & _ & Hrow & _ & Hid & _ & Hmet & _).
  exists m, row. repeat split; auto.
Defined.

(** ** The database: the streamer table update *)

Section Upsert.

Lemma in_same_id (tbl : list streamer_row) r r' :
  NoDup (map streamer_id tbl) -> In r tbl -> In r' tbl ->
  streamer_id r = streamer_id r' -> r = r'.
Proof.
  induction tbl as [|a tbl IH]; cbn [map In]; [tauto|].
  intros Hnd Hr Hr' Hid. inversion Hnd as [|? ? Hnotin Hnd']; subst.
  destruct Hr as [-> | Hr], Hr' as [-> | Hr']; auto.
  - exfalso. apply Hnotin. rewrite Hid. now apply in_map.
  - exfalso. apply Hnotin. rewrite <- Hid. now apply in_map.
Qed.

Definition set_streamer (row : streamer_row) (rank : string) (m : metrics)
  (r : streamer_row) : streamer_row :=
  if streamer_id r =? streamer_id row
  then {| streamer_id := streamer_id r; streamer_name := streamer_name r;
          streamer_rank := rank;
          streamer_metrics := json_dumps (metrics_json m) |}
  else r.

Lemma update_streamer_cases tbl name rank m :
  update_streamer tbl (name, rank, m)
  = match find_streamer name tbl with
    | Some row => map (set_streamer row rank m) tbl
    | None => insert_streamer tbl name rank (json_dumps (metrics_json m))
    end.
Proof. reflexivity. Qed.

Lemma set_streamer_name row rank m r :
  streamer_name (set_streamer row rank m r) = streamer_name r.
Proof. unfold set_streamer. now destruct (_ =? _). Qed.

Lemma set_streamer_id row rank m r :
  streamer_id (set_streamer row rank m r) = streamer_id r.
Proof. unfold set_streamer. now destruct (_ =? _). Qed.

Lemma set_streamer_other tbl row rank m r :
  NoDup (map streamer_id tbl) -> In row tbl -> In r tbl ->
  streamer_name r <> streamer_name row ->
  set_streamer row rank m r = r.
Proof.
  intros Hnd Hrow Hr Hne. unfold set_streamer.
  destruct (streamer_id r =? streamer_id row) eqn:E; [|reflexivity].
  apply Z.eqb_eq in E. now rewrite (in_same_id tbl r row Hnd Hr Hrow E) in Hne.
Qed.

Lemma find_streamer_Some name tbl row :
  find_streamer name tbl = Some row -> In row tbl /\ streamer_name row = name.
Proof.
  unfold find_streamer. intros H. apply find_some in H as [Hin E].
  now apply String.eqb_eq in E.
Qed.

Lemma find_streamer_None name tbl r :
  find_streamer name tbl = None -> In r tbl -> streamer_name r <> name.
Proof.
  unfold find_streamer. intros H Hin E.
  pose proof (find_none _ _ H r Hin) as Hf. cbn in Hf.
  apply String.eqb_neq in Hf. contradiction.
Qed.

Lemma update_streamer_ids tbl e :
  NoDup (map streamer_id tbl) ->
  NoDup (map streamer_id (update_streamer tbl e)).
Proof.
  destruct e as [[name rank] m]. intros Hnd. rewrite update_streamer_cases.
  destruct (find_streamer name tbl) as [row|].
  - rewrite map_map.
    rewrite (map_ext _ streamer_id (set_streamer_id row rank m)). exact Hnd.
  - unfold insert_streamer. rewrite map_app. cbn [map streamer_id].
    apply NoDup_app; [exact Hnd | repeat constructor; tauto |].
    intros id Hin [<- | []]. now apply next_id_fresh in Hin.
Qed.

(** A row of another name is neither changed, nor removed, nor added. *)
Lemma update_streamer_other tbl name rank m r :
  NoDup (map streamer_id tbl) -> streamer_name r <> name ->
  In r (update_streamer tbl (name, rank, m)) <-> In r tbl.
Proof.
  intros Hnd Hne. rewrite update_streamer_cases.
  destruct (find_streamer name tbl) as [row|] eqn:E.
  - apply find_streamer_Some in E as [Hrow <-].
    rewrite in_map_iff. split.
    + intros (r0 & <- & Hr0).
      rewrite set_streamer_name in Hne.
      now rewrite (set_streamer_other tbl row rank m r0 Hnd Hrow Hr0 Hne).
    + intros Hr. exists r. split; [|exact Hr].
      exact (set_streamer_other tbl row rank m r Hnd Hrow Hr Hne).
  - unfold insert_streamer. rewrite in_app_iff. cbn [In].
    split; [|tauto]. intros [H | [<- | []]]; [exact H|].
    cbn in Hne. congruence.
Qed.

Lemma find_map_set name row rank m : forall tbl,
  find_streamer name (map (set_streamer row rank m) tbl)
  = option_map (set_streamer row rank m) (find_streamer name tbl).
Proof.
  unfold find_streamer.
  induction tbl as [|r tbl IH]; cbn [map find option_map]; [reflexivity|].
  rewrite set_streamer_name. destruct (String.eqb (streamer_name r) name);
    [reflexivity | exact IH].
Qed.

Lemma find_streamer_app_None name tbl r :
  find_streamer name tbl = None ->
  find_streamer name (tbl ++ [r])
  = if String.eqb (streamer_name r) name then Some r else None.
Proof.
  unfold find_streamer.
  induction tbl as [|a tbl IH]; cbn [app find]; [reflexivity|].
  destruct (String.eqb (streamer_name a) name); [discriminate | exact IH].
Qed.

Lemma find_streamer_app_Some name tbl r row :
  find_streamer name tbl = Some row ->
  find_streamer name (tbl ++ [r]) = Some row.
Proof.
  unfold find_streamer.
  induction tbl as [|a tbl IH]; cbn [app find]; [discriminate|].
  destruct (String.eqb (streamer_name a) name); [auto | exact IH].
Qed.

(** The entry's own name afterwards: its first row holds the entry. *)
Lemma update_streamer_same tbl name rank m :
  exists row,
    find_streamer name (update_streamer tbl (name, rank, m)) = Some row
    /\ streamer_rank row = rank
    /\ streamer_metrics row = Some (metrics_json m).
Proof.
  rewrite update_streamer_cases.
  destruct (find_streamer name tbl) as [row|] eqn:E.
  - rewrite find_map_set, E. cbn [option_map].
    eexists. split; [reflexivity|].
    unfold set_streamer. rewrite Z.eqb_refl. split; reflexivity.
  - unfold insert_streamer. rewrite (find_streamer_app_None _ _ _ E).
    cbn [streamer_name]. rewrite String.eqb_refl.
    eexists. split; [reflexivity|]. split; reflexivity.
Qed.

(** The first row of another name stays the first row of that name. *)
Lemma update_streamer_find_other tbl name rank m name' :
  NoDup (map streamer_id tbl) -> name' <> name ->
  find_streamer name' (update_streamer tbl (name, rank, m))
  = find_streamer name' tbl.
Proof.
  intros Hnd Hne. rewrite update_streamer_cases.
  destruct (find_streamer name tbl) as [row|] eqn:E.
  - rewrite find_map_set.
    destruct (find_streamer name' tbl) as [r|] eqn:E'; [|reflexivity].
    cbn [option_map]. f_equal.
    apply find_streamer_Some in E as [Hrow Hn].
    apply find_streamer_Some in E' as [Hr Hn'].
    apply (set_streamer_other tbl); auto. congruence.
  - unfold insert_streamer.
    destruct (find_streamer name' tbl) as [r|] eqn:E'.
    + now apply find_streamer_app_Some.
    + rewrite (find_streamer_app_None _ _ _ E'). cbn [streamer_name].
      replace (String.eqb name name') with false; [reflexivity|].
      symmetry. apply String.eqb_neq. congruence.
Qed.

Definition entry_name (e : string * string * metrics) : string := fst (fst e).

Lemma fold_update_ids data : forall tbl,
  NoDup (map streamer_id tbl) ->
  NoDup (map streamer_id (fold_left update_streamer data tbl)).
Proof.
  induction data as [|e data IH]; intros tbl Hnd; cbn [fold_left]; [exact Hnd|].
  now apply IH, update_streamer_ids.
Qed.

Lemma fold_update_find_other data name' : forall tbl,
  NoDup (map streamer_id tbl) -> ~ In name' (map entry_name data) ->
  find_streamer name' (fold_left update_streamer data tbl)
  = find_streamer name' tbl.
Proof.
  induction data as [|[[name rank] m] data IH]; intros tbl Hnd Hn;
    cbn [fold_left]; [reflexivity|].
  cbn [map entry_name fst In] in Hn.
  rewrite IH; [|now apply update_streamer_ids | tauto].
  apply update_streamer_find_other; [exact Hnd|]. intros ->. tauto.
Qed.

Lemma fold_update_other data r : forall tbl,
  NoDup (map streamer_id tbl) -> ~ In (streamer_name r) (map entry_name data) ->
  In r (fold_left update_streamer data tbl) <-> In r tbl.
Proof.
  induction data as [|[[name rank] m] data IH]; intros tbl Hnd Hn;
    cbn [fold_left]; [reflexivity|].
  cbn [map entry_name fst In] in Hn.
  rewrite IH; [|now apply update_streamer_ids | tauto].
  apply update_streamer_other; [exact Hnd|]. intros E. apply Hn. now left.
Qed.

Lemma fold_update_same data : forall tbl name rank m,
  NoDup (map streamer_id tbl) -> NoDup (map entry_name data) ->
  In (name, rank, m) data ->
  exists row,
    find_streamer name (fold_left update_streamer data tbl) = Some row
    /\ streamer_rank row = rank
    /\ streamer_metrics row = Some (metrics_json m).
Proof.
  induction data as [|e data IH]; intros tbl name rank m Hnd Hnames Hin;
    cbn [fold_left]; [contradiction|].
  cbn [map] in Hnames. inversion Hnames as [|? ? Hnotin Hnames']; subst.
  destruct Hin as [-> | Hin].
  - cbn [entry_name fst] in Hnotin.
    rewrite fold_update_find_other; [|now apply update_streamer_ids | exact Hnotin].
    apply update_streamer_same.
  - apply IH; auto. now apply update_streamer_ids.
Qed.

(** An entry that the table already holds changes nothing. *)
Lemma update_streamer_held tbl name rank m row :
  NoDup (map streamer_id tbl) ->
  find_streamer name tbl = Some row ->
  streamer_rank row = rank ->
  streamer_metrics row = Some (metrics_json m) ->
  update_streamer tbl (name, rank, m) = tbl.
Proof.
  intros Hnd E Hr Hm. rewrite update_streamer_cases, E.
  apply find_streamer_Some in E as [Hrow _].
  rewrite <- (map_id tbl) at 2. apply map_ext_in. intros r Hin.
  unfold set_streamer. destruct (streamer_id r =? streamer_id row) eqn:Eid;
    [|reflexivity].
  apply Z.eqb_eq in Eid. rewrite (in_same_id tbl r row Hnd Hin Hrow Eid).
  destruct row. cbn in *. now subst.
Qed.

Lemma fold_update_held data : forall tbl,
  NoDup (map streamer_id tbl) ->
  (forall name rank m, In (name, rank, m) data ->
     exists row, find_streamer name tbl = Some row
                 /\ streamer_rank row = rank
                 /\ streamer_metrics row = Some (metrics_json m)) ->
  fold_left update_streamer data tbl = tbl.
Proof.
  induction data as [|[[name rank] m] data IH]; intros tbl Hnd Hheld;
    cbn [fold_left]; [reflexivity|].
  destruct (Hheld name rank m (or_introl eq_refl)) as (row & E & Hr & Hm).
  rewrite (update_streamer_held tbl name rank m row Hnd E Hr Hm).
  apply IH; [exact Hnd|]. intros n r m' Hin. apply Hheld. now right.
Qed.

End Upsert.

(** X17.  [update_streamer_table] is an insert-or-update by name.  For
    scraped entries of distinct names, on a table with distinct ids:
    afterwards the first row of each scraped name holds the scraped rank
    and metrics; rows of other names are neither changed, added nor
    removed; ids stay distinct; users and matches are untouched; and a
    second update with the same entries changes nothing. *)
Theorem update_streamer_table_is_an_upsert :
  forall (db : database) (data : list (string * string * metrics)),
    NoDup (map streamer_id (streamers db)) ->
    NoDup (map entry_name data) ->
    let db' := update_streamer_table data db in
    users db' = users db /\ matches db' = matches db
    /\ NoDup (map streamer_id (streamers db'))
    /\ (forall name rank m,
          In (name, rank, m) data ->
          exists row,
            find_streamer name (streamers db') = Some row
            /\ streamer_rank row = rank
            /\ streamer_metrics row = Some (metrics_json m))
    /\ (forall r,
          ~ In (streamer_name r) (map entry_name data) ->
          (In r (streamers db') <-> In r (streamers db)))
    /\ update_streamer_table data db' = db'.
Proof.
  intros db data Hnd Hnames db'. subst db'.
  unfold update_streamer_table. cbn [users matches streamers].
  pose proof (fold_update_ids data _ Hnd) as Hnd'.
  pose proof (fun name rank m =>
                fold_update_same data (streamers db) name rank m Hnd Hnames)
    as Hsame.
  repeat split; auto.
  - apply fold_update_other; auto.
  - apply fold_update_other; auto.
  - f_equal. now apply fold_update_held.
Qed.

Lemma update_streamer_table_is_an_upsert_witness :
  NoDup (map streamer_id (streamers (init_db empty_db)))
  /\ NoDup (map entry_name sample_scrape)
  /\ map (fun r => (streamer_id r, streamer_name r, streamer_rank r))
       (streamers (update_streamer_table sample_scrape (init_db empty_db)))
     = [(1, "StreamerAlpha", "Bronze"); (2, "StreamerBeta", "Silver");
        (3, "StreamerGamma", "Champ"); (4, "StreamerDelta", "Platinum");
        (5, "StreamerEpsilon", "Diamond"); (6, "FlipWizard", "Gold")]
  /\ update_streamer_table sample_scrape
       (update_streamer_table sample_scrape (init_db empty_db))
     = update_streamer_table sample_scrape (init_db empty_db).
Proof.
  assert (H1 : NoDup (map streamer_id (streamers (init_db empty_db)))).
  { cbn. repeat constructor; cbn; intuition discriminate. }
  assert (H2 : NoDup (map entry_name sample_scrape)).
  { cbn. repeat constructor; cbn; intuition discriminate. }
  split; [exact H1|]. split; [exact H2|]. split; [reflexivity|].
  pose proof (update_streamer_table_is_an_upsert
                (init_db empty_db) sample_scrape H1 H2) as H.
  cbv zeta in H. exact (proj2 (proj2 (proj2 (proj2 (proj2 H))))).
Defined.

(** ** [scraper.py]: the scraped entries *)

Section Scraped.

Lemma map_fst_combine {A B : Type} (l : list A) : forall l' : list B,
  List.length l = List.length l' -> map fst (combine l l') = l.
Proof.
  induction l as [|a l IH]; intros [|b l'] H; cbn in *; try congruence.
  f_equal. apply IH. congruence.
Qed.

Lemma scrape_names ds :
  List.length ds = 8%nat ->
  map entry_name (scrape_streamer_metrics ds) = streamer_names.
Proof.
  intros H. unfold scrape_streamer_metrics. rewrite map_map.
  rewrite (map_ext _ fst) by reflexivity.
  apply map_fst_combine. now rewrite H.
Qed.

Lemma streamer_names_NoDup : NoDup streamer_names.
Proof. repeat constructor; cbn; intuition discriminate. Qed.

Lemma possible_rank d :
  possible_draws d -> In (nth (rank_choice d) ranks "") ranks.
Proof. intros [H _]. apply nth_In. exact H. Qed.

(** The flip counts [float(n)] for [n] from 5 to 19 are in order. *)
Definition flip_of (n : Z) : float := of_uint63 (of_Z n).

Definition flips_in_order (a b : nat) : bool :=
  let x := Z.of_nat a + 5 in
  let y := Z.of_nat b + 5 in
  if x <=? y then (flip_of x <=? flip_of y)%float else true.

Lemma flips_in_order_table :
  forallb (fun a => forallb (flips_in_order a) (seq 0 15)) (seq 0 15) = true.
Proof. vm_compute. reflexivity. Qed.

Lemma flip_of_le x y :
  5 <= x <= 19 -> 5 <= y <= 19 -> x <= y ->
  (flip_of x <=? flip_of y)%float = true.
Proof.
  intros Hx Hy Hxy.
  pose proof flips_in_order_table as H. rewrite forallb_forall in H.
  specialize (H (Z.to_nat (x - 5))). rewrite forallb_forall in H.
  assert (Ha : In (Z.to_nat (x - 5)) (seq 0 15)) by (apply in_seq; lia).
  assert (Hb : In (Z.to_nat (y - 5)) (seq 0 15)) by (apply in_seq; lia).
  specialize (H Ha _ Hb). unfold flips_in_order in H.
  rewrite !Z2Nat.id in H by lia.
  replace (x - 5 + 5) with x in H by lia.
  replace (y - 5 + 5) with y in H by lia.
  replace (x <=? y) with true in H by (symmetry; apply Z.leb_le; lia).
  exact H.
Qed.

End Scraped.

(** X26.  [scrape_streamer_metrics] returns one entry for each of the
    eight fixed names, in their order, so the names are distinct; each rank
    is one of the seven ranks; each [flip_count] is a whole number from 5 to
    19; and of two entries the one of the higher rank never has the lower
    [flip_count]. *)
Theorem scraped_entries_are_well_formed :
  forall ds : list draws,
    List.length ds = 8%nat ->
    Forall possible_draws ds ->
    let data := scrape_streamer_metrics ds in
    map entry_name data = streamer_names
    /\ NoDup (map entry_name data)
    /\ Forall (fun e => In (snd (fst e)) ranks) data
    /\ Forall (fun e => exists n, 5 <= n <= 19
                                  /\ flip_count (snd e) = of_uint63 (of_Z n))
         data
    /\ (forall name name' d d',
          possible_draws d -> possible_draws d' ->
          (rank_choice d < rank_choice d')%nat ->
          (flip_count (snd (scrape_one name d))
           <=? flip_count (snd (scrape_one name' d')))%float = true).
Proof.
  intros ds Hlen Hds data. subst data.
  split; [now apply scrape_names|].
  split; [rewrite scrape_names by exact Hlen; apply streamer_names_NoDup|].
  assert (Hin : forall e, In e (scrape_streamer_metrics ds) ->
            exists name d, possible_draws d /\ e = scrape_one name d).
  { intros e He. unfold scrape_streamer_metrics in He.
    apply in_map_iff in He as ([name d] & <- & Hc).
    apply in_combine_r in Hc. rewrite Forall_forall in Hds.
    exists name, d. split; [now apply Hds | reflexivity]. }
  split; [|split].
  - apply Forall_forall. intros e He.
    destruct (Hin e He) as (name & d & Hd & ->). now apply possible_rank.
  - apply Forall_forall. intros e He.
    destruct (Hin e He) as (name & d & [Hr Hf] & ->).
    exists (4 + (Z.of_nat (rank_choice d) + 1) * 2 + flip_noise d).
    split; [lia | reflexivity].
  - intros name name' d d' [Hr Hf] [Hr' Hf'] Hlt.
    cbn [scrape_one snd flip_count].
    apply flip_of_le; lia.
Qed.

Lemma scraped_entries_are_well_formed_witness :
  map entry_name
    (scrape_streamer_metrics
       (repeat {| rank_choice := 2; boost_noise := 0.01; flip_noise := -1;
                  shots_noise := 0.25; goals_noise := 0 |}%float 8))
  = streamer_names.
Proof.
  apply (scraped_entries_are_well_formed
           (repeat {| rank_choice := 2; boost_noise := 0.01; flip_noise := -1;
                      shots_noise := 0.25; goals_noise := 0 |}%float 8)).
  - reflexivity.
  - repeat constructor; cbn; lia.
Defined.

(** ** The coach page: databases the program brings about *)

Section StoredMetrics.

Definition stored_db (db : database) : Prop :=
  Forall (fun r => is_stored_metrics (match_metrics r) = true) (matches db)
  /\ Forall (fun r => is_stored_metrics (streamer_metrics r) = true)
       (streamers db).

Lemma float_dict_stored m : is_stored_metrics (Some (float_dict m)) = true.
Proof.
  cbn [is_stored_metrics float_dict]. rewrite forallb_forall.
  intros kv Hin. apply in_map_iff in Hin as (x & <- & _). reflexivity.
Qed.

Lemma metrics_json_stored t : is_stored_metrics (Some (metrics_json t)) = true.
Proof. apply (float_dict_stored (metrics_dict t)). Qed.

Lemma update_streamer_stored tbl e :
  Forall (fun r => is_stored_metrics (streamer_metrics r) = true) tbl ->
  Forall (fun r => is_stored_metrics (streamer_metrics r) = true)
    (update_streamer tbl e).
Proof.
  destruct e as [[name rank] m]. intros H. rewrite update_streamer_cases.
  destruct (find_streamer name tbl) as [row|].
  - rewrite Forall_map. eapply Forall_impl; [|exact H].
    intros r Hr. unfold set_streamer.
    destruct (_ =? _); [apply metrics_json_stored | exact Hr].
  - unfold insert_streamer. apply Forall_app. split; [exact H|].
    constructor; [apply metrics_json_stored | constructor].
Qed.

Lemma init_db_stored db : stored_db db -> stored_db (init_db db).
Proof.
  intros [Hm Hs]. split; [exact Hm|].
  unfold init_db. cbn [streamers].
  destruct (streamers db); [|exact Hs].
  cbn. repeat constructor.
Qed.

Lemma reachable_stored db : reachable db -> stored_db db.
Proof.
  induction 1 as [|db _ IH|db save_path file db' _ IH Hup|db data _ IH].
  - apply init_db_stored. split; constructor.
  - now apply init_db_stored.
  - unfold store_upload in Hup.
    destruct (parse_match_data file) as [m|]; [|discriminate].
    injection Hup as <-. destruct IH as [Hm Hs]. split; [|exact Hs].
    cbn [matches]. unfold insert_match. apply Forall_app. split; [exact Hm|].
    constructor; [apply float_dict_stored | constructor].
  - destruct IH as [Hm Hs]. split; [exact Hm|].
    cbn [update_streamer_table streamers].
    clear Hm. revert Hs. generalize (streamers db).
    induction data as [|e data IHd]; intros tbl Hs; cbn [fold_left]; [exact Hs|].
    now apply IHd, update_streamer_stored.
Qed.

Lemma dict_get_Some_In {V : Type} (d : dict V) k v :
  dict_get d k = Some v -> In (k, v) d.
Proof.
  induction d as [|[k0 v0] d IH]; cbn [dict_get In]; [discriminate|].
  destruct (String.eqb k0 k) eqn:E.
  - apply String.eqb_eq in E. intros [= ->]. left. congruence.
  - auto.
Qed.

Lemma py_float_stored_number d k :
  forallb (fun kv => is_stored_number (snd kv)) d = true ->
  exists x, py_float (dict_get_default d k (JFloat 0)) = Ok x.
Proof.
  intros Hd. unfold dict_get_default.
  destruct (dict_get d k) as [v|] eqn:E; [|cbn; eauto].
  apply dict_get_Some_In in E. rewrite forallb_forall in Hd.
  specialize (Hd _ E). cbn [snd] in Hd.
  destruct v as [| | z | x | | |]; try discriminate; cbn [py_float]; eauto.
  apply Z.ltb_lt in Hd.
  destruct (FloatMore.of_int_small_Some z Hd) as [x ->]. eauto.
Qed.

Lemma row_metrics_stored row :
  is_stored_metrics (Some row) = true -> exists t, row_metrics row = Ok t.
Proof.
  destruct row as [| | | | | |d]; try discriminate.
  cbn [is_stored_metrics row_metrics]. intros Hd.
  destruct (py_float_stored_number d "boost_usage" Hd) as [bu ->].
  destruct (py_float_stored_number d "flip_count" Hd) as [fc ->].
  destruct (py_float_stored_number d "shots" Hd) as [sh ->].
  destruct (py_float_stored_number d "goals" Hd) as [go ->].
  cbn. eauto.
Qed.

Lemma rows_metrics_stored rows :
  Forall (fun text => is_stored_metrics text = true) rows ->
  exists ts, rows_metrics rows = Ok ts.
Proof.
  induction 1 as [|[row|] rows Hrow _ [ts IH]]; cbn [rows_metrics].
  - eauto.
  - destruct (row_metrics_stored row Hrow) as [t ->]. rewrite IH. cbn. eauto.
  - discriminate.
Qed.

Lemma average_rows_stored rows :
  Forall (fun text => is_stored_metrics text = true) rows ->
  exists m, average_rows rows = Ok m.
Proof.
  intros H. rewrite average_rows_general.
  destruct rows as [|r rows]; [eauto|].
  destruct (rows_metrics_stored _ H) as [ts ->]. cbn. eauto.
Qed.

Lemma render_coach_Ok db user_metrics streamer_avg :
  aggregate_user_metrics (select_match_metrics db (get_default_user_id db))
  = Ok user_metrics ->
  get_streamer_average (select_streamer_metrics db (default_user_rank db))
  = Ok streamer_avg ->
  let r := compare_loop user_metrics streamer_avg in
  render_coach db
  = Ok {| coach_title := "Personal Coach";
          coach_rank := default_user_rank db;
          coach_biggest_diff :=
            match biggest_key r with
            | Some key => str_or key "N/A"
            | None => "N/A"
            end;
          coach_strengths := strengths r;
          coach_weaknesses := weaknesses r;
          coach_short_tips :=
            str_or (join "<br/>" (tips_of short_tip (keys (weaknesses r))))
              "No immediate suggestions.";
          coach_long_tips :=
            str_or (join "<br/>" (tips_of long_tip (keys (strengths r))))
              "No long term suggestions." |}.
Proof.
  intros Hu Hs r. unfold render_coach. rewrite Hu, Hs. cbn [bind].
  unfold compute_strengths_and_weaknesses. fold r.
  now rewrite generate_tips_closed.
Qed.

End StoredMetrics.

(** X18.  On every database the program can bring about ([init_db],
    stored uploads and streamer table updates, in any order) the coach page
    is computed without an exception: the rows the program writes are
    always mappings of numbers, which both aggregates accept. *)
Theorem coach_page_renders_on_reachable_database :
  forall db : database,
    reachable db ->
    exists page, render_coach db = Ok page.
Proof.
  intros db Hr. destruct (reachable_stored db Hr) as [Hm Hs].
  assert (Hu : exists m,
             aggregate_user_metrics
               (select_match_metrics db (get_default_user_id db)) = Ok m).
  { apply average_rows_stored. unfold select_match_metrics.
    rewrite Forall_map. apply incl_Forall with (2 := Hm).
    intros r Hin. now apply filter_In in Hin. }
  assert (Ha : exists m,
             get_streamer_average
               (select_streamer_metrics db (default_user_rank db)) = Ok m).
  { apply average_rows_stored. unfold select_streamer_metrics.
    rewrite Forall_map. apply incl_Forall with (2 := Hs).
    intros r Hin. now apply filter_In in Hin. }
  destruct Hu as [um Hu], Ha as [sa Ha].
  rewrite (render_coach_Ok db um sa Hu Ha). eauto.
Qed.

Lemma coach_page_renders_on_reachable_database_witness :
  exists page,
    render_coach (update_streamer_table sample_scrape (init_db empty_db))
    = Ok page.
Proof.
  apply coach_page_renders_on_reachable_database.
  apply reachable_update, reachable_new.
Defined.

(** ** The coach page: what it shows *)

Section CoachFacts.
Import SpecBounds RoundFacts FloatMore.

Lemma average_rows_keys rows m :
  average_rows rows = Ok m -> keys m = canonical_keys.
Proof.
  rewrite average_rows_general. destruct rows as [|r rows].
  - now intros [= <-].
  - destruct (rows_metrics (r :: rows)); [|discriminate].
    now intros [= <-].
Qed.

Lemma canonical_keys_NoDup : NoDup canonical_keys.
Proof. repeat constructor; cbn; intuition discriminate. Qed.

Lemma entries_cons c item l :
  entries c (item :: l)
  = (match c item with Some x => [(fst item, x)] | None => [] end
     ++ entries c l)%list.
Proof. reflexivity. Qed.

Lemma entries_keys_NoDup c l : NoDup (keys l) -> NoDup (keys (entries c l)).
Proof.
  induction l as [|item l IH]; intros Hnd; [constructor|].
  cbn [keys map] in Hnd. inversion Hnd as [|? ? Hnotin Hnd']; subst.
  rewrite entries_cons. destruct (c item); cbn [app]; [|auto].
  cbn [keys map fst]. constructor; [|now apply IH].
  intros Hin. apply Hnotin. now apply keys_entries in Hin.
Qed.

Lemma entries_keys_In c l k :
  NoDup (keys l) ->
  In k (keys (entries c l)) ->
  exists v x, In (k, v) l /\ c (k, v) = Some x.
Proof.
  intros _ Hin. unfold keys in Hin. apply in_map_iff in Hin as ([k' x] & <- & Hin).
  unfold entries in Hin. apply in_flat_map in Hin as ([k0 v] & Hl & H).
  destruct (c (k0, v)) as [x'|] eqn:E; cbn in H; [|contradiction].
  destruct H as [[= <- <-] | []]. cbn [fst]. eauto.
Qed.

Lemma In_same_key (l : dict float) k v v' :
  NoDup (keys l) -> In (k, v) l -> In (k, v') l -> v = v'.
Proof.
  intros Hnd H H'.
  pose proof (dict_get_In _ _ _ Hnd H) as E.
  pose proof (dict_get_In _ _ _ Hnd H') as E'. congruence.
Qed.

Lemma strength_excludes_weakness avg item x :
  strength_of avg item = Some x -> weakness_of avg item = None.
Proof.
  unfold strength_of, weakness_of.
  destruct (0 <? delta_of avg item)%float; [reflexivity | discriminate].
Qed.

Lemma entries_exclusive avg l k :
  NoDup (keys l) ->
  In k (keys (entries (strength_of avg) l)) ->
  ~ In k (keys (entries (weakness_of avg) l)).
Proof.
  intros Hnd Hs Hw.
  apply entries_keys_In in Hs as (v & x & Hin & Hc); [|exact Hnd].
  apply entries_keys_In in Hw as (v' & x' & Hin' & Hc'); [|exact Hnd].
  rewrite (In_same_key l k v v' Hnd Hin Hin') in Hc.
  apply strength_excludes_weakness in Hc. congruence.
Qed.

Lemma entries_lengths avg l :
  (List.length (entries (strength_of avg) l)
   + List.length (entries (weakness_of avg) l) <= List.length l)%nat.
Proof.
  induction l as [|item l IH]; [cbn; lia|].
  rewrite !entries_cons, !length_app. cbn [List.length].
  destruct (strength_of avg item) as [x|] eqn:E.
  - rewrite (strength_excludes_weakness _ _ _ E). cbn [List.length]. lia.
  - destruct (weakness_of avg item); cbn [List.length]; lia.
Qed.

Lemma canonical_short_tip k :
  In k canonical_keys -> exists t, short_tip k = Some t.
Proof.
  cbn. intros [<- | [<- | [<- | [<- | []]]]]; cbn; eauto.
Qed.

Lemma canonical_long_tip k :
  In k canonical_keys -> exists t, long_tip k = Some t.
Proof.
  cbn. intros [<- | [<- | [<- | [<- | []]]]]; cbn; eauto.
Qed.

Lemma tips_of_canonical tip ks :
  (forall k, In k ks -> exists t, tip k = Some t) ->
  List.length (tips_of tip ks) = List.length ks.
Proof.
  unfold tips_of. induction ks as [|k ks IH]; intros H; [reflexivity|].
  cbn [flat_map List.length]. rewrite length_app.
  destruct (H k (or_introl eq_refl)) as [t ->]. cbn [List.length].
  rewrite IH; [reflexivity|]. intros k' Hin. apply H. now right.
Qed.

(** The first character of a text. *)
Definition head_char (s : string) : option ascii :=
  match s with
  | String c _ => Some c
  | EmptyString => None
  end.

Lemma head_char_append s s' :
  s <> "" -> head_char (s ++ s') = head_char s.
Proof. destruct s; [congruence | reflexivity]. Qed.

Lemma head_char_join sep t ts :
  t <> "" -> head_char (join sep (t :: ts)) = head_char t.
Proof.
  intros Ht. unfold join. cbn [String.concat].
  destruct ts; [reflexivity|]. now apply head_char_append.
Qed.

Lemma short_tip_head k t :
  short_tip k = Some t ->
  t <> "" /\ head_char t <> Some "N"%char.
Proof.
  intros H.
  apply short_tip_cases in H as [[_ ->] | [[_ ->] | [[_ ->] | [_ ->]]]];
    split; discriminate.
Qed.

Lemma long_tip_head k t :
  long_tip k = Some t ->
  t <> "" /\ head_char t <> Some "N"%char.
Proof.
  intros H.
  apply long_tip_cases in H as [[_ ->] | [[_ ->] | [[_ ->] | [_ ->]]]];
    split; discriminate.
Qed.

Lemma str_or_default_iff tip default (d : dict float) :
  (forall k t, tip k = Some t -> t <> "" /\ head_char t <> Some "N"%char) ->
  (forall k, In k (keys d) -> exists t, tip k = Some t) ->
  head_char default = Some "N"%char ->
  (str_or (join "<br/>" (tips_of tip (keys d))) default = default <-> d = []).
Proof.
  intros Hhead Htip Hdef. destruct d as [|[k v] d].
  - split; reflexivity.
  - split; [|discriminate]. intros H. exfalso.
    destruct (Htip k (or_introl eq_refl)) as [t Et].
    destruct (Hhead k t Et) as [Hne Hh].
    cbn [keys map fst tips_of flat_map] in H. rewrite Et in H. cbn [app] in H.
    pose proof (head_char_join "<br/>" t
                  (flat_map (fun k0 => match tip k0 with
                                       | Some t0 => [t0]
                                       | None => []
                                       end) (map fst d)) Hne) as Hj.
    unfold str_or in H.
    destruct (String.eqb _ "") eqn:E.
    + apply String.eqb_eq in E. rewrite E in Hj. cbn in Hj.
      destruct t; [congruence | discriminate].
    + rewrite H, Hdef in Hj. congruence.
Qed.

Lemma canonical_key_shown k :
  In k canonical_keys -> str_or k "N/A" = k /\ k <> "N/A".
Proof.
  cbn. intros [<- | [<- | [<- | [<- | []]]]]; split; (reflexivity || discriminate).
Qed.

Lemma render_coach_inv db page :
  render_coach db = Ok page ->
  exists user_metrics streamer_avg,
    keys user_metrics = canonical_keys
    /\ aggregate_user_metrics (select_match_metrics db (get_default_user_id db))
       = Ok user_metrics
    /\ get_streamer_average (select_streamer_metrics db (default_user_rank db))
       = Ok streamer_avg
    /\ coach_strengths page = entries (strength_of streamer_avg) user_metrics
    /\ coach_weaknesses page = entries (weakness_of streamer_avg) user_metrics
    /\ coach_biggest_diff page
       = match biggest_key (compare_loop user_metrics streamer_avg) with
         | Some key => str_or key "N/A"
         | None => "N/A"
         end
    /\ coach_short_tips page
       = str_or (join "<br/>" (tips_of short_tip (keys (coach_weaknesses page))))
           "No immediate suggestions."
    /\ coach_long_tips page
       = str_or (join "<br/>" (tips_of long_tip (keys (coach_strengths page))))
           "No long term suggestions.".
Proof.
  intros H.
  destruct (aggregate_user_metrics
              (select_match_metrics db (get_default_user_id db)))
    as [um|] eqn:Hu; [|unfold render_coach in H; rewrite Hu in H; discriminate].
  destruct (get_streamer_average
              (select_streamer_metrics db (default_user_rank db)))
    as [sa|] eqn:Ha;
    [|unfold render_coach in H; rewrite Hu, Ha in H; discriminate].
  pose proof (average_rows_keys _ _ Hu) as Hk.
  assert (Hnd : NoDup (keys um)) by (rewrite Hk; apply canonical_keys_NoDup).
  rewrite (render_coach_Ok db um sa Hu Ha) in H. cbv zeta in H.
  destruct (compare_loop_entries um sa Hnd) as [Es Ew].
  injection H as <-. cbn [coach_strengths coach_weaknesses coach_biggest_diff
                            coach_short_tips coach_long_tips].
  exists um, sa. rewrite Es, Ew. repeat split; auto.
Qed.

End CoachFacts.

(** X19.  On the coach page strengths and weaknesses hold canonical metric
    keys only, each key at most once and no key in both, so at most four
    entries together; and the short-term and long-term texts hold exactly
    one advice string for each weakness and for each strength. *)
Theorem coach_page_gives_one_tip_per_entry :
  forall (db : database) (page : coach_context),
    render_coach db = Ok page ->
    let s := coach_strengths page in
    let w := coach_weaknesses page in
    incl (keys s) canonical_keys /\ incl (keys w) canonical_keys
    /\ NoDup (keys s) /\ NoDup (keys w)
    /\ (forall k, In k (keys s) -> ~ In k (keys w))
    /\ (List.length s + List.length w <= 4)%nat
    /\ coach_short_tips page
       = str_or (join "<br/>" (tips_of short_tip (keys w)))
           "No immediate suggestions."
    /\ coach_long_tips page
       = str_or (join "<br/>" (tips_of long_tip (keys s)))
           "No long term suggestions."
    /\ List.length (tips_of short_tip (keys w)) = List.length w
    /\ List.length (tips_of long_tip (keys s)) = List.length s.
Proof.
  intros db page H s w. subst s w.
  apply render_coach_inv in H
    as (um & sa & Hk & _ & _ & Es & Ew & _ & Hshort & Hlong).
  assert (Hnd : NoDup (keys um)) by (rewrite Hk; apply canonical_keys_NoDup).
  assert (Hs : incl (keys (coach_strengths page)) canonical_keys).
  { rewrite Es, <- Hk. intros k. apply keys_entries. }
  assert (Hw : incl (keys (coach_weaknesses page)) canonical_keys).
  { rewrite Ew, <- Hk. intros k. apply keys_entries. }
  split; [exact Hs|]. split; [exact Hw|].
  split; [rewrite Es; now apply entries_keys_NoDup|].
  split; [rewrite Ew; now apply entries_keys_NoDup|].
  split; [rewrite Es, Ew; intros k; now apply entries_exclusive|].
  split.
  { rewrite Es, Ew. pose proof (entries_lengths sa um) as Hl.
    replace (List.length um) with 4%nat in Hl; [exact Hl|].
    rewrite <- (length_map fst um). fold (keys um). now rewrite Hk. }
  split; [exact Hshort|]. split; [exact Hlong|]. split.
  - rewrite <- (length_map fst (coach_weaknesses page)).
    apply tips_of_canonical. intros k Hin. apply canonical_short_tip, Hw, Hin.
  - rewrite <- (length_map fst (coach_strengths page)).
    apply tips_of_canonical. intros k Hin. apply canonical_long_tip, Hs, Hin.
Qed.

Lemma coach_page_gives_one_tip_per_entry_witness :
  exists page,
    render_coach (init_db empty_db) = Ok page
    /\ keys (coach_weaknesses page) = canonical_keys
    /\ coach_strengths page = []
    /\ incl (keys (coach_weaknesses page)) canonical_keys
    /\ List.length (tips_of short_tip (keys (coach_weaknesses page)))
       = List.length (coach_weaknesses page).
Proof.
  eexists. split; [reflexivity|]. split; [reflexivity|]. split; [reflexivity|].
  pose proof (coach_page_gives_one_tip_per_entry (init_db empty_db) _ eq_refl)
    as H.
  cbv zeta in H. split; [exact (proj1 (proj2 H))|].
  exact (proj1 (proj2 (proj2 (proj2 (proj2 (proj2 (proj2 (proj2 (proj2 H))))))))).
Defined.

(** X20.  The coach page shows [No immediate suggestions.] exactly when
    there is no weakness, [No long term suggestions.] exactly when there is
    no strength, and [N/A] as the biggest difference exactly when there is
    neither. *)
Theorem coach_page_placeholders_mean_empty :
  forall (db : database) (page : coach_context),
    render_coach db = Ok page ->
    (coach_short_tips page = "No immediate suggestions."
     <-> coach_weaknesses page = [])
    /\ (coach_long_tips page = "No long term suggestions."
        <-> coach_strengths page = [])
    /\ (coach_biggest_diff page = "N/A"
        <-> coach_strengths page = [] /\ coach_weaknesses page = []).
Proof.
  intros db page H.
  apply render_coach_inv in H
    as (um & sa & Hk & _ & _ & Es & Ew & Hbig & Hshort & Hlong).
  assert (Hnd : NoDup (keys um)) by (rewrite Hk; apply canonical_keys_NoDup).
  assert (Hs : incl (keys (coach_strengths page)) canonical_keys).
  { rewrite Es, <- Hk. intros k. apply keys_entries. }
  assert (Hw : incl (keys (coach_weaknesses page)) canonical_keys).
  { rewrite Ew, <- Hk. intros k. apply keys_entries. }
  split; [|split].
  - rewrite Hshort. apply str_or_default_iff; [apply short_tip_head | | reflexivity].
    intros k Hin. apply canonical_short_tip, Hw, Hin.
  - rewrite Hlong. apply str_or_default_iff; [apply long_tip_head | | reflexivity].
    intros k Hin. apply canonical_long_tip, Hs, Hin.
  - rewrite Hbig.
    assert (Hc : classified (compare_loop um sa)).
    { apply compare_fold_classified. split; cbn; auto. }
    destruct (compare_loop_entries um sa Hnd) as [Es' Ew'].
    rewrite <- Es' in Es. rewrite <- Ew' in Ew. destruct Hc as [_ Hc].
    destruct (biggest_key (compare_loop um sa)) as [key|].
    + assert (Hin : In key canonical_keys).
      { destruct Hc as [Hc | Hc]; [apply Hs | apply Hw]; congruence. }
      destruct (canonical_key_shown key Hin) as [-> Hne].
      split; [congruence|]. intros [E1 E2]. rewrite Es in E1. rewrite Ew in E2.
      rewrite E1, E2 in Hc. destruct Hc as [[] | []].
    + split; [|reflexivity]. intros _. rewrite Es, Ew. tauto.
Qed.

Lemma coach_page_placeholders_mean_empty_witness :
  exists page,
    render_coach empty_db = Ok page
    /\ coach_short_tips page = "No immediate suggestions."
    /\ coach_biggest_diff page = "N/A"
    /\ (coach_long_tips page = "No long term suggestions."
        <-> coach_strengths page = []).
Proof.
  eexists. split; [reflexivity|]. split; [reflexivity|]. split; [reflexivity|].
  exact (proj1 (proj2 (coach_page_placeholders_mean_empty empty_db _ eq_refl))).
Defined.

(** ** The coach page: one side without rows *)

Section EmptySide.
Import SpecBounds RoundFacts FloatMore.

Lemma leb_zero_not_ltb v : (0 <=? v)%float = true -> (v <? 0)%float = false.
Proof.
  rewrite FloatAxioms.leb_spec, FloatAxioms.ltb_spec.
  change (Prim2SF 0) with (S754_zero false).
  destruct (Prim2SF v) as [[|] | [|] | | [|] ? ?]; cbn; auto; discriminate.
Qed.

Lemma zero_sub_not_gt0 a :
  (0 <=? a)%float = true -> (0 <? 0 - a)%float = false.
Proof.
  rewrite FloatAxioms.leb_spec, FloatAxioms.ltb_spec, FloatAxioms.sub_spec.
  change (Prim2SF 0) with (S754_zero false).
  destruct (Prim2SF a) as [[|] | [|] | | [|] ? ?]; cbn; auto; discriminate.
Qed.

Lemma weakness_of_zero_baseline k v :
  In k canonical_keys -> (0 <=? v)%float = true ->
  weakness_of zero_metrics (k, v) = None.
Proof.
  intros Hk Hv. unfold weakness_of, delta_of. cbn [fst snd].
  assert (E : dict_get_default zero_metrics k 0%float = 0%float).
  { cbn in Hk. destruct Hk as [<- | [<- | [<- | [<- | []]]]]; reflexivity. }
  rewrite E, sub_zero_r, (leb_zero_not_ltb v Hv).
  now destruct (0 <? v)%float.
Qed.

Lemma strength_of_zero_subject avg k a :
  dict_get_default avg k 0%float = a -> (0 <=? a)%float = true ->
  strength_of avg (k, 0%float) = None.
Proof.
  intros E Ha. unfold strength_of, delta_of. cbn [fst snd].
  now rewrite E, (zero_sub_not_gt0 a Ha).
Qed.

End EmptySide.

(** X21.  When no streamer has the user's rank the baseline is all zero,
    and then nothing is a weakness of a user whose stored tuples hold no
    value below zero: the page shows [No immediate suggestions.].  When the
    user has no match the user's tuple is all zero, and then nothing is a
    strength against streamers whose values are not below zero: the page
    shows [No long term suggestions.]. *)
Theorem coach_page_with_one_side_empty :
  forall db : database,
    (forall rows : list (option metrics),
        select_streamer_metrics db (default_user_rank db) = [] ->
        select_match_metrics db (get_default_user_id db) = stored_rows rows ->
        Forall nonneg_metrics (decoded rows) ->
        Z.of_nat (List.length rows) < 2 ^ 63 ->
        exists page,
          render_coach db = Ok page
          /\ coach_weaknesses page = []
          /\ coach_short_tips page = "No immediate suggestions.")
    /\ (forall ts : list metrics,
           select_match_metrics db (get_default_user_id db) = [] ->
           rows_metrics (select_streamer_metrics db (default_user_rank db))
           = Ok ts ->
           Forall nonneg_metrics ts ->
           Z.of_nat (List.length
                       (select_streamer_metrics db (default_user_rank db)))
           < 2 ^ 63 ->
           exists page,
             render_coach db = Ok page
             /\ coach_strengths page = []
             /\ coach_long_tips page = "No long term suggestions.").
Proof.
  intros db. split.
  - intros rows Hs Hm Hrows Hn.
    assert (Hu : exists m : metrics,
               aggregate_user_metrics
                 (select_match_metrics db (get_default_user_id db))
               = Ok (metrics_dict m) /\ nonneg_metrics m).
    { rewrite Hm. unfold aggregate_user_metrics. rewrite average_rows_tuples.
      eexists. split; [reflexivity|].
      destruct rows as [|r rows]; [repeat split; reflexivity|].
      apply averaged_nonneg; [exact Hrows | cbn; lia | exact Hn]. }
    destruct Hu as (m & Hu & H1 & H2 & H3 & H4).
    assert (Ha : get_streamer_average
                   (select_streamer_metrics db (default_user_rank db))
                 = Ok zero_metrics) by (now rewrite Hs).
    rewrite (render_coach_Ok db _ _ Hu Ha). cbv zeta.
    assert (Hnd : NoDup (keys (metrics_dict m))) by apply canonical_keys_NoDup.
    destruct (compare_loop_entries (metrics_dict m) zero_metrics Hnd) as [_ Ew].
    assert (Ew' : weaknesses (compare_loop (metrics_dict m) zero_metrics) = []).
    { rewrite Ew. unfold entries, metrics_dict. cbn [flat_map fst].
      rewrite !weakness_of_zero_baseline; cbn; auto 6. }
    eexists. split; [reflexivity|]. cbn [coach_weaknesses coach_short_tips].
    rewrite Ew'. split; reflexivity.
  - intros ts Hm Hrows Hts Hn.
    assert (Hu : aggregate_user_metrics
                   (select_match_metrics db (get_default_user_id db))
                 = Ok zero_metrics) by (now rewrite Hm).
    assert (Ha : exists a : metrics,
               get_streamer_average
                 (select_streamer_metrics db (default_user_rank db))
               = Ok (metrics_dict a) /\ nonneg_metrics a).
    { unfold get_streamer_average. rewrite average_rows_general.
      destruct (select_streamer_metrics db (default_user_rank db))
        as [|r rows] eqn:E.
      - exists {| boost_usage := 0; flip_count := 0; shots := 0; goals := 0 |}.
        split; [reflexivity | repeat split; reflexivity].
      - rewrite Hrows. cbn [bind]. eexists. split; [reflexivity|].
        apply averaged_nonneg; [exact Hts | cbn; lia | exact Hn]. }
    destruct Ha as (a & Ha & H1 & H2 & H3 & H4).
    rewrite (render_coach_Ok db _ _ Hu Ha). cbv zeta.
    assert (Hnd : NoDup (keys zero_metrics)) by apply canonical_keys_NoDup.
    destruct (compare_loop_entries zero_metrics (metrics_dict a) Hnd) as [Es _].
    assert (Es' : strengths (compare_loop zero_metrics (metrics_dict a)) = []).
    { rewrite Es. unfold entries, zero_metrics. cbn [flat_map fst].
      rewrite (strength_of_zero_subject (metrics_dict a) "boost_usage"
                 (boost_usage a) eq_refl H1),
        (strength_of_zero_subject (metrics_dict a) "flip_count"
           (flip_count a) eq_refl H2),
        (strength_of_zero_subject (metrics_dict a) "shots"
           (shots a) eq_refl H3),
        (strength_of_zero_subject (metrics_dict a) "goals"
           (goals a) eq_refl H4).
      reflexivity. }
    eexists. split; [reflexivity|]. cbn [coach_strengths coach_long_tips].
    rewrite Es'. split; reflexivity.
Qed.

Lemma coach_page_with_one_side_empty_witness :
  exists page,
    render_coach no_streamers_db = Ok page
    /\ coach_weaknesses page = []
    /\ coach_short_tips page = "No immediate suggestions.".
Proof.
  apply (proj1 (coach_page_with_one_side_empty no_streamers_db)
           [Some {| boost_usage := 0.333; flip_count := 1;
                    shots := 0; goals := 0 |}%float]).
  - reflexivity.
  - reflexivity.
  - repeat constructor.
  - cbn. lia.
Defined.

(** ** Uploads and the aggregate *)

Lemma parse_match_data_tuple file m :
  parse_match_data file = Ok m -> exists t : metrics, m = metrics_dict t.
Proof.
  destruct file as [[| | | | | |data]|]; try discriminate.
  - intros H. apply parse_match_data_dict in H
      as (flips & boost & total & ratio & shots & goals
          & _ & _ & _ & _ & _ & ->).
    now exists {| boost_usage := PyFloat.round3 ratio;
                  flip_count := PyFloat.of_len flips;
                  shots := shots; goals := goals |}.
  - intros [= <-].
    now exists {| boost_usage := 0; flip_count := 0; shots := 0; goals := 0 |}.
Qed.

(** X27.  What the first upload of a user stores is what the aggregate of
    that user then gives, rounded to three decimals key by key. *)
Theorem first_upload_is_the_aggregate :
  forall (db db' : database) (save_path : string) (file : option json),
    store_upload db save_path file = Ok db' ->
    select_match_metrics db (get_default_user_id db) = [] ->
    exists t a : metrics,
      parse_match_data file = Ok (metrics_dict t)
      /\ aggregate_user_metrics
           (select_match_metrics db' (get_default_user_id db))
         = Ok (metrics_dict a)
      /\ same_number (boost_usage a) (PyFloat.round3 (boost_usage t))
      /\ same_number (flip_count a) (PyFloat.round3 (flip_count t))
      /\ same_number (shots a) (PyFloat.round3 (shots t))
      /\ same_number (goals a) (PyFloat.round3 (goals t)).
Proof.
  intros db db' save_path file H Hnone. unfold store_upload in H.
  destruct (parse_match_data file) as [m|e] eqn:Hp; [|discriminate].
  cbn [bind] in H. injection H as <-.
  destruct (parse_match_data_tuple file m Hp) as [t ->].
  exists t. eexists. split; [reflexivity|].
  unfold select_match_metrics in *. cbn [matches]. unfold insert_match.
  rewrite filter_app_one. cbn [match_user_id]. rewrite Z.eqb_refl, map_app.
  rewrite Hnone. cbn [app map match_metrics].
  change ([json_dumps (float_dict (metrics_dict t))])
    with (stored_rows [Some t]).
  unfold aggregate_user_metrics. rewrite average_rows_tuples.
  split; [reflexivity|].
  unfold averaged, fsum. cbn [decoded map fold_left List.length
                                boost_usage flip_count shots goals].
  change (PyFloat.of_len 1) with 1%float.
  rewrite !SpecRound.div_one.
  repeat split; apply round3_add_zero.
Qed.

Lemma first_upload_is_the_aggregate_witness :
  exists t a : metrics,
    parse_match_data (Some spec_example_record) = Ok (metrics_dict t)
    /\ aggregate_user_metrics
         (select_match_metrics no_streamers_db 1)
       = Ok (metrics_dict a)
    /\ same_number (boost_usage a) (PyFloat.round3 (boost_usage t)).
Proof.
  destruct (first_upload_is_the_aggregate
              {| users := users (init_db empty_db); matches := [];
                 streamers := [] |}
              _ "uploads/match.json" (Some spec_example_record) eq_refl eq_refl)
    as (t & a & Ht & Ha & Hbu & _).
  exists t, a. repeat split; assumption.
Defined.

(** ** The databases the program brings about: integrity *)

Section Integrity.

Fixpoint ids_from (first : Z) (n : nat) : list Z :=
  match n with
  | O => []
  | S n' => first :: ids_from (first + 1) n'
  end.

Lemma ids_from_app first n :
  ids_from first (S n) = (ids_from first n ++ [first + Z.of_nat n])%list.
Proof.
  revert first. induction n as [|n IH]; intros first.
  - cbn. f_equal. lia.
  - change (ids_from first (S (S n)))
      with (first :: ids_from (first + 1) (S n)).
    rewrite IH. cbn [ids_from app]. do 2 f_equal. f_equal. lia.
Qed.

Lemma fold_max_ids_from n : forall first a,
  a < first ->
  fold_left Z.max (ids_from first n) a
  = if Nat.eqb n 0 then a else first + Z.of_nat n - 1.
Proof.
  induction n as [|n IH]; intros first a Ha; [reflexivity|].
  cbn [ids_from fold_left Nat.eqb]. rewrite IH by lia.
  destruct n; cbn [Nat.eqb]; lia.
Qed.

Lemma next_id_ids_from n : next_id (ids_from 1 n) = 1 + Z.of_nat n.
Proof.
  unfold next_id. rewrite fold_max_ids_from by lia.
  destruct n; cbn [Nat.eqb]; lia.
Qed.

Definition intact (db : database) : Prop :=
  users db = users (init_db empty_db)
  /\ Forall (fun r => match_user_id r = 1) (matches db)
  /\ map match_id (matches db) = ids_from 1 (List.length (matches db))
  /\ NoDup (map streamer_id (streamers db)).

Lemma init_db_intact db : intact db -> intact (init_db db).
Proof.
  intros (Hu & Hm & Hid & Hs). unfold intact.
  rewrite (init_db_initialised_users db) by (rewrite Hu; discriminate).
  repeat split; auto.
  unfold init_db. cbn [streamers].
  destruct (streamers db); [|exact Hs].
  cbn. repeat constructor; cbn; intuition discriminate.
Qed.

Lemma reachable_intact db : reachable db -> intact db.
Proof.
  induction 1 as [|db _ IH|db save_path file db' _ IH Hup|db data _ IH].
  - unfold intact. split; [reflexivity|]. split; [constructor|].
    split; [reflexivity|].
    cbn. repeat constructor; cbn; intuition discriminate.
  - now apply init_db_intact.
  - destruct IH as (Hu & Hm & Hid & Hs). unfold store_upload in Hup.
    destruct (parse_match_data file) as [m|]; [|discriminate].
    injection Hup as <-. unfold intact. cbn [users matches streamers].
    repeat split; auto.
    + unfold insert_match. apply Forall_app. split; [exact Hm|].
      constructor; [|constructor]. cbn [match_user_id].
      unfold get_default_user_id. now rewrite Hu.
    + unfold insert_match. rewrite map_app, length_app. cbn [map List.length].
      rewrite Nat.add_1_r, ids_from_app, <- Hid. cbn [match_id].
      rewrite Hid at 2. now rewrite next_id_ids_from.
  - destruct IH as (Hu & Hm & Hid & Hs). unfold intact.
    cbn [update_streamer_table users matches streamers].
    repeat split; auto. now apply fold_update_ids.
Qed.

End Integrity.

(** X28.  In every database the program can bring about the only user is
    [Player1] with id 1, every match belongs to that user (no match points
    to a user that does not exist), the matches are numbered 1, 2, 3, ...
    in upload order, and no two streamers share an id. *)
Theorem reachable_database_is_intact :
  forall db : database,
    reachable db ->
    users db = [{| user_id := 1; username := "Player1"; user_rank := "Gold";
                   followers := 0; friends := 0 |}]
    /\ get_default_user_id db = 1
    /\ default_user_rank db = "Gold"
    /\ Forall (fun r => In (match_user_id r) (map user_id (users db)))
         (matches db)
    /\ map match_id (matches db) = ids_from 1 (List.length (matches db))
    /\ NoDup (map streamer_id (streamers db)).
Proof.
  intros db Hr. destruct (reachable_intact db Hr) as (Hu & Hm & Hid & Hs).
  change (users (init_db empty_db))
    with [{| user_id := 1; username := "Player1"; user_rank := "Gold";
             followers := 0; friends := 0 |}] in Hu.
  split; [exact Hu|].
  split; [unfold get_default_user_id; now rewrite Hu|].
  split.
  { unfold default_user_rank, select_user_rank, get_default_user_id.
    now rewrite Hu. }
  split; [|split; assumption].
  rewrite Hu. eapply Forall_impl; [|exact Hm].
  intros r ->. now left.
Qed.

Lemma reachable_database_is_intact_witness :
  exists db,
    store_upload (init_db empty_db) "uploads/match.json"
      (Some spec_example_record) = Ok db
    /\ get_default_user_id db = 1
    /\ map match_id (matches db) = [1].
Proof.
  eexists. split; [reflexivity|].
  pose proof (reachable_database_is_intact _
                (reachable_upload _ "uploads/match.json"
                   (Some spec_example_record) _ reachable_new eq_refl)) as H.
  split; [exact (proj1 (proj2 H))|].
  exact (proj1 (proj2 (proj2 (proj2 (proj2 H))))).
Defined.

(** ** Paths: texts and components *)

Module PathFacts.
Import PosixPath.

Lemma append_assoc (a b c : string) : ((a ++ b) ++ c = a ++ (b ++ c))%string.
Proof. induction a as [|x a IH]; cbn; [reflexivity | now rewrite IH]. Qed.

Lemma append_nil_r (a : string) : (a ++ "")%string = a.
Proof. induction a as [|x a IH]; cbn; [reflexivity | now rewrite IH]. Qed.

Lemma startswith_app_self (a b : string) : startswith (a ++ b) a = true.
Proof.
  induction a as [|x a IH]; cbn [String.append startswith]; [now destruct b|].
  now rewrite Ascii.eqb_refl, IH.
Qed.

Lemma startswith_app_both (a b c : string) :
  startswith (a ++ c) (a ++ b) = startswith c b.
Proof.
  induction a as [|x a IH]; cbn [String.append startswith]; [reflexivity|].
  now rewrite Ascii.eqb_refl, IH.
Qed.

Lemma substring_all (s : string) : String.substring 0 (String.length s) s = s.
Proof. induction s as [|x s IH]; cbn; [reflexivity | now rewrite IH]. Qed.

(** [("/static/" + rel)[8:]] is [rel]. *)
Lemma drop_static rel : drop 8 ("/static/" ++ rel) = rel.
Proof.
  unfold drop. cbn [String.append String.length String.substring Nat.sub].
  rewrite Nat.sub_0_r. apply substring_all.
Qed.

Lemma split_not_nil s : split s <> [].
Proof.
  destruct s as [|c s]; cbn; [discriminate|].
  destruct (Ascii.eqb c "/"); [discriminate|].
  destruct (split s); discriminate.
Qed.

Lemma split_no_slash s : no_slash s = true -> split s = [s].
Proof.
  unfold no_slash. induction s as [|c s IH]; cbn; [reflexivity|].
  intros H. apply andb_prop in H as [Hc Hs].
  apply negb_true_iff in Hc. rewrite Hc, (IH Hs). reflexivity.
Qed.

Lemma split_app_slash a b :
  split (a ++ String "/" b) = (split a ++ split b)%list.
Proof.
  induction a as [|c a IH]; cbn [String.append split].
  - reflexivity.
  - rewrite IH. destruct (Ascii.eqb c "/"); [reflexivity|].
    pose proof (split_not_nil a) as Ha.
    destruct (split a) as [|p ps]; [congruence | reflexivity].
Qed.

Lemma concat_cons sep x y l :
  String.concat sep (x :: y :: l) = (x ++ sep ++ String.concat sep (y :: l))%string.
Proof. reflexivity. Qed.

Lemma concat_app sep (l l' : list string) :
  l <> [] -> l' <> [] ->
  String.concat sep (l ++ l')
  = (String.concat sep l ++ sep ++ String.concat sep l')%string.
Proof.
  induction l as [|x l IH]; [congruence|]. intros _ Hl'.
  destruct l as [|y l].
  - cbn [app]. destruct l' as [|z l']; [congruence | reflexivity].
  - change ((x :: y :: l) ++ l')%list with (x :: y :: (l ++ l'))%list.
    rewrite !concat_cons.
    change (y :: (l ++ l'))%list with ((y :: l) ++ l')%list.
    rewrite IH by (auto; discriminate).
    now rewrite !append_assoc.
Qed.

Lemma split_concat comps :
  comps <> [] -> Forall (fun c => no_slash c = true) comps ->
  split (String.concat "/" comps) = comps.
Proof.
  induction comps as [|x comps IH]; [congruence|]. intros _ H.
  inversion H as [|? ? Hx Hcomps]; subst.
  destruct comps as [|y comps]; [now apply split_no_slash|].
  rewrite concat_cons.
  change ("/" ++ String.concat "/" (y :: comps))%string
    with (String "/" (String.concat "/" (y :: comps))).
  rewrite split_app_slash, (split_no_slash x Hx), IH by (auto; discriminate).
  reflexivity.
Qed.

Lemma endswith_app a b : b <> "" -> endswith (a ++ b) "/" = endswith b "/".
Proof.
  intros Hb. induction a as [|c a IH]; [reflexivity|].
  cbn [String.append endswith]. rewrite IH.
  replace (String.eqb (String c (a ++ b)) "/") with false; [reflexivity|].
  symmetry. apply String.eqb_neq. intros [= _ E].
  destruct a; cbn in E; [congruence | discriminate].
Qed.

Lemma endswith_no_slash s : no_slash s = true -> endswith s "/" = false.
Proof.
  unfold no_slash. induction s as [|c s IH]; [reflexivity|].
  cbn [list_ascii_of_string forallb endswith]. intros H.
  apply andb_prop in H as [Hc Hs]. apply negb_true_iff in Hc.
  rewrite (IH Hs), orb_false_r. apply String.eqb_neq.
  intros [= -> _]. discriminate.
Qed.

Lemma entry_name_facts s :
  is_entry_name s = true ->
  s <> "" /\ s <> "." /\ s <> ".." /\ no_slash s = true.
Proof.
  unfold is_entry_name. intros H.
  apply andb_prop in H as [H H4]. apply andb_prop in H as [H H3].
  apply andb_prop in H as [H1 H2].
  repeat split; auto; apply String.eqb_neq, negb_true_iff; assumption.
Qed.

Lemma no_slash_head s : no_slash s = true -> startswith s "/" = false.
Proof.
  unfold no_slash. destruct s as [|c s]; [reflexivity|].
  cbn [list_ascii_of_string forallb startswith]. intros H.
  apply andb_prop in H as [Hc _]. apply negb_true_iff in Hc.
  now rewrite Hc.
Qed.

Lemma startswith_app s t :
  s <> "" -> startswith (s ++ t) "/" = startswith s "/".
Proof.
  destruct s as [|c s]; [congruence|]. intros _.
  reflexivity.
Qed.

Lemma concat_head (comps : list string) x :
  x <> "" ->
  startswith (String.concat "/" (x :: comps)) "/" = startswith x "/".
Proof.
  intros Hx. destruct comps; [reflexivity|]. rewrite concat_cons.
  now apply startswith_app.
Qed.

Lemma path_of_app cs x :
  cs <> [] -> path_of (cs ++ [x]) = (path_of cs ++ "/" ++ x)%string.
Proof.
  intros Hcs. unfold path_of. rewrite concat_app by (auto; discriminate).
  reflexivity.
Qed.

Lemma path_of_endswith cs :
  cs <> [] -> Forall (fun c => is_entry_name c = true) cs ->
  endswith (path_of cs) "/" = false.
Proof.
  intros Hne Hcs.
  destruct (exists_last Hne) as (cs' & x & ->).
  apply Forall_app in Hcs as [_ Hx]. inversion Hx as [|? ? Hx' _]; subst.
  destruct (entry_name_facts x Hx') as (Hx1 & _ & _ & Hx4).
  destruct cs' as [|y cs'].
  - unfold path_of. cbn [app String.concat].
    change (String "/" x) with ("/" ++ x)%string.
    rewrite endswith_app by exact Hx1. now apply endswith_no_slash.
  - rewrite path_of_app by discriminate.
    rewrite <- append_assoc, endswith_app by exact Hx1.
    now apply endswith_no_slash.
Qed.

(** [os.path.join] of such a directory and a relative path. *)
Lemma join_path_of cs rel :
  cs <> [] -> Forall (fun c => is_entry_name c = true) cs ->
  startswith rel "/" = false ->
  join (path_of cs) rel = (path_of cs ++ "/" ++ rel)%string.
Proof.
  intros Hne Hcs Hrel. unfold join. rewrite Hrel.
  rewrite (path_of_endswith cs Hne Hcs). reflexivity.
Qed.

Lemma join_path_of_comps cs rs :
  cs <> [] -> Forall (fun c => is_entry_name c = true) cs ->
  rs <> [] -> startswith (String.concat "/" rs) "/" = false ->
  join (path_of cs) (String.concat "/" rs) = path_of (cs ++ rs).
Proof.
  intros Hne Hcs Hrs Hrel. rewrite join_path_of by assumption.
  unfold path_of. now rewrite concat_app.
Qed.

(** Normalising: the loop over the components. *)
Lemma norm_step_entry i st c :
  is_entry_name c = true -> norm_step i st c = (st ++ [c])%list.
Proof.
  intros H. destruct (entry_name_facts c H) as (H1 & H2 & H3 & _).
  unfold norm_step.
  apply String.eqb_neq in H1, H2, H3. rewrite H1, H2, H3. reflexivity.
Qed.

Lemma norm_fold_entries i cs : forall st,
  Forall (fun c => is_entry_name c = true) cs ->
  fold_left (norm_step i) cs st = (st ++ cs)%list.
Proof.
  induction cs as [|c cs IH]; intros st H; cbn [fold_left].
  - now rewrite app_nil_r.
  - inversion H as [|? ? Hc Hcs]; subst.
    rewrite (norm_step_entry i st c Hc), IH by exact Hcs.
    now rewrite <- app_assoc.
Qed.

Lemma normpath_path_of all :
  all <> [] -> Forall (fun c => no_slash c = true) all ->
  hd "" all <> "" ->
  normpath (path_of all) = path_of (fold_left (norm_step 1) all []).
Proof.
  intros Hne Hall Hhd. unfold normpath.
  change (String.eqb (path_of all) "") with false. cbv iota.
  change (startswith (path_of all) "/") with true. cbv iota.
  assert (H2 : startswith (path_of all) "//" = false).
  { destruct all as [|x all]; [congruence|]. cbn [hd] in Hhd.
    inversion Hall as [|? ? Hx _]; subst.
    pose proof (concat_head all x Hhd) as E.
    rewrite (no_slash_head x Hx) in E.
    unfold path_of.
    change (startswith (String "/" (String.concat "/" (x :: all))) "//")
      with (Ascii.eqb "/" "/"
            && startswith (String.concat "/" (x :: all)) "/")%bool.
    now rewrite E. }
  rewrite H2. cbn [andb].
  assert (Hs : split (path_of all) = "" :: all).
  { unfold path_of. cbn [split Ascii.eqb Bool.eqb].
    now rewrite (split_concat all Hne Hall). }
  rewrite Hs. cbn [fold_left].
  change (norm_step 1 [] "") with (@nil string).
  reflexivity.
Qed.

End PathFacts.

(** ** The static file handler: the directory check *)

Module StaticFacts.
Import PosixPath PathFacts.

Lemma concat_split s : String.concat "/" (split s) = s.
Proof.
  induction s as [|c s IH]; [reflexivity|]. cbn [split].
  pose proof (split_not_nil s) as Hs.
  destruct (Ascii.eqb c "/") eqn:E.
  - apply Ascii.eqb_eq in E. subst c.
    destruct (split s) as [|p ps]; [congruence|].
    rewrite concat_cons, IH. reflexivity.
  - destruct (split s) as [|p ps]; [congruence|].
    destruct ps as [|q ps].
    + cbn [String.concat] in *. now rewrite IH.
    + rewrite concat_cons. rewrite concat_cons in IH. rewrite <- IH.
      reflexivity.
Qed.

Lemma split_pieces s : Forall (fun c => no_slash c = true) (split s).
Proof.
  induction s as [|c s IH]; cbn [split]; [repeat constructor|].
  destruct (Ascii.eqb c "/") eqn:E; [constructor; [reflexivity | exact IH]|].
  destruct (split s) as [|p ps]; [repeat constructor; cbn; now rewrite E|].
  inversion IH as [|? ? Hp Hps]; subst. constructor; [|exact Hps].
  unfold no_slash in *. cbn [list_ascii_of_string forallb]. now rewrite E, Hp.
Qed.

Section Guard.
Variables (cs : list string) (cwd : string) (fs : string -> option node).
Hypothesis cs_not_nil : cs <> [].
Hypothesis cs_entries : Forall (fun c => is_entry_name c = true) cs.

Let static_comps : list string := (cs ++ ["static"])%list.

Lemma static_comps_entries :
  Forall (fun c => is_entry_name c = true) static_comps.
Proof. apply Forall_app. split; [exact cs_entries | repeat constructor]. Qed.

Lemma entries_no_slash l :
  Forall (fun c => is_entry_name c = true) l ->
  Forall (fun c => no_slash c = true) l.
Proof.
  apply Forall_impl. intros c H. now destruct (entry_name_facts c H) as (_ & _ & _ & ?).
Qed.

Lemma static_dir_path : join (path_of cs) "static" = path_of static_comps.
Proof.
  rewrite join_path_of by (auto; reflexivity).
  unfold static_comps. now rewrite path_of_app.
Qed.

Lemma hd_entries l d :
  l <> [] -> Forall (fun c => is_entry_name c = true) l -> hd d l <> "".
Proof.
  destruct l as [|x l]; [congruence|]. intros _ H.
  inversion H as [|? ? Hx _]; subst. cbn.
  now destruct (entry_name_facts x Hx).
Qed.

Lemma static_dir_abspath :
  abspath cwd (path_of static_comps) = path_of static_comps.
Proof.
  unfold abspath. change (startswith (path_of static_comps) "/") with true.
  cbv iota. rewrite normpath_path_of.
  - now rewrite (norm_fold_entries 1 static_comps [] static_comps_entries).
  - unfold static_comps. now destruct cs.
  - apply entries_no_slash, static_comps_entries.
  - apply hd_entries; [|apply static_comps_entries].
    unfold static_comps. now destruct cs.
Qed.

(** The path a relative request names, and its normal form. *)
Lemma file_path_of rel :
  startswith rel "/" = false ->
  join (path_of static_comps) rel
  = (path_of static_comps ++ "/" ++ rel)%string
  /\ abspath cwd (join (path_of static_comps) rel)
     = path_of (fold_left (norm_step 1) (split rel) static_comps).
Proof.
  intros Hrel.
  assert (Hne : static_comps <> []) by (unfold static_comps; now destruct cs).
  rewrite (join_path_of static_comps rel Hne static_comps_entries Hrel).
  split; [reflexivity|].
  rewrite <- (concat_split rel) at 1.
  assert (E : (path_of static_comps ++ "/" ++ String.concat "/" (split rel))%string
              = path_of (static_comps ++ split rel)).
  { unfold path_of. rewrite concat_app; auto using split_not_nil. }
  rewrite E. unfold abspath.
  change (startswith (path_of (static_comps ++ split rel)) "/") with true.
  cbv iota. rewrite normpath_path_of.
  - rewrite fold_left_app.
    now rewrite (norm_fold_entries 1 static_comps [] static_comps_entries).
  - now destruct static_comps.
  - apply Forall_app. split; [|apply split_pieces].
    apply entries_no_slash, static_comps_entries.
  - destruct static_comps as [|x l] eqn:Es; [congruence|]. cbn [app hd].
    pose proof static_comps_entries as H. rewrite Es in H.
    inversion H as [|? ? Hx _]; subst. now destruct (entry_name_facts x Hx).
Qed.

(** What [serve_static] does with a relative request. *)
Lemma serve_static_relative rel :
  startswith rel "/" = false ->
  serve_static (path_of cs) cwd fs ("/static/" ++ rel)
  = if startswith (path_of (fold_left (norm_step 1) (split rel) static_comps))
         (path_of static_comps)
    then send_file fs (path_of cs ++ "/static/" ++ rel)
    else Sent {| status := 403; headers := []; body := "Forbidden" |}.
Proof.
  intros Hrel. unfold serve_static. rewrite drop_static, static_dir_path.
  destruct (file_path_of rel Hrel) as [-> ->].
  rewrite static_dir_abspath.
  assert (E : (path_of static_comps ++ "/" ++ rel)%string
              = (path_of cs ++ "/static/" ++ rel)%string).
  { unfold static_comps. rewrite path_of_app by exact cs_not_nil.
    now rewrite !append_assoc. }
  rewrite E.
  destruct (startswith (path_of (fold_left _ _ _)) _); reflexivity.
Qed.

Lemma norm_fold_no_dotdot i rs : forall st,
  ~ In ".." rs ->
  fold_left (norm_step i) rs st
  = (st ++ filter (fun c => negb (String.eqb c "" || String.eqb c ".")) rs)%list.
Proof.
  induction rs as [|c rs IH]; intros st Hn; cbn [fold_left filter].
  - now rewrite app_nil_r.
  - rewrite IH by (intros H; apply Hn; now right).
    unfold norm_step at 1.
    destruct (String.eqb c "" || String.eqb c ".")%bool; cbn [negb];
      [reflexivity|].
    replace (String.eqb c "..") with false.
    + cbn [negb orb]. now rewrite <- app_assoc.
    + symmetry. apply String.eqb_neq. intros ->. apply Hn. now left.
Qed.

Lemma startswith_path_of_app l l' :
  l <> [] -> startswith (path_of (l ++ l')) (path_of l) = true.
Proof.
  intros Hl. destruct l' as [|x l'].
  - rewrite app_nil_r. rewrite <- (append_nil_r (path_of l)) at 1.
    apply startswith_app_self.
  - unfold path_of. rewrite concat_app by (auto; discriminate).
    change (String "/" (?a ++ ?b))%string with (String "/" a ++ b)%string.
    apply startswith_app_self.
Qed.

Lemma norm_dotdot_pop (st : list string) x :
  x <> ".." -> norm_step 1 (st ++ [x]) ".." = st.
Proof.
  intros Hx. unfold norm_step. cbn [String.eqb Ascii.eqb Bool.eqb orb negb].
  rewrite last_last. apply String.eqb_neq in Hx. rewrite Hx.
  rewrite andb_false_r. cbn [Nat.eqb andb orb]. apply removelast_last.
Qed.

Lemma startswith_sibling (l : list string) x rest :
  l <> [] ->
  startswith (path_of (l ++ x :: rest)) (path_of (l ++ ["static"]))
  = startswith (String.concat "/" (x :: rest)) "static".
Proof.
  intros Hl. unfold path_of. rewrite !concat_app by (auto; discriminate).
  cbn [startswith String.concat]. rewrite Ascii.eqb_refl. cbn [andb].
  rewrite startswith_app_both. reflexivity.
Qed.

End Guard.

End StaticFacts.

(** X22.  The directory check of [serve_static] never refuses a relative
    request without a [..] component: whatever lies under the static
    directory of [BASE_DIR] is looked up there and sent, or answered with
    404. *)
Theorem static_requests_without_dotdot_are_admitted :
  forall (cs : list string) (cwd : string) (fs : string -> option node)
         (rel : string),
    cs <> [] ->
    Forall (fun c => is_entry_name c = true) cs ->
    PosixPath.startswith rel "/" = false ->
    ~ In ".." (PosixPath.split rel) ->
    serve_static (path_of cs) cwd fs ("/static/" ++ rel)
    = send_file fs (path_of cs ++ "/static/" ++ rel).
Proof.
  intros cs cwd fs rel Hne Hcs Hrel Hdd.
  rewrite (StaticFacts.serve_static_relative cs cwd fs Hne Hcs rel Hrel).
  rewrite StaticFacts.norm_fold_no_dotdot by exact Hdd.
  rewrite StaticFacts.startswith_path_of_app; [reflexivity|].
  now destruct cs.
Qed.

Lemma static_requests_without_dotdot_are_admitted_witness :
  serve_static "/srv/app" "/" sample_fs "/static/css/site.css"
  = Sent {| status := 200;
            headers := [("Content-Type", "text/css"); ("Content-Length", "6")];
            body := "body{}" |}.
Proof.
  refine (eq_trans (static_requests_without_dotdot_are_admitted
                      ["srv"; "app"] "/" sample_fs "css/site.css" _ _ _ _) _).
  - discriminate.
  - repeat constructor.
  - reflexivity.
  - cbn. intuition discriminate.
  - reflexivity.
Defined.

(** X23.  The directory check compares texts, not directories: a request
    that climbs out of the static directory into an entry of [BASE_DIR]
    whose name begins with [static] (a directory [static_old], say) passes
    it, so a file there is looked up and sent like a static file. *)
Theorem static_check_admits_siblings_named_static :
  forall (cs : list string) (cwd : string) (fs : string -> option node)
         (x f : string),
    cs <> [] ->
    Forall (fun c => is_entry_name c = true) cs ->
    no_slash x = true ->
    is_entry_name f = true ->
    serve_static (path_of cs) cwd fs ("/static/../static" ++ x ++ "/" ++ f)
    = send_file fs (path_of cs ++ "/static/../static" ++ x ++ "/" ++ f).
Proof.
  intros cs cwd fs x f Hne Hcs Hx Hf.
  destruct (PathFacts.entry_name_facts f Hf) as (Hf1 & Hf2 & Hf3 & Hf4).
  set (sib := ("static" ++ x)%string).
  assert (Hsib : is_entry_name sib = true).
  { unfold is_entry_name, sib. cbn [String.append String.eqb Ascii.eqb Bool.eqb
                                    negb andb].
    unfold no_slash in *. cbn [String.append list_ascii_of_string forallb
                                 Ascii.eqb Bool.eqb negb andb]. exact Hx. }
  set (rel := String.concat "/" [".."; sib; f]).
  change ("/static/../static" ++ x ++ "/" ++ f)%string
    with ("/static/" ++ rel)%string.
  assert (Hsplit : PosixPath.split rel = [".."; sib; f]).
  { apply PathFacts.split_concat; [discriminate|].
    destruct (PathFacts.entry_name_facts sib Hsib) as (_ & _ & _ & Hs4).
    repeat constructor; assumption. }
  rewrite (StaticFacts.serve_static_relative cs cwd fs Hne Hcs rel eq_refl).
  rewrite Hsplit. cbn [fold_left].
  rewrite StaticFacts.norm_dotdot_pop by discriminate.
  rewrite (PathFacts.norm_step_entry 1 cs sib Hsib).
  rewrite (PathFacts.norm_step_entry 1 _ f Hf), <- app_assoc. cbn [app].
  rewrite (StaticFacts.startswith_sibling cs sib [f] Hne).
  reflexivity.
Qed.

Lemma static_check_admits_siblings_named_static_witness :
  serve_static "/srv/app" "/" sample_fs "/static/../static_old/secret.txt"
  = Sent {| status := 200;
            headers := [("Content-Type", "application/octet-stream");
                        ("Content-Length", "6")];
            body := "s3cr3t" |}.
Proof.
  refine (eq_trans (static_check_admits_siblings_named_static
                      ["srv"; "app"] "/" sample_fs "_old" "secret.txt"
                      _ _ _ _) _).
  - discriminate.
  - repeat constructor.
  - reflexivity.
  - reflexivity.
  - reflexivity.
Defined.

(** X24.  A request that climbs out of the static directory into an entry
    of [BASE_DIR] whose name does not begin with [static] is answered with
    403, whether or not the entry exists. *)
Theorem static_check_refuses_other_siblings :
  forall (cs : list string) (cwd : string) (fs : string -> option node)
         (f : string),
    cs <> [] ->
    Forall (fun c => is_entry_name c = true) cs ->
    is_entry_name f = true ->
    PosixPath.startswith f "static" = false ->
    serve_static (path_of cs) cwd fs ("/static/../" ++ f)
    = Sent {| status := 403; headers := []; body := "Forbidden" |}.
Proof.
  intros cs cwd fs f Hne Hcs Hf Hstart.
  destruct (PathFacts.entry_name_facts f Hf) as (Hf1 & Hf2 & Hf3 & Hf4).
  set (rel := String.concat "/" [".."; f]).
  change ("/static/../" ++ f)%string with ("/static/" ++ rel)%string.
  assert (Hsplit : PosixPath.split rel = [".."; f]).
  { apply PathFacts.split_concat; [discriminate|]. repeat constructor; auto. }
  rewrite (StaticFacts.serve_static_relative cs cwd fs Hne Hcs rel eq_refl).
  rewrite Hsplit. cbn [fold_left].
  rewrite StaticFacts.norm_dotdot_pop by discriminate.
  rewrite (PathFacts.norm_step_entry 1 cs f Hf).
  rewrite (StaticFacts.startswith_sibling cs f [] Hne).
  cbn [String.concat]. now rewrite Hstart.
Qed.

Lemma static_check_refuses_other_siblings_witness :
  serve_static "/srv/app" "/" sample_fs "/static/../app.py"
  = Sent {| status := 403; headers := []; body := "Forbidden" |}.
Proof.
  refine (eq_trans (static_check_refuses_other_siblings
                      ["srv"; "app"] "/" sample_fs "app.py" _ _ _ _) _).
  - discriminate.
  - repeat constructor.
  - reflexivity.
  - reflexivity.
  - reflexivity.
Defined.

(** ** The upload handler: where the file is saved *)

Section SavePath.
Import PosixPath PathFacts.

Lemma last_Forall {A : Type} (P : A -> Prop) (l : list A) d :
  l <> [] -> Forall P l -> P (last l d).
Proof.
  intros Hne H. destruct (exists_last Hne) as (l' & x & ->).
  rewrite last_last. apply Forall_app in H as [_ H]. now inversion H.
Qed.

Lemma basename_no_slash p : no_slash (basename p) = true.
Proof.
  unfold basename.
  apply (last_Forall (fun c => no_slash c = true));
    [apply split_not_nil | apply StaticFacts.split_pieces].
Qed.

Lemma join_uploads base_dir name :
  no_slash name = true ->
  join (join base_dir "uploads") name
  = (join base_dir "uploads" ++ "/" ++ name)%string.
Proof.
  intros Hn. unfold join at 1. rewrite (no_slash_head name Hn).
  assert (E : exists d, join base_dir "uploads" = (d ++ "uploads")%string).
  { unfold join. cbn [startswith Ascii.eqb Bool.eqb andb].
    destruct (String.eqb base_dir "" || endswith base_dir "/")%bool.
    - now exists base_dir.
    - exists (base_dir ++ "/")%string. now rewrite append_assoc. }
  destruct E as [d ->].
  rewrite endswith_app by discriminate.
  replace (String.eqb (d ++ "uploads") "") with false; [reflexivity|].
  symmetry. apply String.eqb_neq. destruct d; discriminate.
Qed.

End SavePath.

(** X25.  An upload is saved directly in the upload directory whatever
    file name the client sends: the path is [UPLOAD_DIR], a slash, and the
    part of the name after its last slash, which holds no slash; without a
    file name it is [match.json]. *)
Theorem upload_is_saved_in_the_upload_directory :
  forall (base_dir : string) (filename : option string),
    exists name,
      upload_save_path base_dir filename
      = (PosixPath.join base_dir "uploads" ++ "/" ++ name)%string
      /\ no_slash name = true
      /\ (filename = None \/ filename = Some "" -> name = "match.json")
      /\ (forall f, filename = Some f -> f <> "" ->
                    name = PosixPath.basename f).
Proof.
  intros base_dir filename. unfold upload_save_path.
  eexists. split; [apply join_uploads, basename_no_slash|].
  split; [apply basename_no_slash|]. split.
  - intros [-> | ->]; reflexivity.
  - intros f -> Hf. apply String.eqb_neq in Hf. now rewrite Hf.
Qed.
